(** * Pagination engine of the CI/CD tooling

    A shallow embedding of [cicd/core/LinkHeaderParser.ts] and of the
    pagination methods of [cicd/core/GitHubClient.ts] ([getAllData],
    [getAllDataUntil], [getAllFilteredData], [createAlternatePagesGroups]),
    followed by the properties of the engine.

    Conventions.
    - A JavaScript [number] holding a page number or a page size is a [Z].
    - A JavaScript string is a [string] of code units below 256.
    - An exception is the [Throw] result of the parser and the [Raise]
      outcome of the engine; [Deno.exit] is the [Exit] outcome, which no
      [catch] sees.
    - A promise is modelled settled: [Resolved v] or [Rejected message];
      the order in which the promises of one [Promise.all] settle is an
      explicit argument (a [Schedule]). *)

From Stdlib Require Import ZArith String Ascii.
From stdpp Require Import base tactics option list strings.

Local Open Scope string_scope.
Local Open Scope list_scope.

(** ** JavaScript strings *)

Module JsString.

(** The double quote character, for the rel attributes of a Link header. *)
Definition dquote : string := String "034"%char EmptyString.

(** [WhiteSpace] and [LineTerminator] code units below 256: the characters
    [String.prototype.trim] strips. *)
Definition isWhiteSpace (c : ascii) : bool :=
  let n := nat_of_ascii c in
  (Nat.eqb n 9 || Nat.eqb n 10 || Nat.eqb n 11 || Nat.eqb n 12
   || Nat.eqb n 13 || Nat.eqb n 32 || Nat.eqb n 160)%bool.

Definition isEmpty (s : string) : bool :=
  match s with EmptyString => true | String _ _ => false end.

Fixpoint trimStart (s : string) : string :=
  match s with
  | EmptyString => EmptyString
  | String c s' => if isWhiteSpace c then trimStart s' else s
  end.

Fixpoint trimEnd (s : string) : string :=
  match s with
  | EmptyString => EmptyString
  | String c s' =>
      let t := trimEnd s' in
      if (isWhiteSpace c && isEmpty t)%bool then EmptyString else String c t
  end.

(** [s.trim()] *)
Definition trim (s : string) : string := trimEnd (trimStart s).

(** [s.split(sep)] for a one-character separator: never an empty array. *)
Fixpoint split (sep : ascii) (s : string) : list string :=
  match s with
  | EmptyString => [EmptyString]
  | String c s' =>
      let r := split sep s' in
      if Ascii.eqb c sep then EmptyString :: r
      else match r with
           | h :: t => String c h :: t
           | [] => [String c EmptyString]
           end
  end.

(** [s.includes(sub)] *)
Fixpoint includes (sub s : string) : bool :=
  if String.prefix sub s then true
  else match s with
       | EmptyString => false
       | String _ s' => includes sub s'
       end.

Definition isDigit (c : ascii) : bool :=
  let n := nat_of_ascii c in (Nat.leb 48 n && Nat.leb n 57)%bool.

(** The longest run of decimal digits at the start of [s]: [[0-9]*]. *)
Fixpoint takeDigits (s : string) : string :=
  match s with
  | EmptyString => EmptyString
  | String c s' => if isDigit c then String c (takeDigits s') else EmptyString
  end.

Fixpoint dropChars (n : nat) (s : string) : string :=
  match n, s with
  | O, _ => s
  | S n', String _ s' => dropChars n' s'
  | S _, EmptyString => EmptyString
  end.

Fixpoint digitsValue (acc : Z) (s : string) : Z :=
  match s with
  | EmptyString => acc
  | String c s' =>
      if isDigit c
      then digitsValue (10 * acc + Z.of_nat (nat_of_ascii c - 48)) s'
      else acc
  end.

(** [parseInt(s)] on a string that starts with a decimal digit; [None] is
    [NaN].  Signs, leading blanks and the [0x] prefix are left out: the
    parser only hands over the digit run of a regular-expression match.
    The value is exact: it is the value of the code for digit runs that
    denote at most 2^53; above, the code rounds to a double, which this
    definition does not. *)
Definition parseInt (s : string) : option Z :=
  match s with
  | EmptyString => None
  | String c _ => if isDigit c then Some (digitsValue 0 s) else None
  end.

End JsString.

(** ** Results of code that may throw *)

Inductive Res (A : Type) : Type :=
| Ok (a : A)
| Throw (message : string).
Arguments Ok {A} a.
Arguments Throw {A} message.

(** Results of code that may also end the process with [Deno.exit]. *)
Inductive Outcome (A : Type) : Type :=
| Return (a : A)
| Raise (message : string)
| Exit (code : Z).
Arguments Return {A} a.
Arguments Raise {A} message.
Arguments Exit {A} code.

(** The message of the [TypeError] of [undefined.trim()]. *)
Definition typeErrorTrim : string :=
  "Cannot read properties of undefined (reading 'trim')".

(** ** Utils *)

Module Utils.

(** Modelled from the spec: [Utils.isNullOrEmptyOrUndefined] ([Utils.ts] is
    not among the sources).  On a string it tells the empty string: if
    the input is empty (string case), the parser returns a null result. *)
Definition isNullOrEmptyOrUndefined (value : string) : bool :=
  JsString.isEmpty value.

(** Modelled from the spec: [Utils.splitBy] ([Utils.ts] is not among the
    sources): split each section on the semicolon, the separator being
    one character. *)
Definition splitBy (value : string) (separator : ascii) : list string :=
  JsString.split separator value.

(** Modelled from the spec: [Utils.splitByComma] ([Utils.ts] is not among
    the sources): split the header value on commas into sections. *)
Definition splitByComma (value : string) : list string :=
  splitBy value ","%char.

(** Modelled from the spec: [Utils.clamp] ([Utils.ts] is not among the
    sources): the page size is always clamped to [1,100]. *)
Definition clamp (num min max : Z) : Z :=
  if (num <? min)%Z then min else if (max <? num)%Z then max else num.

End Utils.

(** ** Responses and their headers *)

(** A [Headers] object: (name, value) pairs in insertion order.  Names are
    compared without regard to case, and [get] joins the values of one name
    with a comma and a blank, as the Fetch standard has it. *)
Definition Headers : Type := list (string * string).

Record Response : Type := { headers : Headers }.

Module HeadersOps.

Definition lowerChar (c : ascii) : ascii :=
  let n := nat_of_ascii c in
  if (Nat.leb 65 n && Nat.leb n 90)%bool then ascii_of_nat (n + 32) else c.

Fixpoint lower (s : string) : string :=
  match s with
  | EmptyString => EmptyString
  | String c s' => String (lowerChar c) (lower s')
  end.

Definition sameName (a b : string) : bool := String.eqb (lower a) (lower b).

Definition valuesOf (h : Headers) (name : string) : list string :=
  map snd (filter (fun nv => sameName (fst nv) name = true) h).

(** [headers.has(name)] *)
Definition has (h : Headers) (name : string) : bool :=
  match valuesOf h name with [] => false | _ :: _ => true end.

Fixpoint join (sep : string) (l : list string) : string :=
  match l with
  | [] => EmptyString
  | [x] => x
  | x :: rest => x +:+ sep +:+ join sep rest
  end.

(** [headers.get(name)]; [None] is [null]. *)
Definition get (h : Headers) (name : string) : option string :=
  match valuesOf h name with
  | [] => None
  | vs => Some (join ", " vs)
  end.

End HeadersOps.

(** ** LinkHeaderParser.ts *)

Record IPageInfo : Type := { pageUrl : string; metadata : string }.

Record ILinkHeader : Type := {
  prevPage : Z;
  nextPage : Z;
  totalPages : Z;
  pageData : list IPageInfo
}.

Module LinkHeaderParser.

Import JsString.

(** The first match of [/page=[0-9]+/gm] in [s]: [matches[0]]. [None] is the
    [null] of [String.prototype.match]. *)
Fixpoint pageNumRegexFirst (s : string) : option string :=
  let here :=
    if String.prefix "page=" s
    then let digits := takeDigits (dropChars 5 s) in
         if isEmpty digits then None else Some ("page=" +:+ digits)
    else None in
  match here with
  | Some m => Some m
  | None => match s with
            | EmptyString => None
            | String _ s' => pageNumRegexFirst s'
            end
  end.

Definition isPrev (pageInfo : IPageInfo) : bool :=
  includes ("rel=" +:+ dquote +:+ "prev" +:+ dquote) (metadata pageInfo).

Definition isNext (pageInfo : IPageInfo) : bool :=
  includes ("rel=" +:+ dquote +:+ "next" +:+ dquote) (metadata pageInfo).

Definition isLast (pageInfo : IPageInfo) : bool :=
  includes ("rel=" +:+ dquote +:+ "last" +:+ dquote) (metadata pageInfo).

(** [parseInt(Utils.splitBy(matches[0], "=")[1])].  A match is [page=]
    followed by digits, so the second part exists and [parseInt] yields a
    number ([getPageNumber_match] below); the [0] of the other branches
    is never taken. *)
Definition getPageNumber (pageUrl : string) : Z :=
  let pageUrl := trim pageUrl in
  match pageNumRegexFirst pageUrl with
  | None => 0%Z
  | Some m =>
      match Utils.splitBy m "="%char !! 1%nat with
      | Some digits => default 0%Z (parseInt digits)
      | None => 0%Z
      end
  end.

(** The body of [for (const headerSection of headerSections)]. *)
Definition parseSection (linkHeaderInfo : ILinkHeader) (headerSection : string)
  : Res ILinkHeader :=
  let pageInfoSections := map trim (Utils.splitBy headerSection ";"%char) in
  match pageInfoSections !! 0%nat with
  | None => Throw typeErrorTrim
  | Some s0 =>
      let pageUrl := trim s0 in
      match pageInfoSections !! 1%nat with
      | None => Throw typeErrorTrim
      | Some s1 =>
          let metadata := trim s1 in
          let pageInfo := {| pageUrl := pageUrl; metadata := metadata |} in
          let pushed := pageData linkHeaderInfo ++ [pageInfo] in
          if isPrev pageInfo then
            Ok {| prevPage := getPageNumber pageUrl;
                  nextPage := nextPage linkHeaderInfo;
                  totalPages := totalPages linkHeaderInfo;
                  pageData := pushed |}
          else if isNext pageInfo then
            Ok {| prevPage := prevPage linkHeaderInfo;
                  nextPage := getPageNumber pageUrl;
                  totalPages := totalPages linkHeaderInfo;
                  pageData := pushed |}
          else if isLast pageInfo then
            Ok {| prevPage := prevPage linkHeaderInfo;
                  nextPage := nextPage linkHeaderInfo;
                  totalPages := getPageNumber pageUrl;
                  pageData := pushed |}
          else
            Ok {| prevPage := prevPage linkHeaderInfo;
                  nextPage := nextPage linkHeaderInfo;
                  totalPages := totalPages linkHeaderInfo;
                  pageData := pushed |}
      end
  end.

Fixpoint parseSections (linkHeaderInfo : ILinkHeader) (headerSections : list string)
  : Res ILinkHeader :=
  match headerSections with
  | [] => Ok linkHeaderInfo
  | headerSection :: rest =>
      match parseSection linkHeaderInfo headerSection with
      | Ok info => parseSections info rest
      | Throw e => Throw e
      end
  end.

(** [toLinkHeader(responseOrHeaderString: Response | string)]; [Ok None] is
    the [null] result. *)
Definition toLinkHeader (responseOrHeaderString : Response + string)
  : Res (option ILinkHeader) :=
  let doesNotContainLinkHeader :=
    match responseOrHeaderString with
    | inr s => Utils.isNullOrEmptyOrUndefined s
    | inl r => negb (HeadersOps.has (headers r) "Link")
    end in
  if doesNotContainLinkHeader then Ok None
  else
    let linkHeader :=
      match responseOrHeaderString with
      | inr s => s
      | inl r => default EmptyString (HeadersOps.get (headers r) "Link")
      end in
    let headerSections := map trim (Utils.splitByComma linkHeader) in
    let linkHeaderInfo :=
      {| prevPage := 0; nextPage := 0; totalPages := 0; pageData := [] |} in
    match parseSections linkHeaderInfo headerSections with
    | Ok info => Ok (Some info)
    | Throw e => Throw e
    end.

End LinkHeaderParser.

(** ** Promises *)

Inductive Promise (A : Type) : Type :=
| Resolved (value : A)
| Rejected (message : string).
Arguments Resolved {A} value.
Arguments Rejected {A} message.

(** The order in which the promises handed to one [Promise.all] settle.
    At each step the head of the schedule, taken modulo the number of
    promises still pending, picks the one that settles next; an exhausted
    schedule picks the first.  Every schedule is a completion order, and every
    completion order has a schedule ([every_order_has_schedule]). *)
Definition Schedule : Type := list nat.

(** The promise that settles next: its index, and the indices that stay
    pending. *)
Definition pick (sched : Schedule) (pending : list nat) : option (nat * list nat) :=
  let k := (hd 0 sched mod length pending)%nat in
  match pending !! k with
  | None => None
  | Some index => Some (index, delete k pending)
  end.

(** The indices in the order in which [sched] settles them. *)
Fixpoint completionOrder (fuel : nat) (sched : Schedule) (pending : list nat)
  : list nat :=
  match fuel with
  | O => []
  | S fuel' =>
      match pick sched pending with
      | None => []
      | Some (index, pending') =>
          index :: completionOrder fuel' (tl sched) pending'
      end
  end.

(** [Promise.all]: each promise that resolves stores its value at its own
    index of [values]; the first one to reject rejects the whole; when none
    is pending the array of values is the result. *)
Fixpoint settle {A : Type} (fuel : nat) (sched : Schedule) (pending : list nat)
  (requests : list (Promise A)) (values : list (option A))
  : Promise (list (option A)) :=
  match fuel with
  | O => Resolved values
  | S fuel' =>
      match pick sched pending with
      | None => Resolved values
      | Some (index, pending') =>
          match requests !! index with
          | Some (Resolved v) =>
              settle fuel' (tl sched) pending' requests
                (<[index := Some v]> values)
          | Some (Rejected e) => Rejected e
          | None => Resolved values
          end
      end
  end.

Definition promiseAll {A : Type} (sched : Schedule) (requests : list (Promise A))
  : Promise (list A) :=
  let n := length requests in
  match settle n sched (seq 0 n) requests (replicate n None) with
  | Resolved values => Resolved (omap id values)
  | Rejected e => Rejected e
  end.

(** ** GitHubClient.ts *)

Module GitHubClient.

Import LinkHeaderParser.

Local Open Scope Z_scope.

(** [createAlternatePagesGroups(totalPages)] *)
Definition createAlternatePagesGroups (totalPages : Z) : list Z * list Z :=
  let firstHalfEndingIndex := totalPages / 2 in
  let halves :=
    fold_left
      (fun (halves : list Z * list Z) (i : Z) =>
         if i <=? firstHalfEndingIndex
         then (fst halves ++ [i], snd halves)
         else (fst halves, snd halves ++ [i]))
      (seqZ 1 totalPages) ([], []) in
  (fst halves, reverse (snd halves)).

Section Engine.

Context {T : Type}.

(** [GetDataFunc<T>]: the page-fetch callback, a deterministic function of
    the page number and the page size. *)
Definition GetDataFunc : Type := Z -> Z -> Promise (list T * Response).

(** What a run leaves behind: the calls of the page-fetch callback, the pages
    handed to the [until] predicate and the messages printed as errors, each
    in the order of the events. *)
Record World : Type := {
  fetchLog : list (Z * Z);
  untilLog : list (list T);
  errorLog : list string
}.

Definition emptyWorld : World :=
  {| fetchLog := []; untilLog := []; errorLog := [] |}.

Definition M (A : Type) : Type := World -> Outcome A * World.

Definition ret {A : Type} (a : A) : M A := fun w => (Return a, w).

Definition bind {A B : Type} (m : M A) (f : A -> M B) : M B :=
  fun w =>
    match m w with
    | (Return a, w') => f a w'
    | (Raise e, w') => (Raise e, w')
    | (Exit c, w') => (Exit c, w')
    end.

Definition throw {A : Type} (e : string) : M A := fun w => (Raise e, w).

Definition liftRes {A : Type} (r : Res A) : M A :=
  match r with
  | Ok a => ret a
  | Throw e => throw e
  end.

(** [try { body } catch (error) { handler }] *)
Definition tryCatch {A : Type} (body : M A) (handler : string -> M A) : M A :=
  fun w =>
    match body w with
    | (Raise e, w') => handler e w'
    | other => other
    end.

(** [getData(page, qtyPerPage)]: the call is recorded, the promise returned. *)
Definition callGetData (getData : GetDataFunc) (page qtyPerPage : Z)
  : M (Promise (list T * Response)) :=
  fun w =>
    (Return (getData page qtyPerPage),
     {| fetchLog := fetchLog w ++ [(page, qtyPerPage)];
        untilLog := untilLog w;
        errorLog := errorLog w |}).

(** [await promise] *)
Definition await {A : Type} (p : Promise A) : M A :=
  match p with
  | Resolved v => ret v
  | Rejected e => throw e
  end.

(** [until(pageOfData)] *)
Definition callUntil (until : list T -> bool) (pageOfData : list T) : M bool :=
  fun w =>
    (Return (until pageOfData),
     {| fetchLog := fetchLog w;
        untilLog := untilLog w ++ [pageOfData];
        errorLog := errorLog w |}).

(** [Utils.printAsGitHubError(message)]: [Utils.ts] is not among the sources;
    only the message handed over is recorded. *)
Definition printAsGitHubError (message : string) : M unit :=
  fun w =>
    (Return tt,
     {| fetchLog := fetchLog w;
        untilLog := untilLog w;
        errorLog := errorLog w ++ [message] |}).

(** [Deno.exit(code)] *)
Definition DenoExit {A : Type} (code : Z) : M A := fun w => (Exit code, w).

Notation "x <- c1 ;; c2" := (bind c1 (fun x => c2))
  (at level 100, c1 at next level, right associativity).

(** A loop over a list of indices that threads an accumulator. *)
Fixpoint forEach {A I : Type} (indices : list I) (body : I -> A -> M A) (acc : A)
  : M A :=
  match indices with
  | [] => ret acc
  | i :: rest => acc' <- body i acc ;; forEach rest body acc'
  end.

Definition newline : string := String "010"%char EmptyString.

(** The [catch] block shared by the three operations. *)
Definition paginationCatch {A : Type} (errorMessage : string) : M A :=
  let errorMsg := "There was an issue getting all of the data using pagination." in
  let errorMsg := errorMsg +:+ newline +:+ errorMessage in
  _ <- printAsGitHubError errorMsg ;;
  DenoExit 1.

(** [getAllData(getData, page, qtyPerPage)].  The counter [totalPages] of the
    source is written and never read; it is left out.  [sched] is the order
    in which the requests of pages [2..totalPagesLeft] settle. *)
Definition getAllData (getData : GetDataFunc) (page qtyPerPage : Z)
  (sched : Schedule) : M (list T) :=
  let allData : list T := [] in
  let page := if page <? 1 then 1 else page in
  let qtyPerPage := Utils.clamp qtyPerPage 1 100 in
  tryCatch
    (seed <- callGetData getData page qtyPerPage ;;
     seedResult <- await seed ;;
     let '(dataItems, response) := seedResult in
     let allData := allData ++ dataItems in
     linkHeader <- liftRes (toLinkHeader (inl response)) ;;
     let totalPagesLeft :=
       match linkHeader with
       | None => 1
       | Some lh => totalPages lh
       end in
     dataRequests <-
       forEach (seqZ 2 (totalPagesLeft - 1))
         (fun i dataRequests =>
            request <- callGetData getData i qtyPerPage ;;
            ret (dataRequests ++ [request]))
         [] ;;
     responses <- await (promiseAll sched dataRequests) ;;
     let allData :=
       fold_left (fun allData response => allData ++ fst response)
         responses allData in
     ret allData)
    paginationCatch.

(** The first half of the body of [for (let i = 0; i < maxLen; i++)] in
    [getAllDataUntil]: the requests of round [i].  [requests] is empty on
    entry: the first round starts with the empty array and every round that
    goes on ends with [requests.length = 0]. *)
Definition roundRequests (getData : GetDataFunc) (qtyPerPage : Z)
  (groupA groupB : list Z) (i : nat) : M (list (Promise (list T * Response))) :=
  let requests : list (Promise (list T * Response)) := [] in
  requests <-
    (if Z.of_nat i <=? Z.of_nat (length groupA) - 1 then
       let currentPageA := nth i groupA 0 in
       request <- callGetData getData currentPageA qtyPerPage ;;
       ret (requests ++ [request])
     else ret requests) ;;
  (if Z.of_nat i <=? Z.of_nat (length groupB) - 1 then
     let currentPageB := nth i groupB 0 in
     request <- callGetData getData currentPageB qtyPerPage ;;
     ret (requests ++ [request])
   else ret requests).

(** The second half: the checks on [[groupResultA, groupResultB]], the
    destructured result of [Promise.all]; [Some items] is a [return items]
    from inside the loop. *)
Definition roundCheck (until : list T -> bool)
  (results : list (list T * Response)) : M (option (list T)) :=
  let groupResultA := results !! 0%nat in
  let groupResultB := results !! 1%nat in
  let groupItemsA := match groupResultA with None => [] | Some r => fst r end in
  matchA <-
    (if (0 <? length groupItemsA)%nat then callUntil until groupItemsA
     else ret false) ;;
  if matchA then ret (Some groupItemsA)
  else
    let groupItemsB := match groupResultB with None => [] | Some r => fst r end in
    matchB <-
      (if (0 <? length groupItemsB)%nat then callUntil until groupItemsB
       else ret false) ;;
    if matchB then ret (Some groupItemsB) else ret None.

(** One pass of the loop body. *)
Definition untilRound (getData : GetDataFunc) (qtyPerPage : Z)
  (until : list T -> bool) (groupA groupB : list Z) (sched : Schedule)
  (i : nat) : M (option (list T)) :=
  requests <- roundRequests getData qtyPerPage groupA groupB i ;;
  results <- await (promiseAll sched requests) ;;
  roundCheck until results.

(** The rounds still to run, and the [return []] after the loop. *)
Fixpoint untilRounds (getData : GetDataFunc) (qtyPerPage : Z)
  (until : list T -> bool) (groupA groupB : list Z) (scheds : nat -> Schedule)
  (rounds : list nat) : M (list T) :=
  match rounds with
  | [] => ret []
  | i :: rest =>
      found <- untilRound getData qtyPerPage until groupA groupB (scheds i) i ;;
      match found with
      | Some items => ret items
      | None => untilRounds getData qtyPerPage until groupA groupB scheds rest
      end
  end.

(** The two groups with page 1 removed, as [getAllDataUntil] uses them. *)
Definition searchGroups (totalPagesLeft : Z) : list Z * list Z :=
  let groups := createAlternatePagesGroups totalPagesLeft in
  (List.filter (fun i => negb (i =? 1)) (fst groups),
   List.filter (fun i => negb (i =? 1)) (snd groups)).

(** [Math.max(groupA.length, groupB.length)] *)
Definition maxLen (groups : list Z * list Z) : nat :=
  Nat.max (length (fst groups)) (length (snd groups)).

(** [getAllDataUntil(getData, page, qtyPerPage, until)]; [scheds i] is the
    order in which the requests of round [i] settle. *)
Definition getAllDataUntil (getData : GetDataFunc) (page qtyPerPage : Z)
  (until : list T -> bool) (scheds : nat -> Schedule) : M (list T) :=
  let page := if page <? 1 then 1 else page in
  let qtyPerPage := Utils.clamp qtyPerPage 1 100 in
  tryCatch
    (seed <- callGetData getData page qtyPerPage ;;
     seedResult <- await seed ;;
     let '(dataItems, response) := seedResult in
     matchSeed <- callUntil until dataItems ;;
     if matchSeed then ret dataItems
     else
       linkHeader <- liftRes (toLinkHeader (inl response)) ;;
       let totalPagesLeft :=
         match linkHeader with
         | None => 0
         | Some lh => totalPages lh
         end in
       let groups := searchGroups totalPagesLeft in
       untilRounds getData qtyPerPage until (fst groups) (snd groups) scheds
         (seq 0 (maxLen groups)))
    paginationCatch.

(** [getAllFilteredData(getData, page, qtyPerPage, filter)] *)
Definition getAllFilteredData (getData : GetDataFunc) (page qtyPerPage : Z)
  (filter : list T -> list T) (sched : Schedule) : M (list T) :=
  let page := if page <? 1 then 1 else page in
  let qtyPerPage := Utils.clamp qtyPerPage 1 100 in
  tryCatch
    (allData <- getAllData getData page qtyPerPage sched ;;
     ret (filter allData))
    paginationCatch.

End Engine.

Arguments World : clear implicits.
Arguments GetDataFunc : clear implicits.
Arguments M : clear implicits.

End GitHubClient.

(** ** GitHubVariableService *)

Module GitHubVariableService.

(** [GitHubVarModel]: the model file is not among the sources; these are the
    two fields that the service reads. *)
Record GitHubVarModel : Type := { name : string; value : string }.

(** The calls of the two clients. *)
Inductive ClientCall : Type :=
| OrgVariables (orgName : string)
| RepoVariables (repoName : string).

(** The state of a service: its cache, and the client calls made so far. *)
Record ServiceState : Type := {
  cachedVars : list GitHubVarModel;
  clientCalls : list ClientCall
}.

Definition newService : ServiceState := {| cachedVars := []; clientCalls := [] |}.

(** An [async] method: a settled promise and the state it leaves. *)
Definition Async (A : Type) : Type := ServiceState -> Promise A * ServiceState.

Definition resolve {A : Type} (a : A) : Async A := fun s => (Resolved a, s).

Definition reject {A : Type} (reason : string) : Async A :=
  fun s => (Rejected reason, s).

(** [const x = await m; k x] *)
Definition awaitThen {A B : Type} (m : Async A) (k : A -> Async B) : Async B :=
  fun s =>
    match m s with
    | (Resolved a, s') => k a s'
    | (Rejected e, s') => (Rejected e, s')
    end.

(** The fields that the constructor sets: the two names, and the two
    clients, whose classes are not among the sources: [getVariables] of each
    is any function from the name to a settled promise. *)
Record Service : Type := {
  orgName : string;
  repoName : string;
  orgClient_getVariables : string -> Promise (list GitHubVarModel);
  repoClient_getVariables : string -> Promise (list GitHubVarModel)
}.

Section Methods.

Variable this : Service.

Notation "x <- c1 ;; c2" := (awaitThen c1 (fun x => c2))
  (at level 100, c1 at next level, right associativity).

Definition callOrgClient : Async (list GitHubVarModel) :=
  fun s =>
    (orgClient_getVariables this (orgName this),
     {| cachedVars := cachedVars s;
        clientCalls := clientCalls s ++ [OrgVariables (orgName this)] |}).

Definition callRepoClient : Async (list GitHubVarModel) :=
  fun s =>
    (repoClient_getVariables this (repoName this),
     {| cachedVars := cachedVars s;
        clientCalls := clientCalls s ++ [RepoVariables (repoName this)] |}).

(** [this.cachedVars.push(...vars)] *)
Definition pushCached (vars : list GitHubVarModel) : Async unit :=
  fun s =>
    (Resolved tt,
     {| cachedVars := cachedVars s ++ vars; clientCalls := clientCalls s |}).

Definition readCached : Async (list GitHubVarModel) :=
  fun s => (Resolved (cachedVars s), s).

(** [getVar(name)]; [None] is [undefined]. *)
Definition getVar (name' : string) : Async (option GitHubVarModel) :=
  cached <- readCached ;;
  _ <- (if Nat.eqb (length cached) 0 then
          orgVars <- callOrgClient ;;
          repoVars <- callRepoClient ;;
          let orgVarsToKeep :=
            List.filter
              (fun orgVar =>
                 negb (existsb (fun repoVar => String.eqb (name repoVar) (name orgVar))
                         repoVars))
              orgVars in
          _ <- pushCached orgVarsToKeep ;;
          pushCached repoVars
        else resolve tt) ;;
  cached <- readCached ;;
  resolve (List.find (fun v => String.eqb (name v) name') cached).

(** [getValue(name, throwErrorWhenNotFound = true)] *)
Definition getValue (name' : string) (throwErrorWhenNotFound : bool) : Async string :=
  variable <- getVar name' ;;
  match variable with
  | None =>
      if throwErrorWhenNotFound
      then reject ("The variable '" +:+ name' +:+ "' was not found.")
      else resolve EmptyString
  | Some v => resolve (JsString.trim (value v))
  end.

(** [varExists(name)] *)
Definition varExists (name' : string) : Async bool :=
  variable <- getVar name' ;;
  match variable with
  | None => resolve false
  | Some _ => resolve true
  end.

(** The loop of [allVarsExist], with [nonExistingVars] as accumulator. *)
Fixpoint collectMissing (names : list string) (nonExistingVars : list string)
  : Async (list string) :=
  match names with
  | [] => resolve nonExistingVars
  | name' :: rest =>
      variable <- getVar name' ;;
      match variable with
      | None => collectMissing rest (nonExistingVars ++ [name'])
      | Some _ => collectMissing rest nonExistingVars
      end
  end.

(** [allVarsExist(names)] *)
Definition allVarsExist (names : list string) : Async (bool * list string) :=
  nonExistingVars <- collectMissing names [] ;;
  resolve (Nat.leb (length nonExistingVars) 0, nonExistingVars).

End Methods.

(** The variables that a lookup with an empty cache stores: those of the
    organization that the repository does not redefine, then those of the
    repository. *)
Definition mergedVars (orgVars repoVars : list GitHubVarModel) : list GitHubVarModel :=
  List.filter
    (fun orgVar =>
       negb (existsb (fun repoVar => String.eqb (name repoVar) (name orgVar)) repoVars))
    orgVars
  ++ repoVars.

(** Some variable of the list has the name [name']. *)
Definition defines (vars : list GitHubVarModel) (name' : string) : bool :=
  existsb (fun v => String.eqb (name v) name') vars.

(** A service over fixed lists of variables. *)
Definition serviceOf (orgVars repoVars : list GitHubVarModel) : Service :=
  {| orgName := "KinsonDigital";
     repoName := "Infrastructure";
     orgClient_getVariables := fun _ => Resolved orgVars;
     repoClient_getVariables := fun _ => Resolved repoVars |}.

(** A service whose organization client fails. *)
Definition orgDown : Service :=
  {| orgName := "KinsonDigital";
     repoName := "Infrastructure";
     orgClient_getVariables := fun _ => Rejected "401";
     repoClient_getVariables := fun _ => Resolved [] |}.

Definition sampleOrgVars : list GitHubVarModel :=
  [{| name := "DISCORD_INVITE_CODE"; value := " org-code " |};
   {| name := "TWITTER_BROADCAST_ENABLED"; value := "false" |}].

Definition sampleRepoVars : list GitHubVarModel :=
  [{| name := "TWITTER_BROADCAST_ENABLED"; value := " true " |}].

End GitHubVariableService.

(** ** Vocabulary of the statements *)

Import GitHubClient LinkHeaderParser.

Section Vocabulary.

Context {T : Type}.

(** The world after the calls [calls] of the page-fetch callback. *)
Definition logFetches (w : World T) (calls : list (Z * Z)) : World T :=
  {| fetchLog := fetchLog w ++ calls;
     untilLog := untilLog w;
     errorLog := errorLog w |}.

(** The world after [pages] were handed to the predicate. *)
Definition logUntil (w : World T) (pages : list (list T)) : World T :=
  {| fetchLog := fetchLog w;
     untilLog := untilLog w ++ pages;
     errorLog := errorLog w |}.

(** The world after the [catch] block printed its message for [e]. *)
Definition logError (w : World T) (e : string) : World T :=
  {| fetchLog := fetchLog w;
     untilLog := untilLog w;
     errorLog := errorLog w ++
       ["There was an issue getting all of the data using pagination."
        +:+ newline +:+ e] |}.

(** [page < 1 ? 1 : page] *)
Definition startPage (page : Z) : Z := if (page <? 1)%Z then 1%Z else page.

(** The calls of pages [pages] with page size [q]. *)
Definition callsOf (q : Z) (pages : list Z) : list (Z * Z) :=
  (fun i => (i, q)) <$> pages.

(** The requests of pages [pages] with page size [q]. *)
Definition requestsOf (getData : GetDataFunc T) (q : Z) (pages : list Z)
  : list (Promise (list T * Response)) :=
  (fun i => getData i q) <$> pages.

(** The call [c] of the callback failed. *)
Definition failedCall (getData : GetDataFunc T) (c : Z * Z) : Prop :=
  exists e, getData (fst c) (snd c) = Rejected e.

(** The pages requested in round [i] of the search. *)
Definition roundPages (groupA groupB : list Z) (i : nat) : list Z :=
  (if (i <? length groupA)%nat then [nth i groupA 0%Z] else [])
  ++ (if (i <? length groupB)%nat then [nth i groupB 0%Z] else []).

(** [linkHeader === null ? 1 : linkHeader?.totalPages ?? 0] of [getAllData] *)
Definition allPagesLeft (linkHeader : option ILinkHeader) : Z :=
  match linkHeader with None => 1%Z | Some lh => totalPages lh end.

(** [linkHeader?.totalPages ?? 0] of [getAllDataUntil] *)
Definition untilPagesLeft (linkHeader : option ILinkHeader) : Z :=
  match linkHeader with None => 0%Z | Some lh => totalPages lh end.

(** [getAllData] case by case: the seed fails, the header does not parse, a
    page fails, or all is well. *)
Definition getAllData_cases (getData : GetDataFunc T) (page qtyPerPage : Z)
  (sched : Schedule) (w : World T) : Outcome (list T) * World T :=
  let p := startPage page in
  let q := Utils.clamp qtyPerPage 1 100 in
  let w1 := logFetches w [(p, q)] in
  match getData p q with
  | Rejected e => (Exit 1, logError w1 e)
  | Resolved (dataItems, response) =>
      match toLinkHeader (inl response) with
      | Throw e => (Exit 1, logError w1 e)
      | Ok linkHeader =>
          let pages := seqZ 2 (allPagesLeft linkHeader - 1) in
          let w2 := logFetches w1 (callsOf q pages) in
          match promiseAll sched (requestsOf getData q pages) with
          | Rejected e => (Exit 1, logError w2 e)
          | Resolved responses =>
              (Return (dataItems ++ concat (map fst responses)), w2)
          end
      end
  end.

(** The items of the [k]-th result of a round, empty when there is none. *)
Definition roundItems (results : list (list T * Response)) (k : nat) : list T :=
  match results !! k with None => [] | Some r => fst r end.

(** [items.length > 0 && until(items)] *)
Definition pageMatches (until : list T -> bool) (items : list T) : bool :=
  ((0 <? length items)%nat && until items)%bool.

(** The pages a check hands to the predicate: the non-empty ones. *)
Definition inspected (items : list T) : list (list T) :=
  if (0 <? length items)%nat then [items] else [].

(** [getAllDataUntil] case by case, down to the rounds. *)
Definition getAllDataUntil_cases (getData : GetDataFunc T) (page qtyPerPage : Z)
  (until : list T -> bool) (scheds : nat -> Schedule) (w : World T)
  : Outcome (list T) * World T :=
  let p := startPage page in
  let q := Utils.clamp qtyPerPage 1 100 in
  let w1 := logFetches w [(p, q)] in
  match getData p q with
  | Rejected e => (Exit 1, logError w1 e)
  | Resolved (dataItems, response) =>
      let w2 := logUntil w1 [dataItems] in
      if until dataItems then (Return dataItems, w2)
      else
        match toLinkHeader (inl response) with
        | Throw e => (Exit 1, logError w2 e)
        | Ok linkHeader =>
            let groups := searchGroups (untilPagesLeft linkHeader) in
            match untilRounds getData q until (fst groups) (snd groups) scheds
                    (seq 0 (maxLen groups)) w2 with
            | (Raise e, w3) => (Exit 1, logError w3 e)
            | other => other
            end
        end
  end.

End Vocabulary.

(** The page at index [i] of [group] was fetched and holds [items]. *)
Definition pageAt {T : Type} (getData : GetDataFunc T) (q : Z) (group : list Z)
  (i : nat) (items : list T) : Prop :=
  exists page response,
    group !! i = Some page /\ getData page q = Resolved (items, response).

(** The first call of the log is for page [p], and every call of the log asks
    for [q] items per page. *)
Definition fetchesWith (p q : Z) (log : list (Z * Z)) : Prop :=
  exists rest, log = (p, q) :: rest /\ Forall (fun c => snd c = q) rest.

(** The pages [lo..hi] in ascending order. *)
Definition ascending (lo hi : Z) : list Z := seqZ lo (hi - lo + 1).

(** The pages [lo..hi] in descending order. *)
Definition descending (lo hi : Z) : list Z := reverse (ascending lo hi).

(** ** Sample headers and callbacks *)

(** The header of the parsing example: a next relation to page 2 and a last
    relation to page 5. *)
Definition exampleHeader : string :=
  "<https://api.example.com/x?page=2>; rel=" +:+ JsString.dquote +:+ "next"
  +:+ JsString.dquote
  +:+ ", <https://api.example.com/x?page=5>; rel=" +:+ JsString.dquote
  +:+ "last" +:+ JsString.dquote.

(** A section that lacks its metadata half. *)
Definition urlOnlyHeader : string := "<https://api.example.com/x?page=2>".

(** A Link header with one last relation, to page [n]. *)
Definition lastHeader (n : string) : string :=
  "<https://api.example.com/x?page=" +:+ n +:+ ">; rel=" +:+ JsString.dquote
  +:+ "last" +:+ JsString.dquote.

Definition responseOf (n : string) : Response :=
  {| headers := [("Link", lastHeader n)] |}.

Definition plainResponse : Response :=
  {| headers := [("Accept", "application/vnd.github+json")] |}.

(** Five pages of two items each. *)
Definition fivePages : GetDataFunc Z :=
  fun page _ => Resolved ([page; (10 * page)%Z], responseOf "5").

(** Five pages, the third of which cannot be fetched. *)
Definition thirdPageFails : GetDataFunc Z :=
  fun page _ =>
    if (page =? 3)%Z then Rejected "connection reset"
    else Resolved ([page], responseOf "5").

(** Four pages, the second of which is empty. *)
Definition emptySecondPage : GetDataFunc Z :=
  fun page _ =>
    if (page =? 1)%Z then Resolved ([1%Z; 2%Z], responseOf "4")
    else if (page =? 2)%Z then Resolved ([], responseOf "4")
    else Resolved ([page], responseOf "4").

(** The predicate of a page whose first item is [x]. *)
Definition startsWith (x : Z) (pageOfData : list Z) : bool :=
  match pageOfData with
  | y :: _ => (y =? x)%Z
  | [] => false
  end.

(** The schedule that settles the requests in the order they were made. *)
Definition inOrder : nat -> Schedule := fun _ => [].

(** The predicate that no page satisfies. *)
Definition never (pageOfData : list Z) : bool := false.

(** The Link header of [responseOf "5"], parsed. *)
Definition lastIsFive : ILinkHeader :=
  {| prevPage := 0;
     nextPage := 0;
     totalPages := 5;
     pageData :=
       [{| pageUrl := "<https://api.example.com/x?page=5>";
           metadata := "rel=" +:+ JsString.dquote +:+ "last" +:+ JsString.dquote |}] |}.

(** The predicate of a page of at most one item. *)
Definition atMostOne (pageOfData : list Z) : bool := (length pageOfData <=? 1)%nat.

(** Every character of [s] is a decimal digit. *)
Fixpoint allDigits (s : string) : bool :=
  match s with
  | EmptyString => true
  | String c s' => (JsString.isDigit c && allDigits s')%bool
  end.

Definition startsWithDigit (s : string) : bool :=
  match s with
  | EmptyString => false
  | String c _ => JsString.isDigit c
  end.

(** The metadata of a last relation, and the section half that carries it. *)
Definition relLast : string :=
  "rel=" +:+ JsString.dquote +:+ "last" +:+ JsString.dquote.

Definition lastSuffix : string := "; " +:+ relLast.

(** The start of a URL whose page size comes before its page number. *)
Definition sizeFirstUrl : string :=
  "<https://api.github.com/repos/o/r/milestones?state=all&per_".

(** One page, and no Link header. *)
Definition onePage : GetDataFunc Z :=
  fun page _ => Resolved ([page], plainResponse).

(** Pages whose Link header lacks the metadata half. *)
Definition brokenHeader : GetDataFunc Z :=
  fun page _ => Resolved ([page], {| headers := [("Link", urlOnlyHeader)] |}).

(** ** MilestoneClient.ts: the searches for a milestone *)

Module MilestoneClient.

(** [IMilestoneModel]: the model file is not among the sources; these are the
    two fields that the client reads. *)
Record IMilestoneModel : Type := { title : string; number : Z }.

(** [(m) => m.title.trim() === milestoneName] *)
Definition titled (milestoneName : string) (m : IMilestoneModel) : bool :=
  String.eqb (JsString.trim (title m)) milestoneName.

Section Client.

(** [Guard.isNullOrEmptyOrUndefined(value, funcName, paramName)]: [Guard.ts]
    is not among the sources; it is any action of the engine. *)
Variable Guard_isNullOrEmptyOrUndefined :
  string -> string -> string -> M IMilestoneModel unit.

(** [this.getMilestones(repoName, page, qtyPerPage)] as the page-fetch
    callback of the search: the method fetches over HTTP and decodes JSON;
    here it is any callback that resolves or rejects.  The run in which the
    method itself ends the process, on a status other than OK, is not
    covered. *)
Variable getMilestones : string -> GetDataFunc IMilestoneModel.

Notation "x <- c1 ;; c2" := (bind c1 (fun x => c2))
  (at level 100, c1 at next level, right associativity).

(** The search that both methods run. *)
Definition searchMilestones (repoName milestoneName : string)
  (scheds : nat -> Schedule) : M IMilestoneModel (list IMilestoneModel) :=
  getAllDataUntil
    (fun page qtyPerPage => getMilestones repoName page qtyPerPage)
    1 100
    (fun data => existsb (titled milestoneName) data)
    scheds.

(** [getMilestoneByName(repoName, milestoneName)] *)
Definition getMilestoneByName (repoName milestoneName : string)
  (scheds : nat -> Schedule) : M IMilestoneModel IMilestoneModel :=
  let funcName := "getMilestoneByName" in
  _ <- Guard_isNullOrEmptyOrUndefined repoName funcName "repoName" ;;
  _ <- Guard_isNullOrEmptyOrUndefined milestoneName funcName "milestoneName" ;;
  let milestoneName := JsString.trim milestoneName in
  milestones <- searchMilestones repoName milestoneName scheds ;;
  match List.find (titled milestoneName) milestones with
  | None =>
      let errorMsg := "The milestone '" +:+ milestoneName +:+ "' could not be found." in
      _ <- printAsGitHubError errorMsg ;;
      DenoExit 1
  | Some milestone => ret milestone
  end.

(** [milestoneExists(repoName, milestoneName)] *)
Definition milestoneExists (repoName milestoneName : string)
  (scheds : nat -> Schedule) : M IMilestoneModel bool :=
  _ <- Guard_isNullOrEmptyOrUndefined repoName "milestoneExists" "repoName" ;;
  _ <- Guard_isNullOrEmptyOrUndefined milestoneName "milestoneExists" "milestoneName" ;;
  let milestoneName := JsString.trim milestoneName in
  milestones <- searchMilestones repoName milestoneName scheds ;;
  ret (match List.find (titled milestoneName) milestones with
       | Some _ => true
       | None => false
       end).

End Client.

(** A guard that lets every value pass. *)
Definition noGuard : string -> string -> string -> M IMilestoneModel unit :=
  fun _ _ _ => ret tt.

(** Five pages of milestones, two on each; the third holds v1.2.3. *)
Definition milestonePages : string -> GetDataFunc IMilestoneModel :=
  fun _ page _ =>
    Resolved
      ([{| title := "v1.0.0"; number := page |};
        {| title := (if (page =? 3)%Z then " v1.2.3 " else "v0.9.0");
           number := (page + 100)%Z |}],
       responseOf "5").

End MilestoneClient.

(** ** GitClient.ts: the branches of a repository *)

Module GitClient.

Record GitBranchModel : Type := { id : string; name : string; oid : string }.

(** [RawGitBranchModel], as the mapping of [getBranches] reads it:
    [node.id], [node.name] and [node.target.oid]. *)
Record RawGitBranchModel : Type := {
  node_id : string;
  node_name : string;
  node_target_oid : string
}.

(** [PageInfoModel]; [endCursor] may be missing. *)
Record PageInfoModel : Type := {
  hasNextPage : bool;
  hasPreviousPage : bool;
  endCursor : option string
}.

(** [RawRefsGetBranchModel]: [responseData.data.repository.refs]. *)
Record RawRefsGetBranchModel : Type := {
  nodes : list RawGitBranchModel;
  pageInfo : PageInfoModel
}.

(** [createGetBranchesQuery(repoOwner, repoName, first?, cursor?)]: the query
    builder is not among the sources; a query is the arguments it was built
    from. *)
Inductive Query : Type :=
| createGetBranchesQuery (repoOwner repoName : string)
    (first : option Z) (cursor : option string).

(** The GraphQL endpoint and the console: the answers that the endpoint will
    give, in order, the queries sent so far and the messages printed as
    errors. *)
Record Net : Type := {
  answers : list RawRefsGetBranchModel;
  sent : list Query;
  printed : list string
}.

(** A method of the client: no result when the run asks for more answers
    than the endpoint gives. *)
Definition G (A : Type) : Type := Net -> option (Outcome A * Net).

Definition gret {A : Type} (a : A) : G A := fun net => Some (Return a, net).

Definition gbind {A B : Type} (m : G A) (f : A -> G B) : G B :=
  fun net =>
    match m net with
    | Some (Return a, net') => f a net'
    | Some (Raise e, net') => Some (Raise e, net')
    | Some (Exit c, net') => Some (Exit c, net')
    | None => None
    end.

(** [Utils.printAsGitHubError(message)] *)
Definition gprint (message : string) : G unit :=
  fun net =>
    Some (Return tt,
          {| answers := answers net;
             sent := sent net;
             printed := printed net ++ [message] |}).

(** [Deno.exit(code)] *)
Definition gexit {A : Type} (code : Z) : G A := fun net => Some (Exit code, net).

(** The fields that the constructor sets. *)
Record Client : Type := { repoOwner : string; repoName : string }.

(** The mapping of the raw nodes to branches. *)
Definition toBranch (node : RawGitBranchModel) : GitBranchModel :=
  {| id := node_id node; name := node_name node; oid := node_target_oid node |}.

(** The [for] loop of [getBranches]: the result so far, and whether the
    predicate asked to stop. *)
Fixpoint pushBranches (untilPredicate : option (GitBranchModel -> bool))
  (branches result : list GitBranchModel) : list GitBranchModel * bool :=
  match branches with
  | [] => (result, false)
  | branch :: rest =>
      let stopPulling :=
        match untilPredicate with
        | None => false
        | Some predicate => predicate branch
        end in
      let result := result ++ [branch] in
      if stopPulling then (result, true)
      else pushBranches untilPredicate rest result
  end.

(** The pagination info that [getBranches] starts from. *)
Definition noPageYet : PageInfoModel :=
  {| hasNextPage := true; hasPreviousPage := false; endCursor := None |}.

Section Methods.

Variable this : Client.

(** [Guard.isNullOrEmptyOrUndefined(value, funcName, paramName)]: [Guard.ts]
    is not among the sources; it is any action. *)
Variable Guard_isNullOrEmptyOrUndefined : string -> string -> string -> G unit.

Notation "x <- c1 ;; c2" := (gbind c1 (fun x => c2))
  (at level 100, c1 at next level, right associativity).

(** The [while] loop of [getBranches], by recursion on the answers still to
    come; [executeQuery] sends the query and takes the next answer. *)
Fixpoint whileHasNextPage (untilPredicate : option (GitBranchModel -> bool))
  (pageInfo' : PageInfoModel) (result : list GitBranchModel)
  (toCome : list RawRefsGetBranchModel) (queries : list Query)
  : option (list GitBranchModel * list RawRefsGetBranchModel * list Query) :=
  if hasNextPage pageInfo' then
    let cursor :=
      match endCursor pageInfo' with
      | None => EmptyString
      | Some c => if Utils.isNullOrEmptyOrUndefined c then EmptyString else c
      end in
    let query :=
      if (length result <=? 0)%nat
      then createGetBranchesQuery (repoOwner this) (repoName this) None None
      else createGetBranchesQuery (repoOwner this) (repoName this) (Some 100%Z)
             (Some cursor) in
    match toCome with
    | [] => None
    | responseData :: toCome' =>
        let branches := toBranch <$> nodes responseData in
        match pushBranches untilPredicate branches result with
        | (result', true) => Some (result', toCome', queries ++ [query])
        | (result', false) =>
            whileHasNextPage untilPredicate (pageInfo responseData) result'
              toCome' (queries ++ [query])
        end
    end
  else Some (result, toCome, queries).

(** [getBranches(untilPredicate?)] *)
Definition getBranches (untilPredicate : option (GitBranchModel -> bool))
  : G (list GitBranchModel) :=
  fun net =>
    match whileHasNextPage untilPredicate noPageYet [] (answers net) (sent net) with
    | None => None
    | Some (result, toCome, queries) =>
        Some (Return result,
              {| answers := toCome; sent := queries; printed := printed net |})
    end.

(** [getBranch(name)]; [None] is [undefined], the value of [[][0]]. *)
Definition getBranch (name' : string) : G (option GitBranchModel) :=
  _ <- Guard_isNullOrEmptyOrUndefined name' "getBranch" "name" ;;
  branches <- getBranches (Some (fun branch => String.eqb (name branch) name')) ;;
  _ <- (if (length branches <=? 0)%nat then
          _ <- gprint ("The branch '" +:+ name' +:+ "' does not exist.") ;;
          gexit 1
        else gret tt) ;;
  gret (head (List.filter (fun branch => String.eqb (name branch) name') branches)).

(** [branchExists(name)] *)
Definition branchExists (name' : string) : G bool :=
  _ <- Guard_isNullOrEmptyOrUndefined name' "branchExists" "name" ;;
  branches <- getBranches (Some (fun branch => String.eqb (name branch) name')) ;;
  gret (existsb (fun branch => String.eqb (name branch) name') branches).

End Methods.

(** A list up to and including its first element on which [p] holds; the
    whole list when there is none. *)
Fixpoint upToFirst {A : Type} (p : A -> bool) (l : list A) : list A :=
  match l with
  | [] => []
  | x :: rest => if p x then [x] else x :: upToFirst p rest
  end.

(** The branches of a sequence of answers. *)
Definition branchesOf (pages : list RawRefsGetBranchModel) : list GitBranchModel :=
  pages ≫= (fun responseData => toBranch <$> nodes responseData).

(** The branch is called [name']. *)
Definition named (name' : string) (branch : GitBranchModel) : bool :=
  String.eqb (name branch) name'.

(** The predicate of a call of [getBranches]; none stops at no branch. *)
Definition stopsAt (untilPredicate : option (GitBranchModel -> bool))
  : GitBranchModel -> bool :=
  match untilPredicate with
  | None => fun _ => false
  | Some predicate => predicate
  end.

(** A guard that lets every value pass. *)
Definition noGuard : string -> string -> string -> G unit := fun _ _ _ => gret tt.

Definition velaptor : Client :=
  {| repoOwner := "KinsonDigital"; repoName := "Velaptor" |}.

Definition rawBranch (name' : string) : RawGitBranchModel :=
  {| node_id := "id-" +:+ name'; node_name := name'; node_target_oid := "oid-" +:+ name' |}.

(** An answer with the given branches, and whether more follow. *)
Definition answerOf (names : list string) (more : bool) (cursor : string)
  : RawRefsGetBranchModel :=
  {| nodes := rawBranch <$> names;
     pageInfo := {| hasNextPage := more; hasPreviousPage := false;
                    endCursor := Some cursor |} |}.

(** An endpoint with the given answers to come. *)
Definition endpoint (script : list RawRefsGetBranchModel) : Net :=
  {| answers := script; sent := []; printed := [] |}.

End GitClient.

(** * Properties *)

(** ** Promise.all *)

Section PromiseAll.

Context {A : Type}.

Implicit Types (requests : list (Promise A)) (values : list (option A)).
Implicit Types (pending : list nat) (sched : Schedule).

Lemma elem_of_delete_or (pending : list nat) (k j : nat) :
  j ∈ pending -> j ∈ delete k pending \/ pending !! k = Some j.
Proof.
  intros [i Hi]%list_elem_of_lookup.
  destruct (lt_eq_lt_dec i k) as [[Hlt | ->] | Hgt].
  - left. apply list_elem_of_lookup. exists i.
    by rewrite list_lookup_delete_lt.
  - by right.
  - left. apply list_elem_of_lookup. exists (pred i).
    rewrite list_lookup_delete_ge by lia.
    by replace (S (pred i)) with i by lia.
Qed.

Lemma pick_pending sched pending :
  pending <> [] ->
  exists index k,
    pending !! k = Some index /\ pick sched pending = Some (index, delete k pending).
Proof.
  intros Hne. unfold pick.
  set (k := (hd 0 sched mod length pending)%nat).
  destruct (lookup_lt_is_Some_2 pending k) as [index Hindex].
  { apply Nat.mod_upper_bound. by destruct pending. }
  exists index, k. by rewrite Hindex.
Qed.

(** Every order of completion is the order of some schedule. *)
Lemma every_order_has_schedule (order pending : list nat) :
  Permutation order pending ->
  exists sched, completionOrder (length pending) sched pending = order.
Proof.
  revert pending. induction order as [|x order IH]; intros pending Hperm.
  - apply Permutation_nil in Hperm as ->. by exists [].
  - assert (Hx : x ∈ pending) by (rewrite <- Hperm; apply list_elem_of_here).
    apply list_elem_of_lookup in Hx as [k Hk].
    pose proof (lookup_lt_Some _ _ _ Hk) as Hlt.
    destruct (IH (delete k pending)) as [sched Hsched].
    { apply (Permutation_cons_inv (a := x)).
      by rewrite Hperm, <- delete_Permutation. }
    exists (k :: sched).
    destruct (length pending) as [|n] eqn:Hlen; [lia|].
    cbn [completionOrder]. unfold pick. cbn [hd tl].
    rewrite Hlen, Nat.mod_small by lia. rewrite Hk.
    rewrite length_delete in Hsched by eauto.
    rewrite Hlen in Hsched. cbn in Hsched. rewrite Nat.sub_0_r in Hsched.
    by rewrite Hsched.
Qed.

(** When every request resolves, every schedule fills every slot with the
    value of the request of that index. *)
Lemma settle_resolved (vs : list A) fuel sched pending values :
  length pending = fuel ->
  length values = length vs ->
  (forall j, j ∈ pending -> (j < length vs)%nat) ->
  (forall j, (j < length vs)%nat -> j ∈ pending \/ values !! j = Some (vs !! j)) ->
  settle fuel sched pending (Resolved <$> vs) values = Resolved (Some <$> vs).
Proof.
  revert sched pending values.
  induction fuel as [|fuel IH]; intros sched pending values Hlen Hvals Hbound Hinv.
  - simpl. f_equal. apply list_eq. intros j.
    rewrite list_lookup_fmap.
    destruct (decide (j < length vs)%nat) as [Hj | Hj].
    + destruct (Hinv j Hj) as [Hin | ->].
      * apply length_zero_iff_nil in Hlen. subst. by apply elem_of_nil in Hin.
      * apply lookup_lt_is_Some in Hj as [v ->]. done.
    + rewrite !lookup_ge_None_2 by lia. done.
  - cbn [settle].
    destruct (pick_pending sched pending) as (index & k & Hindex & ->).
    { intros ->. discriminate. }
    assert (Hidx : (index < length vs)%nat).
    { apply Hbound. by eapply list_elem_of_lookup_2. }
    apply lookup_lt_is_Some in Hidx as Hv. destruct Hv as [v Hv].
    rewrite list_lookup_fmap, Hv. cbn [fmap option_fmap option_map].
    apply IH.
    + rewrite length_delete by eauto. lia.
    + by rewrite length_insert.
    + intros j Hj. apply Hbound. by eapply list_elem_of_delete_inv.
    + intros j Hj.
      destruct (decide (j = index)) as [-> | Hne].
      * right. rewrite list_lookup_insert_eq by lia. by rewrite Hv.
      * rewrite list_lookup_insert_ne by done.
        destruct (Hinv j Hj) as [Hin | Hval]; [|by right].
        destruct (elem_of_delete_or pending k j Hin) as [? | Hk]; [by left|].
        congruence.
Qed.

(** A rejected request that is still pending rejects the whole, whatever the
    schedule. *)
Lemma settle_rejected requests i e fuel sched pending values :
  length pending = fuel ->
  requests !! i = Some (Rejected e) ->
  i ∈ pending ->
  (forall j, j ∈ pending -> (j < length requests)%nat) ->
  exists e', settle fuel sched pending requests values = Rejected e'.
Proof.
  intros Hlen Hrej. revert sched pending values Hlen.
  induction fuel as [|fuel IH]; intros sched pending values Hlen Hin Hbound.
  - apply length_zero_iff_nil in Hlen. subst. by apply elem_of_nil in Hin.
  - cbn [settle].
    destruct (pick_pending sched pending) as (index & k & Hindex & ->).
    { intros ->. discriminate. }
    assert (Hidx : (index < length requests)%nat).
    { apply Hbound. by eapply list_elem_of_lookup_2. }
    apply lookup_lt_is_Some in Hidx as [[v | e'] Hr]; rewrite Hr; [|by eexists].
    apply IH.
    + rewrite length_delete by eauto. lia.
    + destruct (elem_of_delete_or pending k i Hin) as [? | Hk]; [done|].
      congruence.
    + intros j Hj. apply Hbound. by eapply list_elem_of_delete_inv.
Qed.

Lemma omap_id_Some (vs : list A) : omap id (Some <$> vs) = vs.
Proof. induction vs as [|v vs IH]; [done | by cbn; f_equal]. Qed.

(** [Promise.all] of resolved promises resolves with the values in the order
    of the requests, whatever the order of completion. *)
Lemma promiseAll_resolved sched (vs : list A) :
  promiseAll sched (Resolved <$> vs) = Resolved vs.
Proof.
  unfold promiseAll. rewrite length_fmap.
  rewrite (settle_resolved vs).
  - by rewrite omap_id_Some.
  - by rewrite length_seq.
  - by rewrite length_replicate.
  - intros j Hj. apply elem_of_seq in Hj. lia.
  - intros j Hj. left. apply elem_of_seq. lia.
Qed.

Lemma promiseAll_one sched (a : A) :
  promiseAll sched [Resolved a] = Resolved [a].
Proof. exact (promiseAll_resolved sched [a]). Qed.

Lemma promiseAll_two sched (a b : A) :
  promiseAll sched [Resolved a; Resolved b] = Resolved [a; b].
Proof. exact (promiseAll_resolved sched [a; b]). Qed.

(** [Promise.all] rejects as soon as one of the requests is rejected. *)
Lemma promiseAll_rejected sched requests i e :
  requests !! i = Some (Rejected e) ->
  exists e', promiseAll sched requests = Rejected e'.
Proof.
  intros Hrej. unfold promiseAll.
  destruct (settle_rejected requests i e (length requests) sched
              (seq 0 (length requests)) (replicate (length requests) None))
    as [e' ->]; [by rewrite length_seq | done | | | by eexists].
  - apply elem_of_seq. apply lookup_lt_Some in Hrej. lia.
  - intros j Hj. apply elem_of_seq in Hj. lia.
Qed.

End PromiseAll.

(** ** The engine: small steps *)

Section EngineFacts.

Context {T : Type}.

Implicit Types (w : World T) (getData : GetDataFunc T).

Lemma logFetches_nil w : logFetches w [] = w.
Proof. destruct w. unfold logFetches. cbn. by rewrite app_nil_r. Qed.

Lemma logFetches_app w l1 l2 :
  logFetches (logFetches w l1) l2 = logFetches w (l1 ++ l2).
Proof. unfold logFetches. cbn. by rewrite app_assoc. Qed.

Lemma callGetData_run getData p q w :
  callGetData getData p q w = (Return (getData p q), logFetches w [(p, q)]).
Proof. done. Qed.

(** The loop that gathers the requests of [getAllData]. *)
Lemma gather_run getData q pages acc w :
  forEach pages
    (fun i dataRequests =>
       bind (callGetData getData i q)
         (fun request => ret (dataRequests ++ [request])))
    acc w
  = (Return (acc ++ requestsOf getData q pages), logFetches w (callsOf q pages)).
Proof.
  revert acc w. induction pages as [|i pages IH]; intros acc w; cbn [forEach].
  - unfold ret. cbn. by rewrite app_nil_r, logFetches_nil.
  - unfold bind at 1. unfold bind at 1. rewrite callGetData_run.
    unfold ret at 1. rewrite IH, logFetches_app.
    by rewrite <- app_assoc.
Qed.

Lemma fold_push_pages (responses : list (list T * Response)) (allData : list T) :
  fold_left (fun allData response => allData ++ fst response) responses allData
  = allData ++ concat (map fst responses).
Proof.
  revert allData. induction responses as [|r rs IH]; intros allData; cbn.
  - by rewrite app_nil_r.
  - by rewrite IH, app_assoc.
Qed.

Lemma paginationCatch_run {A : Type} (e : string) w :
  paginationCatch (A := A) e w = (Exit 1, logError w e).
Proof. done. Qed.

Lemma getAllData_unfold getData page qtyPerPage sched w :
  getAllData getData page qtyPerPage sched w
  = getAllData_cases getData page qtyPerPage sched w.
Proof.
  unfold getAllData, getAllData_cases, tryCatch.
  fold (startPage page).
  set (p := startPage page). set (q := Utils.clamp qtyPerPage 1 100).
  unfold bind at 1. rewrite callGetData_run.
  destruct (getData p q) as [[dataItems response] | e]; cbn [await].
  2: { unfold bind, throw. by rewrite paginationCatch_run. }
  unfold bind at 1, ret at 1. unfold bind at 1.
  destruct (toLinkHeader (inl response)) as [linkHeader | e]; cbn [liftRes].
  2: { unfold throw. by rewrite paginationCatch_run. }
  unfold ret at 1. unfold bind at 1.
  fold (allPagesLeft linkHeader).
  rewrite gather_run. cbn [app]. unfold bind at 1.
  destruct (promiseAll sched _) as [responses | e]; cbn [await].
  2: { unfold throw. by rewrite paginationCatch_run. }
  unfold ret. by rewrite fold_push_pages.
Qed.

Lemma roundRequests_run getData q groupA groupB i w :
  roundRequests getData q groupA groupB i w
  = (Return (requestsOf getData q (roundPages groupA groupB i)),
     logFetches w (callsOf q (roundPages groupA groupB i))).
Proof.
  unfold roundRequests, roundPages.
  destruct (Z.leb_spec (Z.of_nat i) (Z.of_nat (length groupA) - 1));
    destruct (Nat.ltb_spec i (length groupA)); try lia;
    destruct (Z.leb_spec (Z.of_nat i) (Z.of_nat (length groupB) - 1));
    destruct (Nat.ltb_spec i (length groupB)); try lia;
    unfold bind, ret; rewrite ?callGetData_run; cbn [app];
    rewrite ?callGetData_run, ?logFetches_app; cbn [app requestsOf callsOf map];
    by rewrite ?logFetches_nil.
Qed.

Lemma roundCheck_run (until : list T -> bool) results w :
  roundCheck until results w
  = let a := roundItems results 0 in
    let b := roundItems results 1 in
    if pageMatches until a then (Return (Some a), logUntil w [a])
    else if pageMatches until b
         then (Return (Some b), logUntil w (inspected a ++ [b]))
         else (Return None, logUntil w (inspected a ++ inspected b)).
Proof.
  unfold roundCheck, pageMatches, inspected.
  fold (roundItems results 0). fold (roundItems results 1).
  generalize (roundItems results 0) as a, (roundItems results 1) as b.
  intros a b. cbv zeta. unfold bind, ret, callUntil, logUntil.
  destruct w as [fl ul el].
  destruct (0 <? length a)%nat, (until a), (0 <? length b)%nat, (until b);
    cbn; by rewrite <- ?app_assoc, ?app_nil_r.
Qed.

Lemma untilRound_unfold getData q (until : list T -> bool) groupA groupB sched i w :
  untilRound getData q until groupA groupB sched i w
  = let w1 := logFetches w (callsOf q (roundPages groupA groupB i)) in
    match promiseAll sched (requestsOf getData q (roundPages groupA groupB i)) with
    | Rejected e => (Raise e, w1)
    | Resolved results => roundCheck until results w1
    end.
Proof.
  unfold untilRound. unfold bind at 1. rewrite roundRequests_run.
  unfold bind at 1.
  by destruct (promiseAll sched _) as [results | e]; cbn [await].
Qed.

Lemma getAllDataUntil_unfold getData page qtyPerPage until scheds w :
  getAllDataUntil getData page qtyPerPage until scheds w
  = getAllDataUntil_cases getData page qtyPerPage until scheds w.
Proof.
  unfold getAllDataUntil, getAllDataUntil_cases, tryCatch.
  fold (startPage page).
  set (p := startPage page). set (q := Utils.clamp qtyPerPage 1 100).
  unfold bind at 1. rewrite callGetData_run.
  destruct (getData p q) as [[dataItems response] | e]; cbn [await].
  2: { unfold bind, throw. by rewrite paginationCatch_run. }
  unfold bind at 1, ret at 1. unfold bind at 1.
  unfold callUntil at 1. cbn [fetchLog untilLog errorLog logFetches].
  fold (logUntil (logFetches w [(p, q)]) [dataItems]).
  destruct (until dataItems); [done|].
  unfold bind at 1.
  destruct (toLinkHeader (inl response)) as [linkHeader | e]; cbn [liftRes].
  2: { unfold throw. by rewrite paginationCatch_run. }
  unfold ret at 1. fold (untilPagesLeft linkHeader).
  cbv zeta.
  by destruct (untilRounds _ _ _ _ _ _ _ _) as [[items | e | c] w3].
Qed.

End EngineFacts.

(** ** The Link header parser *)

Section ParserFacts.

Import JsString.

(** A URL without a page token gives page number 0. *)
Lemma getPageNumber_no_token (url : string) :
  pageNumRegexFirst (trim url) = None -> getPageNumber url = 0%Z.
Proof. intros H. unfold getPageNumber. by rewrite H. Qed.

Lemma digit_not_equals_sign (c : ascii) :
  isDigit c = true -> Ascii.eqb c "="%char = false.
Proof.
  intros Hc. destruct (Ascii.eqb_spec c "="%char) as [-> | _]; [|done].
  by vm_compute in Hc.
Qed.

Lemma split_takeDigits (s : string) :
  split "="%char (takeDigits s) = [takeDigits s].
Proof.
  induction s as [|c s IH]; [done|]. cbn [takeDigits].
  destruct (isDigit c) eqn:Hc; [|done].
  cbn [split]. by rewrite (digit_not_equals_sign c Hc), IH.
Qed.

Lemma parseInt_takeDigits (s : string) :
  isEmpty (takeDigits s) = false ->
  parseInt (takeDigits s) = Some (digitsValue 0 (takeDigits s)).
Proof.
  destruct s as [|c s]; [done|]. cbn [takeDigits].
  destruct (isDigit c) eqn:Hc; [|done]. intros _.
  unfold parseInt. by rewrite Hc.
Qed.

Lemma pageNumRegexFirst_shape (s m : string) :
  pageNumRegexFirst s = Some m ->
  exists rest, m = "page=" +:+ takeDigits rest /\ isEmpty (takeDigits rest) = false.
Proof.
  induction s as [|c s IH]; cbn [pageNumRegexFirst].
  - by destruct (String.prefix "page=" EmptyString).
  - destruct (String.prefix "page=" (String c s)); [|apply IH].
    destruct (isEmpty (takeDigits (dropChars 5 (String c s)))) eqn:Hd; [apply IH|].
    intros [= <-]. eauto.
Qed.

(** A match of the regular expression always carries a number: the defaults
    of [getPageNumber] for a missing second part and for [NaN] are not
    taken. *)
Lemma getPageNumber_match (url m : string) :
  pageNumRegexFirst (trim url) = Some m ->
  exists digits,
    m = "page=" +:+ digits
    /\ Utils.splitBy m "="%char !! 1%nat = Some digits
    /\ parseInt digits = Some (getPageNumber url).
Proof.
  intros Hm. unfold getPageNumber. rewrite Hm.
  apply pageNumRegexFirst_shape in Hm as (rest & -> & Hd).
  exists (takeDigits rest).
  assert (Hsplit : Utils.splitBy ("page=" +:+ takeDigits rest) "="%char
                   = ["page"; takeDigits rest]).
  { unfold Utils.splitBy.
    change ("page=" +:+ takeDigits rest)
      with (String "p" (String "a" (String "g" (String "e"
              (String "=" (takeDigits rest)))))).
    cbn. by rewrite split_takeDigits. }
  rewrite Hsplit. cbn [lookup list_lookup].
  by rewrite (parseInt_takeDigits rest Hd).
Qed.

(** C9. Parsing the example header gives next page 2, 5 pages in total and
    previous page 0; the empty string and a response without a Link header
    give the null result. *)
Theorem toLinkHeader_example :
  (exists lh,
      toLinkHeader (inr exampleHeader) = Ok (Some lh)
      /\ nextPage lh = 2%Z /\ totalPages lh = 5%Z /\ prevPage lh = 0%Z)
  /\ toLinkHeader (inr EmptyString) = Ok None
  /\ (forall r : Response,
        HeadersOps.has (headers r) "Link" = false ->
        toLinkHeader (inl r) = Ok None).
Proof.
  split; [|split].
  - eexists. split; [vm_compute; reflexivity|]. by vm_compute.
  - reflexivity.
  - intros r Hr. unfold toLinkHeader. by rewrite Hr.
Qed.

Lemma toLinkHeader_example_witness :
  HeadersOps.has (headers plainResponse) "Link" = false
  /\ toLinkHeader (inl plainResponse) = Ok None.
Proof.
  split; [reflexivity|].
  apply (proj2 (proj2 toLinkHeader_example) plainResponse). reflexivity.
Defined.

(** C5. A non-empty header whose section lacks the metadata half makes
    [toLinkHeader] throw the TypeError of [pageInfoSections[1].trim()]. *)
Theorem toLinkHeader_missing_metadata_throws :
  Utils.isNullOrEmptyOrUndefined urlOnlyHeader = false
  /\ toLinkHeader (inr urlOnlyHeader) = Throw typeErrorTrim.
Proof. split; reflexivity. Qed.

End ParserFacts.

(** ** The page groups *)

Section Groups.

Local Open Scope Z_scope.

Lemma ascending_lookup lo hi (k : nat) :
  Z.of_nat k < hi - lo + 1 -> ascending lo hi !! k = Some (lo + Z.of_nat k).
Proof. intros H. by apply lookup_seqZ_lt. Qed.

Lemma descending_lookup lo hi (k : nat) :
  Z.of_nat k < hi - lo + 1 -> descending lo hi !! k = Some (hi - Z.of_nat k).
Proof.
  intros H. unfold descending, ascending.
  rewrite reverse_lookup; rewrite length_seqZ; [|lia].
  rewrite lookup_seqZ_lt by lia. f_equal. lia.
Qed.

Lemma split_pages (m : Z) (front back : list Z) (a b : list Z) :
  Forall (fun i => i <= m) front ->
  Forall (fun i => m < i) back ->
  fold_left
    (fun (halves : list Z * list Z) (i : Z) =>
       if i <=? m
       then (fst halves ++ [i], snd halves)
       else (fst halves, snd halves ++ [i]))
    (front ++ back) (a, b)
  = (a ++ front, b ++ back).
Proof.
  intros Hfront Hback. rewrite fold_left_app.
  assert (Hf : forall a0,
    fold_left
      (fun (halves : list Z * list Z) (i : Z) =>
         if i <=? m
         then (fst halves ++ [i], snd halves)
         else (fst halves, snd halves ++ [i])) front (a0, b) = (a0 ++ front, b)).
  { induction Hfront as [|i front Hi _ IH]; intros a0; cbn.
    - by rewrite app_nil_r.
    - destruct (Z.leb_spec i m); [|lia]. by rewrite IH, <- app_assoc. }
  rewrite Hf. clear Hf. generalize (a ++ front) as a1. revert b.
  induction Hback as [|i back Hi _ IH]; intros b0 a1; cbn.
  - by rewrite app_nil_r.
  - destruct (Z.leb_spec i m); [lia|]. by rewrite IH, <- app_assoc.
Qed.

(** C6. For [N >= 1] the first group is [1 .. floor(N/2)] ascending and the
    second is [floor(N/2)+1 .. N] descending; with page 1 removed, 10 pages
    give [2,3,4,5] and [10,9,8,7,6], and 1 page gives two empty groups. *)
Theorem createAlternatePagesGroups_halves (N : Z) :
  1 <= N ->
  createAlternatePagesGroups N = (ascending 1 (N / 2), descending (N / 2 + 1) N)
  /\ searchGroups 10 = ([2; 3; 4; 5], [10; 9; 8; 7; 6])
  /\ searchGroups 1 = ([], []).
Proof.
  intros HN. split; [|split; reflexivity].
  unfold createAlternatePagesGroups, ascending, descending, ascending.
  assert (Hhalf : 0 <= N / 2 <= N).
  { split; [apply Z.div_pos; lia | apply Z.div_le_upper_bound; lia]. }
  replace (seqZ 1 N) with (seqZ 1 (N / 2) ++ seqZ (1 + N / 2) (N - N / 2)).
  2: { rewrite <- seqZ_app by lia. f_equal. lia. }
  rewrite split_pages.
  - cbn [fst snd app]. do 2 f_equal; f_equal; lia.
  - apply Forall_forall. intros i Hi%elem_of_seqZ. lia.
  - apply Forall_forall. intros i Hi%elem_of_seqZ. lia.
Qed.

Lemma createAlternatePagesGroups_halves_witness :
  createAlternatePagesGroups 10 = (ascending 1 (10 / 2), descending (10 / 2 + 1) 10)
  /\ searchGroups 10 = ([2; 3; 4; 5], [10; 9; 8; 7; 6])
  /\ searchGroups 1 = ([], []).
Proof. apply (createAlternatePagesGroups_halves 10). lia. Defined.

End Groups.

(** ** Fetching every page *)

Section FetchAll.

Context {T : Type}.

Implicit Types (getData : GetDataFunc T) (items : Z -> list T).

Local Open Scope Z_scope.

(** Requests that all resolve, with the items they resolve to. *)
Lemma requests_resolved getData q items (pages : list Z) :
  (forall i, i ∈ pages -> exists response, getData i q = Resolved (items i, response)) ->
  exists responses,
    requestsOf getData q pages = Resolved <$> responses
    /\ map fst responses = map items pages.
Proof.
  induction pages as [|i pages IH]; intros Hall.
  - by exists [].
  - destruct (Hall i) as [response Hi]; [apply elem_of_cons; by left|].
    destruct IH as (responses & Hreq & Hfst).
    { intros j Hj. apply Hall. apply elem_of_cons. by right. }
    exists ((items i, response) :: responses). cbn.
    by rewrite Hi, Hfst, <- Hreq.
Qed.

(** The run of [getAllData] when the seed page and the pages of the sweep
    are all fetched: the seed, then pages [2..N] in ascending order, whatever
    the schedule. *)
Lemma getAllData_sweep getData page qtyPerPage sched items seedItems response lh w :
  let q := Utils.clamp qtyPerPage 1 100 in
  getData (startPage page) q = Resolved (seedItems, response) ->
  toLinkHeader (inl response) = Ok (Some lh) ->
  (forall i, 2 <= i <= totalPages lh ->
             exists r, getData i q = Resolved (items i, r)) ->
  getAllData getData page qtyPerPage sched w
  = (Return (seedItems ++ concat (map items (seqZ 2 (totalPages lh - 1)))),
     logFetches w ((startPage page, q) :: callsOf q (seqZ 2 (totalPages lh - 1)))).
Proof.
  intros q Hseed Hlh Hpages.
  rewrite getAllData_unfold. unfold getAllData_cases. fold q.
  rewrite Hseed, Hlh. cbn [allPagesLeft].
  destruct (requests_resolved getData q items (seqZ 2 (totalPages lh - 1)))
    as (responses & Hreq & Hfst).
  { intros i Hi%elem_of_seqZ. apply Hpages. lia. }
  rewrite Hreq, promiseAll_resolved, Hfst, logFetches_app. done.
Qed.

(** C1. Started at page 1 with [N >= 1] pages reported by the Link header of
    the seed response, [getAllData] returns the items of pages [1..N] in
    ascending page order, each page in its own order, for every order in
    which the parallel requests complete. *)
Theorem getAllData_ascending_pages getData qtyPerPage (N : Z) items response lh :
  let q := Utils.clamp qtyPerPage 1 100 in
  1 <= N ->
  getData 1 q = Resolved (items 1, response) ->
  toLinkHeader (inl response) = Ok (Some lh) ->
  totalPages lh = N ->
  (forall i, 2 <= i <= N -> exists r, getData i q = Resolved (items i, r)) ->
  forall sched : Schedule,
    fst (getAllData getData 1 qtyPerPage sched emptyWorld)
    = Return (concat (map items (ascending 1 N))).
Proof.
  intros q HN Hseed Hlh Htotal Hpages sched. subst N.
  rewrite (getAllData_sweep getData 1 qtyPerPage sched items (items 1) response lh);
    [|done..].
  cbn [fst]. unfold ascending.
  rewrite (seqZ_cons 1) by lia. cbn [map concat].
  replace (Z.succ 1) with 2 by lia.
  by replace (Z.pred (totalPages lh - 1 + 1)) with (totalPages lh - 1) by lia.
Qed.

(** C10. Started at page [p >= 2], [getAllData] seeds with page [p] and still
    sweeps pages [2..N], whatever [p] is, also when [p] lies beyond [N]: the
    result is the items of page [p] followed by those of pages [2..N], and
    the calls are [p], then [2..N].  When [N >= p] the result thus holds the
    items of page [p] twice, and the items of pages [2..p-1] in between. *)
Theorem getAllData_start_page_sweep getData (p : Z) qtyPerPage (N : Z) items response lh :
  let q := Utils.clamp qtyPerPage 1 100 in
  2 <= p ->
  getData p q = Resolved (items p, response) ->
  toLinkHeader (inl response) = Ok (Some lh) ->
  totalPages lh = N ->
  (forall i, 2 <= i <= N -> exists r, getData i q = Resolved (items i, r)) ->
  forall sched : Schedule,
    getAllData getData p qtyPerPage sched emptyWorld
    = (Return (items p ++ concat (map items (ascending 2 N))),
       logFetches emptyWorld ((p, q) :: callsOf q (ascending 2 N)))
    /\ (p <= N ->
        getAllData getData p qtyPerPage sched emptyWorld
        = (Return (items p
                   ++ concat (map items (ascending 2 (p - 1)))
                   ++ items p
                   ++ concat (map items (ascending (p + 1) N))),
           logFetches emptyWorld ((p, q) :: callsOf q (ascending 2 N)))).
Proof.
  intros q Hp Hseed Hlh Htotal Hpages sched. subst N.
  assert (Hstart : startPage p = p).
  { unfold startPage. destruct (Z.ltb_spec p 1); [lia|done]. }
  rewrite (getAllData_sweep getData p qtyPerPage sched items (items p) response lh);
    rewrite ?Hstart; [|done..].
  unfold ascending.
  replace (totalPages lh - 2 + 1) with (totalPages lh - 1) by lia.
  split; [done|]. intros HpN.
  f_equal. f_equal. f_equal.
  replace (totalPages lh - 1) with ((p - 1 - 2 + 1) + (1 + (totalPages lh - (p + 1) + 1)))
    by lia.
  rewrite seqZ_app by lia. rewrite map_app, concat_app. f_equal.
  replace (2 + (p - 1 - 2 + 1)) with p by lia.
  rewrite (seqZ_cons p) by lia. cbn [map concat].
  replace (Z.succ p) with (p + 1) by lia.
  by replace (Z.pred (1 + (totalPages lh - (p + 1) + 1)))
    with (totalPages lh - (p + 1) + 1) by lia.
Qed.

End FetchAll.

Section FetchAllSamples.

Local Open Scope Z_scope.

Lemma getAllData_ascending_pages_witness :
  fst (getAllData fivePages 1 100 [3; 1; 0; 2]%nat emptyWorld)
  = Return (concat (map (fun i => [i; 10 * i]) (ascending 1 5))).
Proof.
  apply (getAllData_ascending_pages fivePages 100 5 (fun i => [i; 10 * i])
           (responseOf "5")
           lastIsFive).
  - lia.
  - reflexivity.
  - vm_compute. reflexivity.
  - reflexivity.
  - intros i _. exists (responseOf "5"). reflexivity.
Defined.

Lemma getAllData_start_page_sweep_witness :
  getAllData fivePages 3 100 [3; 1; 0; 2]%nat emptyWorld
  = (Return ([3; 30] ++ [2; 20] ++ [3; 30] ++ [4; 40; 5; 50]),
     logFetches emptyWorld [(3, 100); (2, 100); (3, 100); (4, 100); (5, 100)])
  /\ getAllData fivePages 7 100 [3; 1; 0; 2]%nat emptyWorld
     = (Return ([7; 70] ++ [2; 20; 3; 30; 4; 40; 5; 50]),
        logFetches emptyWorld [(7, 100); (2, 100); (3, 100); (4, 100); (5, 100)]).
Proof.
  split.
  - apply (getAllData_start_page_sweep fivePages 3 100 5 (fun i => [i; 10 * i])
             (responseOf "5") lastIsFive).
    + lia.
    + reflexivity.
    + vm_compute. reflexivity.
    + reflexivity.
    + intros i _. exists (responseOf "5"). reflexivity.
    + lia.
  - apply (getAllData_start_page_sweep fivePages 7 100 5 (fun i => [i; 10 * i])
             (responseOf "5") lastIsFive).
    + lia.
    + reflexivity.
    + vm_compute. reflexivity.
    + reflexivity.
    + intros i _. exists (responseOf "5"). reflexivity.
Defined.

End FetchAllSamples.

(** ** Searching for a page *)

Section FetchUntil.

Context {T : Type}.

Implicit Types (getData : GetDataFunc T) (until : list T -> bool).
Implicit Types (groupA groupB : list Z) (w : World T).

Local Open Scope Z_scope.

Lemma roundPages_lookup groupA groupB (i : nat) :
  roundPages groupA groupB i
  = option_list (groupA !! i) ++ option_list (groupB !! i).
Proof.
  unfold roundPages. f_equal.
  - destruct (Nat.ltb_spec i (length groupA)) as [Hlt | Hge].
    + apply lookup_lt_is_Some in Hlt as [a Ha].
      by rewrite Ha, (nth_lookup_Some _ _ _ _ Ha).
    + by rewrite lookup_ge_None_2.
  - destruct (Nat.ltb_spec i (length groupB)) as [Hlt | Hge].
    + apply lookup_lt_is_Some in Hlt as [b Hb].
      by rewrite Hb, (nth_lookup_Some _ _ _ _ Hb).
    + by rewrite lookup_ge_None_2.
Qed.

Lemma requests_all_resolved getData q (pages : list Z) :
  (forall i, i ∈ pages -> exists r, getData i q = Resolved r) ->
  exists responses, requestsOf getData q pages = Resolved <$> responses.
Proof.
  induction pages as [|i pages IH]; intros Hall.
  - by exists [].
  - destruct (Hall i) as [r Hi]; [apply elem_of_cons; by left|].
    destruct IH as (responses & Hreq).
    { intros j Hj. apply Hall. apply elem_of_cons. by right. }
    exists (r :: responses). cbn. by rewrite Hi, <- Hreq.
Qed.

(** C7. When the predicate holds on the items of the seed page,
    [getAllDataUntil] calls the callback once and returns those items. *)
Theorem getAllDataUntil_seed_match getData page qtyPerPage until scheds
  (items : list T) (response : Response) :
  let q := Utils.clamp qtyPerPage 1 100 in
  let run := getAllDataUntil getData page qtyPerPage until scheds emptyWorld in
  getData (startPage page) q = Resolved (items, response) ->
  until items = true ->
  fst run = Return items /\ fetchLog (snd run) = [(startPage page, q)].
Proof.
  intros q run Hseed Huntil. unfold run.
  rewrite getAllDataUntil_unfold. unfold getAllDataUntil_cases. fold q.
  by rewrite Hseed, Huntil.
Qed.

(** The items of a slot of a round are those of a page of the round, or
    there are none. *)
Lemma roundItems_fetched getData q (pages : list Z)
  (results : list (list T * Response)) (k : nat) :
  requestsOf getData q pages = Resolved <$> results ->
  roundItems results k = []
  \/ exists p r, p ∈ pages /\ getData p q = Resolved (roundItems results k, r).
Proof.
  intros Heq. unfold roundItems.
  destruct (results !! k) as [[items r]|] eqn:Hr; [|by left]. right.
  apply (f_equal (fun l => l !! k)) in Heq.
  unfold requestsOf in Heq. rewrite !list_lookup_fmap, Hr in Heq.
  destruct (pages !! k) as [p|] eqn:Hp; cbn in Heq; [|done].
  exists p, r. split; [by eapply list_elem_of_lookup_2 | cbn [fst]; congruence].
Qed.

(** Rounds in which the predicate holds on no page: every page of every
    round is fetched once, and the search ends empty-handed, whatever the
    predicate says of the empty sequence. *)
Lemma untilRounds_no_match getData q until groupA groupB scheds (rounds : list nat) w :
  (forall i p, i ∈ rounds -> p ∈ roundPages groupA groupB i ->
               exists r, getData p q = Resolved r) ->
  (forall i p items r, i ∈ rounds -> p ∈ roundPages groupA groupB i ->
                       getData p q = Resolved (items, r) -> until items = false) ->
  exists w',
    untilRounds getData q until groupA groupB scheds rounds w = (Return [], w')
    /\ fetchLog w'
       = fetchLog w ++ callsOf q (rounds ≫= roundPages groupA groupB).
Proof.
  revert w.
  induction rounds as [|i rounds IH]; intros w Hpages Hfalse.
  - exists w. split; [done|]. cbn. by rewrite app_nil_r.
  - cbn [untilRounds]. unfold bind at 1. rewrite untilRound_unfold. cbv zeta.
    destruct (requests_all_resolved getData q (roundPages groupA groupB i))
      as (responses & Hreq).
    { intros p Hp. apply (Hpages i p); [apply elem_of_cons; by left | done]. }
    assert (Hslot : forall k, pageMatches until (roundItems responses k) = false).
    { intros k. unfold pageMatches.
      destruct (roundItems_fetched getData q _ responses k Hreq)
        as [-> | (p & r & Hp & Hg)]; [done|].
      rewrite (Hfalse i p _ r); [apply andb_false_r | apply list_elem_of_here | done..]. }
    rewrite Hreq, promiseAll_resolved, roundCheck_run. cbv zeta.
    rewrite !Hslot.
    destruct (IH (logUntil
                    (logFetches w (callsOf q (roundPages groupA groupB i)))
                    (inspected (roundItems responses 0)
                     ++ inspected (roundItems responses 1))))
      as (w' & Hrun & Hlog).
    { intros j p Hj. apply Hpages. apply elem_of_cons. by right. }
    { intros j p items r Hj. apply Hfalse. apply elem_of_cons. by right. }
    exists w'. split; [exact Hrun|]. rewrite Hlog.
    unfold logUntil, logFetches, callsOf. cbn [fetchLog].
    rewrite bind_cons, fmap_app. by rewrite app_assoc.
Qed.

(** C3. Five pages and a predicate that holds on none of them, whatever it
    says of the empty sequence: [getAllDataUntil] goes through its three
    rounds and returns the empty sequence; the callback is called once for
    the seed and once for each page of the two groups, five times in all. *)
Theorem getAllDataUntil_five_pages_no_match getData page qtyPerPage until scheds
  (seedItems : list T) response lh :
  let q := Utils.clamp qtyPerPage 1 100 in
  let run := getAllDataUntil getData page qtyPerPage until scheds emptyWorld in
  getData (startPage page) q = Resolved (seedItems, response) ->
  toLinkHeader (inl response) = Ok (Some lh) ->
  totalPages lh = 5 ->
  (forall i, 2 <= i <= 5 -> exists r, getData i q = Resolved r) ->
  until seedItems = false ->
  (forall i items r, 2 <= i <= 5 -> getData i q = Resolved (items, r) ->
                     until items = false) ->
  fst run = Return []
  /\ maxLen (searchGroups 5) = 3%nat
  /\ fetchLog (snd run) = (startPage page, q) :: callsOf q [2; 5; 4; 3]
  /\ length (fetchLog (snd run))
     = (1 + (length (fst (searchGroups 5)) + length (snd (searchGroups 5))))%nat.
Proof.
  intros q run Hseed Hlh Htotal Hpages Hfalse1 Hfalse. unfold run.
  rewrite getAllDataUntil_unfold. unfold getAllDataUntil_cases. fold q.
  rewrite Hseed, Hfalse1, Hlh. cbn [untilPagesLeft]. rewrite Htotal.
  change (searchGroups 5) with ([2], [5; 4; 3]). cbn [fst snd].
  change (maxLen ([2], [5; 4; 3])) with 3%nat.
  assert (Hrange : forall (i : nat) p,
             i ∈ seq 0 3 -> p ∈ roundPages [2] [5; 4; 3] i -> 2 <= p <= 5).
  { intros i p Hi Hp.
    apply elem_of_seq in Hi.
    assert (Hcases : (i = 0 \/ i = 1 \/ i = 2)%nat) by lia.
    destruct Hcases as [-> | [-> | ->]]; cbn in Hp;
      repeat (apply elem_of_cons in Hp as [-> | Hp]; [lia|]);
      by apply elem_of_nil in Hp. }
  destruct (untilRounds_no_match getData q until [2] [5; 4; 3] scheds (seq 0 3)
              (logUntil (logFetches emptyWorld [(startPage page, q)]) [seedItems]))
    as (w' & -> & Hlog).
  { intros i p Hi Hp. apply Hpages. by eapply Hrange. }
  { intros i p items r Hi Hp. apply Hfalse. by eapply Hrange. }
  cbn [fst snd]. rewrite Hlog. done.
Qed.

(** In round [i], a non-empty page of group A that satisfies the predicate
    is returned at once, and the predicate is not applied to the page of
    group B. *)
Lemma untilRounds_groupA_first getData q until groupA groupB scheds
  (i : nat) (rest : list nat) w (itemsA : list T) :
  pageAt getData q groupA i itemsA ->
  (groupB !! i = None \/ exists itemsB, pageAt getData q groupB i itemsB) ->
  itemsA <> [] ->
  until itemsA = true ->
  untilRounds getData q until groupA groupB scheds (i :: rest) w
  = (Return itemsA,
     logUntil (logFetches w (callsOf q (roundPages groupA groupB i))) [itemsA]).
Proof.
  intros (pa & ra & HA & HgA) HB Hne Huntil.
  cbn [untilRounds]. unfold bind at 1.
  rewrite untilRound_unfold, roundPages_lookup, HA. cbv zeta.
  assert (Hmatch : pageMatches until itemsA = true).
  { unfold pageMatches. rewrite Huntil. by destruct itemsA. }
  destruct HB as [HB | (itemsB & pb & rb & HB & HgB)]; rewrite HB.
  - change (option_list (Some pa) ++ option_list None) with [pa].
    change (requestsOf getData q [pa]) with [getData pa q]. rewrite HgA.
    rewrite promiseAll_one, roundCheck_run.
    cbv zeta. change (roundItems [(itemsA, ra)] 0) with itemsA.
    by rewrite Hmatch.
  - change (option_list (Some pa) ++ option_list (Some pb)) with [pa; pb].
    change (requestsOf getData q [pa; pb]) with [getData pa q; getData pb q].
    rewrite HgA, HgB.
    rewrite promiseAll_two, roundCheck_run.
    cbv zeta. change (roundItems [(itemsA, ra); (itemsB, rb)] 0) with itemsA.
    by rewrite Hmatch.
Qed.

(** In round [i], when group A has no page left or its page does not match,
    a non-empty page of group B that satisfies the predicate is returned. *)
Lemma untilRounds_groupB_second getData q until groupA groupB scheds
  (i : nat) (rest : list nat) w (itemsB : list T) :
  pageAt getData q groupB i itemsB ->
  (groupA !! i = None
   \/ exists itemsA, pageAt getData q groupA i itemsA
                     /\ pageMatches until itemsA = false) ->
  itemsB <> [] ->
  until itemsB = true ->
  fst (untilRounds getData q until groupA groupB scheds (i :: rest) w)
  = Return itemsB.
Proof.
  intros (pb & rb & HB & HgB) HA Hne Huntil.
  cbn [untilRounds]. unfold bind at 1.
  rewrite untilRound_unfold, roundPages_lookup, HB. cbv zeta.
  assert (Hmatch : pageMatches until itemsB = true).
  { unfold pageMatches. rewrite Huntil. by destruct itemsB. }
  destruct HA as [HA | (itemsA & (pa & ra & HA & HgA) & HnoA)]; rewrite HA.
  - change (option_list None ++ option_list (Some pb)) with [pb].
    change (requestsOf getData q [pb]) with [getData pb q]. rewrite HgB.
    rewrite promiseAll_one, roundCheck_run.
    cbv zeta. change (roundItems [(itemsB, rb)] 0) with itemsB.
    by rewrite Hmatch.
  - change (option_list (Some pa) ++ option_list (Some pb)) with [pa; pb].
    change (requestsOf getData q [pa; pb]) with [getData pa q; getData pb q].
    rewrite HgA, HgB.
    rewrite promiseAll_two, roundCheck_run.
    cbv zeta. change (roundItems [(itemsA, ra); (itemsB, rb)] 0) with itemsA.
    change (roundItems [(itemsA, ra); (itemsB, rb)] 1) with itemsB.
    by rewrite HnoA, Hmatch.
Qed.

(** One round whose requests resolve: the first of the two results that is
    not empty and satisfies the predicate is returned, the predicate is
    applied to the results that are not empty and to no other, and without
    a match the search goes on. *)
Lemma untilRounds_round getData q until groupA groupB scheds
  (i : nat) (rest : list nat) w (results : list (list T * Response)) :
  requestsOf getData q (roundPages groupA groupB i) = Resolved <$> results ->
  untilRounds getData q until groupA groupB scheds (i :: rest) w
  = let a := roundItems results 0 in
    let b := roundItems results 1 in
    let w1 := logFetches w (callsOf q (roundPages groupA groupB i)) in
    if pageMatches until a then (Return a, logUntil w1 [a])
    else if pageMatches until b
         then (Return b, logUntil w1 (inspected a ++ [b]))
         else untilRounds getData q until groupA groupB scheds rest
                (logUntil w1 (inspected a ++ inspected b)).
Proof.
  intros Hreq. cbn [untilRounds]. unfold bind at 1.
  rewrite untilRound_unfold. cbv zeta.
  rewrite Hreq, promiseAll_resolved, roundCheck_run. cbv zeta.
  destruct (pageMatches until (roundItems results 0)); [done|].
  by destruct (pageMatches until (roundItems results 1)).
Qed.

(** A round in which both groups have a page, both fetched. *)
Lemma untilRounds_both getData q until groupA groupB scheds
  (i : nat) (rest : list nat) w (itemsA itemsB : list T) :
  pageAt getData q groupA i itemsA ->
  pageAt getData q groupB i itemsB ->
  untilRounds getData q until groupA groupB scheds (i :: rest) w
  = let w1 := logFetches w (callsOf q (roundPages groupA groupB i)) in
    if pageMatches until itemsA then (Return itemsA, logUntil w1 [itemsA])
    else if pageMatches until itemsB
         then (Return itemsB, logUntil w1 (inspected itemsA ++ [itemsB]))
         else untilRounds getData q until groupA groupB scheds rest
                (logUntil w1 (inspected itemsA ++ inspected itemsB)).
Proof.
  intros (pa & ra & HA & HgA) (pb & rb & HB & HgB).
  rewrite (untilRounds_round getData q until groupA groupB scheds i rest w
             [(itemsA, ra); (itemsB, rb)]); [done|].
  rewrite roundPages_lookup, HA, HB. cbn. by rewrite HgA, HgB.
Qed.

(** C2 (as the code has it). In every round [i] of [getAllDataUntil], if the
    page fetched for [groupA[i]] is not empty and satisfies the predicate,
    its items are returned at once and the predicate is not applied to the
    page of [groupB[i]]; otherwise, if the page fetched for [groupB[i]] is
    not empty and satisfies the predicate, its items are returned.  An
    empty page is never a match and the predicate is not applied to it:
    an empty page of group A is passed over for the page of group B, and
    after an empty page of group B the search goes on with the next round;
    the pages handed to the predicate are the non-empty ones, as the last
    part states for every round whose requests resolve. *)
Theorem untilRounds_group_priority getData q until groupA groupB scheds
  (i : nat) (rest : list nat) w :
  let w1 := logFetches w (callsOf q (roundPages groupA groupB i)) in
  (forall itemsA : list T,
      pageAt getData q groupA i itemsA ->
      (groupB !! i = None \/ exists itemsB, pageAt getData q groupB i itemsB) ->
      itemsA <> [] ->
      until itemsA = true ->
      untilRounds getData q until groupA groupB scheds (i :: rest) w
      = (Return itemsA,
         logUntil (logFetches w (callsOf q (roundPages groupA groupB i)))
           [itemsA]))
  /\ (forall itemsB : list T,
        pageAt getData q groupB i itemsB ->
        (groupA !! i = None
         \/ exists itemsA, pageAt getData q groupA i itemsA
                           /\ pageMatches until itemsA = false) ->
        itemsB <> [] ->
        until itemsB = true ->
        fst (untilRounds getData q until groupA groupB scheds (i :: rest) w)
        = Return itemsB)
  /\ (forall itemsB : list T,
        pageAt getData q groupA i [] ->
        pageAt getData q groupB i itemsB ->
        itemsB <> [] ->
        until itemsB = true ->
        untilRounds getData q until groupA groupB scheds (i :: rest) w
        = (Return itemsB, logUntil w1 [itemsB]))
  /\ (forall itemsA itemsB : list T,
        pageAt getData q groupA i itemsA ->
        pageAt getData q groupB i itemsB ->
        itemsA <> [] ->
        until itemsA = false ->
        itemsB <> [] ->
        until itemsB = true ->
        untilRounds getData q until groupA groupB scheds (i :: rest) w
        = (Return itemsB, logUntil w1 [itemsA; itemsB]))
  /\ (forall itemsA : list T,
        pageAt getData q groupA i itemsA ->
        pageAt getData q groupB i [] ->
        itemsA = [] \/ until itemsA = false ->
        untilRounds getData q until groupA groupB scheds (i :: rest) w
        = untilRounds getData q until groupA groupB scheds rest
            (logUntil w1 (match itemsA with [] => [] | _ :: _ => [itemsA] end)))
  /\ (forall results : list (list T * Response),
        requestsOf getData q (roundPages groupA groupB i) = Resolved <$> results ->
        untilRounds getData q until groupA groupB scheds (i :: rest) w
        = let a := roundItems results 0 in
          let b := roundItems results 1 in
          if pageMatches until a then (Return a, logUntil w1 [a])
          else if pageMatches until b
               then (Return b, logUntil w1 (inspected a ++ [b]))
               else untilRounds getData q until groupA groupB scheds rest
                      (logUntil w1 (inspected a ++ inspected b))).
Proof.
  intros w1. split; [|split; [|split; [|split; [|split]]]].
  - intros itemsA. apply untilRounds_groupA_first.
  - intros itemsB. apply untilRounds_groupB_second.
  - intros itemsB HA HB Hne Hu.
    rewrite (untilRounds_both getData q until groupA groupB scheds i rest w
               [] itemsB HA HB). cbv zeta.
    unfold pageMatches, inspected. rewrite Hu. cbn [length Nat.ltb Nat.leb andb app].
    by destruct itemsB.
  - intros itemsA itemsB HA HB HneA HuA HneB HuB.
    rewrite (untilRounds_both getData q until groupA groupB scheds i rest w
               itemsA itemsB HA HB). cbv zeta.
    unfold pageMatches, inspected. rewrite HuA, HuB.
    by destruct itemsA, itemsB.
  - intros itemsA HA HB Hno.
    rewrite (untilRounds_both getData q until groupA groupB scheds i rest w
               itemsA [] HA HB). cbv zeta.
    unfold pageMatches, inspected. cbn [length Nat.ltb Nat.leb andb app].
    destruct Hno as [-> | Hu]; [by cbn|].
    rewrite Hu. destruct itemsA; cbn; by rewrite ?app_nil_r.
  - intros results. apply untilRounds_round.
Qed.

End FetchUntil.

(** ** Failures and coercions *)

Section Failures.

Context {T : Type}.

Implicit Types (getData : GetDataFunc T) (until : list T -> bool).
Implicit Types (w : World T).

Local Open Scope Z_scope.

Lemma callsOf_size q (pages : list Z) : Forall (fun c => snd c = q) (callsOf q pages).
Proof. unfold callsOf. apply Forall_fmap. by apply Forall_forall. Qed.

(** A failed call among the requests of one [Promise.all] rejects it. *)
Lemma promiseAll_failed_call getData q (pages : list Z) sched :
  Exists (failedCall getData) (callsOf q pages) ->
  exists e, promiseAll sched (requestsOf getData q pages) = Rejected e.
Proof.
  intros (c & Hc & e & He)%Exists_exists.
  apply list_elem_of_fmap in Hc as (i & -> & Hi).
  apply list_elem_of_lookup in Hi as [k Hk].
  apply (promiseAll_rejected sched _ k e).
  cbn [fst snd] in He.
  unfold requestsOf. rewrite list_lookup_fmap, Hk. cbn. by rewrite He.
Qed.

Lemma getAllData_failure getData page qtyPerPage sched :
  Exists (failedCall getData)
    (fetchLog (snd (getAllData getData page qtyPerPage sched emptyWorld))) ->
  fst (getAllData getData page qtyPerPage sched emptyWorld) = Exit 1.
Proof.
  rewrite getAllData_unfold. unfold getAllData_cases.
  set (p := startPage page). set (q := Utils.clamp qtyPerPage 1 100).
  destruct (getData p q) as [[dataItems response] | e] eqn:Hseed; [|done].
  destruct (toLinkHeader (inl response)) as [linkHeader | e]; [|done].
  destruct (promiseAll sched _) as [responses | e] eqn:Hall; [|done].
  cbn [fst snd logFetches fetchLog emptyWorld app].
  intros [Hfail | Hfail]%Exists_cons.
  - destruct Hfail as [e He]. cbn [fst snd] in He. congruence.
  - apply (promiseAll_failed_call getData q _ sched) in Hfail as [e He]. congruence.
Qed.

(** The rounds of the search: every call asks for [q] items, and a failed
    call makes the rounds throw. *)
Lemma untilRounds_failure getData q until groupA groupB scheds (rounds : list nat) w :
  exists l,
    fetchLog (snd (untilRounds getData q until groupA groupB scheds rounds w))
    = fetchLog w ++ l
    /\ Forall (fun c => snd c = q) l
    /\ (Exists (failedCall getData) l ->
        exists e,
          fst (untilRounds getData q until groupA groupB scheds rounds w) = Raise e).
Proof.
  revert w. induction rounds as [|i rounds IH]; intros w.
  - exists []. cbn. rewrite app_nil_r. split; [done|]. split; [done|].
    by intros ?%Exists_nil.
  - cbn [untilRounds]. unfold bind. rewrite untilRound_unfold. cbv zeta.
    set (calls := callsOf q (roundPages groupA groupB i)).
    destruct (promiseAll (scheds i) _) as [results | e] eqn:Hall.
    + assert (Hok : ~ Exists (failedCall getData) calls).
      { intros [e He]%(promiseAll_failed_call getData q _ (scheds i)). congruence. }
      rewrite roundCheck_run. cbv zeta.
      destruct (pageMatches until (roundItems results 0));
        [|destruct (pageMatches until (roundItems results 1))].
      * exists calls. cbn. split; [done|]. split; [apply callsOf_size|done].
      * exists calls. cbn. split; [done|]. split; [apply callsOf_size|done].
      * destruct (IH (logUntil (logFetches w calls)
                        (inspected (roundItems results 0)
                         ++ inspected (roundItems results 1))))
          as (l & Hlog & Hq & Hfail).
        exists (calls ++ l). rewrite Hlog. cbn [logUntil logFetches fetchLog].
        split; [by rewrite app_assoc|].
        split; [apply Forall_app; split; [apply callsOf_size | done]|].
        intros [? | ?]%Exists_app; [done | by apply Hfail].
    + exists calls. cbn. split; [done|]. split; [apply callsOf_size|by eexists].
Qed.

Lemma getAllDataUntil_failure getData page qtyPerPage until scheds :
  Exists (failedCall getData)
    (fetchLog (snd (getAllDataUntil getData page qtyPerPage until scheds emptyWorld))) ->
  fst (getAllDataUntil getData page qtyPerPage until scheds emptyWorld) = Exit 1.
Proof.
  rewrite getAllDataUntil_unfold. unfold getAllDataUntil_cases.
  set (p := startPage page). set (q := Utils.clamp qtyPerPage 1 100).
  destruct (getData p q) as [[dataItems response] | e] eqn:Hseed; [|done].
  assert (Hp : ~ failedCall getData (p, q)).
  { intros [e He]. cbn [fst snd] in He. congruence. }
  destruct (until dataItems).
  { cbn. by intros [? | ?%Exists_nil]%Exists_cons. }
  destruct (toLinkHeader (inl response)) as [linkHeader | e]; [|done].
  set (groups := searchGroups (untilPagesLeft linkHeader)).
  set (w2 := logUntil (logFetches emptyWorld [(p, q)]) [dataItems]).
  destruct (untilRounds_failure getData q until (fst groups) (snd groups) scheds
              (seq 0 (maxLen groups)) w2) as (l & Hlog & _ & Hfail).
  destruct (untilRounds _ _ _ _ _ _ _ _) as [[items | e | c] w3];
    cbn [fst snd logError fetchLog] in *; [|done|];
    rewrite Hlog; cbn; intros [? | Hl]%Exists_cons; try done;
    by destruct (Hfail Hl).
Qed.

(** C4. In [getAllData] and in [getAllDataUntil], when the seed fetch or any
    later fetch fails, the operation ends with the terminal error
    ([Deno.exit(1)]) and returns no sequence, partial or not. *)
Theorem fetch_failure_is_terminal getData page qtyPerPage until sched scheds :
  (Exists (failedCall getData)
     (fetchLog (snd (getAllData getData page qtyPerPage sched emptyWorld))) ->
   fst (getAllData getData page qtyPerPage sched emptyWorld) = Exit 1)
  /\ (Exists (failedCall getData)
        (fetchLog
           (snd (getAllDataUntil getData page qtyPerPage until scheds emptyWorld))) ->
      fst (getAllDataUntil getData page qtyPerPage until scheds emptyWorld) = Exit 1).
Proof.
  split; [apply getAllData_failure | apply getAllDataUntil_failure].
Qed.

End Failures.

Section Coercions.

Context {T : Type}.

Implicit Types (getData : GetDataFunc T) (until : list T -> bool).

Local Open Scope Z_scope.

Lemma startPage_idem page : startPage (startPage page) = startPage page.
Proof.
  unfold startPage. destruct (Z.ltb_spec page 1); [done|].
  destruct (Z.ltb_spec page 1); [lia | done].
Qed.

Lemma clamp_idem num : Utils.clamp (Utils.clamp num 1 100) 1 100 = Utils.clamp num 1 100.
Proof.
  unfold Utils.clamp.
  destruct (Z.ltb_spec num 1); [done|].
  destruct (Z.ltb_spec 100 num); [done|].
  destruct (Z.ltb_spec num 1); [lia|].
  destruct (Z.ltb_spec 100 num); [lia | done].
Qed.

Lemma getAllData_fetchesWith getData page qtyPerPage sched :
  fetchesWith (startPage page) (Utils.clamp qtyPerPage 1 100)
    (fetchLog (snd (getAllData getData page qtyPerPage sched emptyWorld))).
Proof.
  rewrite getAllData_unfold. unfold getAllData_cases, fetchesWith.
  set (p := startPage page). set (q := Utils.clamp qtyPerPage 1 100).
  destruct (getData p q) as [[dataItems response] | e]; [|by exists []].
  destruct (toLinkHeader (inl response)) as [linkHeader | e]; [|by exists []].
  destruct (promiseAll sched _) as [responses | e];
    eexists; (split; [reflexivity | apply callsOf_size]).
Qed.

Lemma getAllDataUntil_fetchesWith getData page qtyPerPage until scheds :
  fetchesWith (startPage page) (Utils.clamp qtyPerPage 1 100)
    (fetchLog (snd (getAllDataUntil getData page qtyPerPage until scheds emptyWorld))).
Proof.
  rewrite getAllDataUntil_unfold. unfold getAllDataUntil_cases, fetchesWith.
  set (p := startPage page). set (q := Utils.clamp qtyPerPage 1 100).
  destruct (getData p q) as [[dataItems response] | e]; [|by exists []].
  destruct (until dataItems); [by exists []|].
  destruct (toLinkHeader (inl response)) as [linkHeader | e]; [|by exists []].
  set (groups := searchGroups (untilPagesLeft linkHeader)).
  set (w2 := logUntil (logFetches emptyWorld [(p, q)]) [dataItems]).
  destruct (untilRounds_failure getData q until (fst groups) (snd groups) scheds
              (seq 0 (maxLen groups)) w2) as (l & Hlog & Hq & _).
  exists l. split; [|done].
  by destruct (untilRounds _ _ _ _ _ _ _ _) as [[items | e | c] w3];
    cbn [fst snd logError fetchLog] in *.
Qed.

Lemma getAllFilteredData_log getData page qtyPerPage (filter : list T -> list T) sched :
  fetchLog (snd (getAllFilteredData getData page qtyPerPage filter sched emptyWorld))
  = fetchLog (snd (getAllData getData (startPage page)
                     (Utils.clamp qtyPerPage 1 100) sched emptyWorld)).
Proof.
  unfold getAllFilteredData, tryCatch, bind. fold (startPage page).
  by destruct (getAllData _ _ _ _ _) as [[allData | e | c] w'].
Qed.

(** The first call of each of the three operations is for the coerced page,
    and every call of theirs carries the clamped size. *)
Lemma operations_fetchesWith getData (filter : list T -> list T) until
  sched scheds (page qtyPerPage : Z) :
  let p := startPage page in
  let q := Utils.clamp qtyPerPage 1 100 in
  fetchesWith p q
    (fetchLog (snd (getAllData getData page qtyPerPage sched emptyWorld)))
  /\ fetchesWith p q
       (fetchLog
          (snd (getAllDataUntil getData page qtyPerPage until scheds emptyWorld)))
  /\ fetchesWith p q
       (fetchLog
          (snd (getAllFilteredData getData page qtyPerPage filter sched emptyWorld))).
Proof.
  intros p q. split; [|split].
  - apply getAllData_fetchesWith.
  - apply getAllDataUntil_fetchesWith.
  - rewrite getAllFilteredData_log. unfold p, q.
    rewrite <- (startPage_idem page) at 1.
    rewrite <- (clamp_idem qtyPerPage) at 1.
    apply getAllData_fetchesWith.
Qed.

(** C8. In [getAllData], [getAllDataUntil] and [getAllFilteredData], page
    sizes 0, -5 and 500 become 1, 1 and 100, whatever the page, and pages 0
    and -3 become 1, whatever the page size, before the callback is called:
    the first call is for the coerced page and every call carries the
    clamped size. *)
Theorem coerced_before_any_fetch getData (filter : list T -> list T) until
  sched scheds :
  (forall page qtyPerPage q' : Z,
      (qtyPerPage = 0 /\ q' = 1) \/ (qtyPerPage = -5 /\ q' = 1)
      \/ (qtyPerPage = 500 /\ q' = 100) ->
      Utils.clamp qtyPerPage 1 100 = q'
      /\ fetchesWith (startPage page) q'
           (fetchLog (snd (getAllData getData page qtyPerPage sched emptyWorld)))
      /\ fetchesWith (startPage page) q'
           (fetchLog
              (snd (getAllDataUntil getData page qtyPerPage until scheds emptyWorld)))
      /\ fetchesWith (startPage page) q'
           (fetchLog
              (snd (getAllFilteredData getData page qtyPerPage filter sched
                      emptyWorld))))
  /\ (forall page qtyPerPage : Z,
        page = 0 \/ page = -3 ->
        startPage page = 1
        /\ fetchesWith 1 (Utils.clamp qtyPerPage 1 100)
             (fetchLog (snd (getAllData getData page qtyPerPage sched emptyWorld)))
        /\ fetchesWith 1 (Utils.clamp qtyPerPage 1 100)
             (fetchLog
                (snd (getAllDataUntil getData page qtyPerPage until scheds
                        emptyWorld)))
        /\ fetchesWith 1 (Utils.clamp qtyPerPage 1 100)
             (fetchLog
                (snd (getAllFilteredData getData page qtyPerPage filter sched
                        emptyWorld)))).
Proof.
  split.
  - intros page qtyPerPage q' Hqty.
    assert (Hq : Utils.clamp qtyPerPage 1 100 = q')
      by (by destruct Hqty as [[-> ->] | [[-> ->] | [-> ->]]]).
    split; [done|]. rewrite <- Hq. apply operations_fetchesWith.
  - intros page qtyPerPage Hpage.
    assert (Hp : startPage page = 1) by (by destruct Hpage as [-> | ->]).
    split; [done|].
    pose proof (operations_fetchesWith getData filter until sched scheds page
                  qtyPerPage) as Hall.
    cbv zeta in Hall. by rewrite Hp in Hall.
Qed.

End Coercions.

(** ** The properties on sample runs *)

Section Samples.

Local Open Scope Z_scope.

Lemma getAllDataUntil_seed_match_witness :
  fst (getAllDataUntil fivePages 1 100 (startsWith 1) inOrder emptyWorld)
  = Return [1; 10]
  /\ fetchLog (snd (getAllDataUntil fivePages 1 100 (startsWith 1) inOrder emptyWorld))
     = [(1, 100)].
Proof.
  apply (getAllDataUntil_seed_match fivePages 1 100 (startsWith 1) inOrder
           [1; 10] (responseOf "5")); reflexivity.
Defined.

Lemma getAllDataUntil_five_pages_no_match_witness :
  atMostOne [] = true
  /\ fst (getAllDataUntil fivePages 1 100 atMostOne inOrder emptyWorld) = Return []
  /\ maxLen (searchGroups 5) = 3%nat
  /\ fetchLog (snd (getAllDataUntil fivePages 1 100 atMostOne inOrder emptyWorld))
     = (1, 100) :: callsOf 100 [2; 5; 4; 3]
  /\ length (fetchLog (snd (getAllDataUntil fivePages 1 100 atMostOne inOrder
                              emptyWorld)))
     = (1 + (length (fst (searchGroups 5)) + length (snd (searchGroups 5))))%nat.
Proof.
  split; [reflexivity|].
  apply (getAllDataUntil_five_pages_no_match fivePages 1 100 atMostOne inOrder
           [1; 10] (responseOf "5") lastIsFive).
  - reflexivity.
  - vm_compute. reflexivity.
  - reflexivity.
  - intros i _. eexists. reflexivity.
  - reflexivity.
  - intros i items r _ Hg. unfold fivePages in Hg. by injection Hg as <- _.
Defined.

(** C3, as stated, fails on five pages: the callback is called five times,
    not once plus twice the three rounds. *)
Lemma five_pages_fetch_count :
  fst (getAllDataUntil fivePages 1 100 never inOrder emptyWorld) = Return []
  /\ length (fetchLog (snd (getAllDataUntil fivePages 1 100 never inOrder emptyWorld)))
     = 5%nat
  /\ length (fetchLog (snd (getAllDataUntil fivePages 1 100 never inOrder emptyWorld)))
     <> (1 + 2 * maxLen (searchGroups 5))%nat.
Proof. split; [|split]; by vm_compute. Qed.

Lemma untilRounds_group_priority_witness :
  untilRounds fivePages 100 (startsWith 2) [2] [5; 4; 3] inOrder [0; 1; 2]%nat
    emptyWorld
  = (Return [2; 20],
     logUntil (logFetches emptyWorld (callsOf 100 (roundPages [2] [5; 4; 3] 0)))
       [[2; 20]])
  /\ fst (untilRounds fivePages 100 (startsWith 5) [2] [5; 4; 3] inOrder
            [0; 1; 2]%nat emptyWorld)
     = Return [5; 50]
  /\ untilRounds emptySecondPage 100 atMostOne [2] [4; 3] inOrder [0; 1]%nat
       emptyWorld
     = (Return [4],
        logUntil (logFetches emptyWorld (callsOf 100 (roundPages [2] [4; 3] 0)))
          [[4]]).
Proof.
  split; [|split].
  - apply (proj1 (untilRounds_group_priority fivePages 100 (startsWith 2)
                    [2] [5; 4; 3] inOrder 0%nat [1; 2]%nat emptyWorld)).
    + exists 2, (responseOf "5"). split; reflexivity.
    + right. exists [5; 50], 5, (responseOf "5"). split; reflexivity.
    + discriminate.
    + reflexivity.
  - apply (proj1 (proj2 (untilRounds_group_priority fivePages 100 (startsWith 5)
                           [2] [5; 4; 3] inOrder 0%nat [1; 2]%nat emptyWorld))).
    + exists 5, (responseOf "5"). split; reflexivity.
    + right. exists [2; 20]. split; [|reflexivity].
      exists 2, (responseOf "5"). split; reflexivity.
    + discriminate.
    + reflexivity.
  - apply (proj1 (proj2 (proj2 (untilRounds_group_priority emptySecondPage 100
                                  atMostOne [2] [4; 3] inOrder 0%nat [1]%nat
                                  emptyWorld)))).
    + exists 2, (responseOf "4"). split; reflexivity.
    + exists 4, (responseOf "4"). split; reflexivity.
    + discriminate.
    + reflexivity.
Defined.

(** C2, as stated, fails on an empty page: the page fetched for [groupA[0]]
    satisfies the predicate, and yet the predicate is applied to the page of
    [groupB[0]], whose items are returned. *)
Lemma empty_matching_page_is_passed_over :
  searchGroups 4 = ([2], [4; 3])
  /\ pageAt emptySecondPage 100 [2] 0 []
  /\ atMostOne [] = true
  /\ getAllDataUntil emptySecondPage 1 100 atMostOne inOrder emptyWorld
     = (Return [4],
        {| fetchLog := [(1, 100); (2, 100); (4, 100)];
           untilLog := [[1; 2]; [4]];
           errorLog := [] |})
  /\ fst (untilRounds emptySecondPage 100 atMostOne [2] [4; 3] inOrder [0; 1]%nat
            emptyWorld)
     <> Return [].
Proof.
  split; [reflexivity|]. split.
  { exists 2, (responseOf "4"). split; reflexivity. }
  split; [reflexivity|]. split; by vm_compute.
Qed.

Lemma fetch_failure_is_terminal_witness :
  fst (getAllData thirdPageFails 1 100 [] emptyWorld) = Exit 1
  /\ fst (getAllDataUntil thirdPageFails 1 100 never inOrder emptyWorld) = Exit 1.
Proof.
  split.
  - apply (proj1 (fetch_failure_is_terminal thirdPageFails 1 100 never [] inOrder)).
    apply Exists_exists. exists (3, 100). split.
    + vm_compute. do 2 apply list_elem_of_further. apply list_elem_of_here.
    + exists "connection reset". reflexivity.
  - apply (proj2 (fetch_failure_is_terminal thirdPageFails 1 100 never [] inOrder)).
    apply Exists_exists. exists (3, 100). split.
    + vm_compute. do 4 apply list_elem_of_further. apply list_elem_of_here.
    + exists "connection reset". reflexivity.
Defined.

Lemma coerced_before_any_fetch_witness :
  (Utils.clamp 500 1 100 = 100
   /\ fetchesWith (startPage 4) 100
        (fetchLog (snd (getAllData fivePages 4 500 [] emptyWorld)))
   /\ fetchesWith (startPage 4) 100
        (fetchLog (snd (getAllDataUntil fivePages 4 500 never inOrder emptyWorld)))
   /\ fetchesWith (startPage 4) 100
        (fetchLog (snd (getAllFilteredData fivePages 4 500 (fun l => l) []
                          emptyWorld))))
  /\ (startPage (-3) = 1
      /\ fetchesWith 1 (Utils.clamp 50 1 100)
           (fetchLog (snd (getAllData fivePages (-3) 50 [] emptyWorld)))
      /\ fetchesWith 1 (Utils.clamp 50 1 100)
           (fetchLog (snd (getAllDataUntil fivePages (-3) 50 never inOrder
                             emptyWorld)))
      /\ fetchesWith 1 (Utils.clamp 50 1 100)
           (fetchLog (snd (getAllFilteredData fivePages (-3) 50 (fun l => l) []
                             emptyWorld)))).
Proof.
  split.
  - apply (proj1 (coerced_before_any_fetch fivePages (fun l => l) never []
                    inOrder) 4 500 100).
    right. right. split; reflexivity.
  - apply (proj2 (coerced_before_any_fetch fivePages (fun l => l) never []
                    inOrder) (-3) 50).
    right. reflexivity.
Defined.

End Samples.

(** * Further properties of the engine *)

Section Composition.

Context {T : Type}.

Implicit Types (getData : GetDataFunc T) (until : list T -> bool).
Implicit Types (w : World T).

Local Open Scope Z_scope.

(** Coercing the page and the page size twice is coercing them once. *)
Lemma getAllData_coerced getData page qtyPerPage sched w :
  getAllData getData (startPage page) (Utils.clamp qtyPerPage 1 100) sched w
  = getAllData getData page qtyPerPage sched w.
Proof.
  rewrite !getAllData_unfold. unfold getAllData_cases.
  by rewrite startPage_idem, clamp_idem.
Qed.

(** [getAllData] returns or ends the process; it never throws. *)
Lemma getAllData_outcome getData page qtyPerPage sched w :
  (exists allData, fst (getAllData getData page qtyPerPage sched w) = Return allData)
  \/ fst (getAllData getData page qtyPerPage sched w) = Exit 1.
Proof.
  rewrite getAllData_unfold. unfold getAllData_cases.
  destruct (getData _ _) as [[dataItems response] | e]; [|by right].
  destruct (toLinkHeader _) as [linkHeader | e]; [|by right].
  destruct (promiseAll _ _) as [responses | e]; [left; by eexists | by right].
Qed.

(** X1. [getAllFilteredData] is the filter applied to the whole result of
    [getAllData], with the same calls of the callback; when [getAllData]
    ends the process, so does [getAllFilteredData]. *)
Theorem getAllFilteredData_filters_getAllData getData page qtyPerPage
  (filter : list T -> list T) sched w :
  getAllFilteredData getData page qtyPerPage filter sched w
  = (match fst (getAllData getData page qtyPerPage sched w) with
     | Return allData => Return (filter allData)
     | _ => Exit 1
     end,
     snd (getAllData getData page qtyPerPage sched w)).
Proof.
  unfold getAllFilteredData, tryCatch, bind. fold (startPage page).
  rewrite getAllData_coerced.
  destruct (getAllData_outcome getData page qtyPerPage sched w) as [[allData H] | H];
    destruct (getAllData getData page qtyPerPage sched w) as [o w'];
    cbn [fst snd] in *; by subst o.
Qed.

(** X2. When the seed response has no Link header, or a header that reports
    at most one page, [getAllData] returns the items of the seed page after
    a single call. *)
Theorem getAllData_single_page getData page qtyPerPage sched w
  (items : list T) response linkHeader :
  let q := Utils.clamp qtyPerPage 1 100 in
  getData (startPage page) q = Resolved (items, response) ->
  toLinkHeader (inl response) = Ok linkHeader ->
  allPagesLeft linkHeader <= 1 ->
  getAllData getData page qtyPerPage sched w
  = (Return items, logFetches w [(startPage page, q)]).
Proof.
  intros q Hseed Hlh Hone.
  rewrite getAllData_unfold. unfold getAllData_cases. fold q.
  rewrite Hseed, Hlh, seqZ_nil by lia.
  change (requestsOf getData q []) with (Resolved <$> @nil (list T * Response)).
  rewrite promiseAll_resolved. cbn [map concat callsOf fmap list_fmap].
  by rewrite app_nil_r, logFetches_nil.
Qed.

(** X3. Once the seed page is fetched and its header parsed, [getAllData]
    issues the request of every page [2..N], in ascending order, whether or
    not some of them fail: a failure does not hold back the requests that
    follow it. *)
Theorem getAllData_issues_every_request getData page qtyPerPage sched
  (items : list T) response linkHeader :
  let q := Utils.clamp qtyPerPage 1 100 in
  getData (startPage page) q = Resolved (items, response) ->
  toLinkHeader (inl response) = Ok linkHeader ->
  fetchLog (snd (getAllData getData page qtyPerPage sched emptyWorld))
  = (startPage page, q) :: callsOf q (ascending 2 (allPagesLeft linkHeader)).
Proof.
  intros q Hseed Hlh.
  rewrite getAllData_unfold. unfold getAllData_cases, ascending. fold q.
  rewrite Hseed, Hlh.
  replace (allPagesLeft linkHeader - 2 + 1) with (allPagesLeft linkHeader - 1) by lia.
  by destruct (promiseAll _ _).
Qed.

(** X4. A Link header of the seed response that does not parse ends
    [getAllData] with the terminal error after the single call; it ends
    [getAllDataUntil] likewise, unless the predicate holds on the seed page,
    in which case the header is not looked at. *)
Theorem malformed_header_is_terminal getData page qtyPerPage until sched scheds w
  (items : list T) response e :
  let q := Utils.clamp qtyPerPage 1 100 in
  let w1 := logFetches w [(startPage page, q)] in
  getData (startPage page) q = Resolved (items, response) ->
  toLinkHeader (inl response) = Throw e ->
  getAllData getData page qtyPerPage sched w = (Exit 1, logError w1 e)
  /\ getAllDataUntil getData page qtyPerPage until scheds w
     = if until items then (Return items, logUntil w1 [items])
       else (Exit 1, logError (logUntil w1 [items]) e).
Proof.
  intros q w1 Hseed Hlh. split.
  - rewrite getAllData_unfold. unfold getAllData_cases. fold q.
    by rewrite Hseed, Hlh.
  - rewrite getAllDataUntil_unfold. unfold getAllDataUntil_cases. fold q.
    rewrite Hseed, Hlh. by destruct (until items).
Qed.

End Composition.

(** ** The page groups cover every page once *)

Section GroupsCover.

Local Open Scope Z_scope.

Lemma half_bounds (N : Z) : (0 <= N -> 0 <= N / 2 <= N) /\ (N <= 0 -> N <= N / 2 <= 0).
Proof.
  pose proof (Z.div_mod N 2). pose proof (Z.mod_pos_bound N 2). lia.
Qed.

(** The formula of the two groups, for every [totalPages]. *)
Lemma createAlternatePagesGroups_formula (N : Z) :
  createAlternatePagesGroups N = (ascending 1 (N / 2), descending (N / 2 + 1) N).
Proof.
  unfold createAlternatePagesGroups, descending, ascending.
  destruct (half_bounds N) as [Hpos Hneg].
  destruct (Z.le_gt_cases N 0) as [HN | HN].
  - rewrite !seqZ_nil by lia. done.
  - replace (seqZ 1 N) with (seqZ 1 (N / 2) ++ seqZ (1 + N / 2) (N - N / 2)).
    2: { rewrite <- seqZ_app by lia. f_equal. lia. }
    rewrite split_pages.
    + cbn [fst snd app]. do 2 f_equal; f_equal; lia.
    + apply Forall_forall. intros i Hi%elem_of_seqZ. lia.
    + apply Forall_forall. intros i Hi%elem_of_seqZ. lia.
Qed.

Lemma filter_keeps (f : Z -> bool) (l : list Z) :
  (forall i, i ∈ l -> f i = true) -> List.filter f l = l.
Proof.
  intros Hall. apply forallb_filter_id, forallb_forall.
  intros i Hi. apply Hall. by apply list_elem_of_In.
Qed.

(** Removing page 1 from the pages [1..n] leaves the pages [2..n]. *)
Lemma filter_page_one (n : Z) :
  List.filter (fun i => negb (i =? 1)) (seqZ 1 n) = seqZ 2 (n - 1).
Proof.
  destruct (Z.le_gt_cases n 0) as [Hn | Hn].
  - by rewrite !seqZ_nil by lia.
  - rewrite seqZ_cons by lia. cbn [List.filter Z.eqb Pos.eqb negb].
    replace (Z.succ 1) with 2 by lia. replace (Z.pred n) with (n - 1) by lia.
    apply filter_keeps. intros i Hi%elem_of_seqZ.
    destruct (Z.eqb_spec i 1); [lia | done].
Qed.

Lemma searchGroups_cover (N : Z) :
  fst (searchGroups N) ++ reverse (snd (searchGroups N)) = ascending 2 N.
Proof.
  unfold searchGroups. rewrite createAlternatePagesGroups_formula.
  cbn [fst snd]. unfold descending, reverse. rewrite <- !rev_alt.
  rewrite List.filter_rev, rev_involutive, <- List.filter_app.
  destruct (half_bounds N) as [Hpos Hneg].
  unfold ascending.
  replace (seqZ 1 (N / 2 - 1 + 1) ++ seqZ (N / 2 + 1) (N - (N / 2 + 1) + 1))
    with (seqZ 1 N).
  - rewrite filter_page_one. f_equal. lia.
  - destruct (Z.le_gt_cases N 0) as [HN | HN].
    + by rewrite !seqZ_nil by lia.
    + replace (seqZ 1 N) with (seqZ 1 ((N / 2) + (N - N / 2))) by (f_equal; lia).
      rewrite (seqZ_app 1 (N / 2) (N - N / 2)) by lia. f_equal; f_equal; lia.
Qed.

Lemma searchGroups_none (N : Z) : N <= 1 -> searchGroups N = ([], []).
Proof.
  intros HN. pose proof (searchGroups_cover N) as Hcover.
  unfold ascending in Hcover. rewrite seqZ_nil in Hcover by lia.
  apply app_eq_nil in Hcover as [Ha Hb].
  destruct (searchGroups N) as [groupA groupB]. cbn [fst snd] in *. subst groupA.
  f_equal. by rewrite <- (reverse_involutive groupB), Hb.
Qed.

(** X5. The two groups of [createAlternatePagesGroups] hold every page of
    [1..N] exactly once: the first group followed by the second one read
    backwards is [1..N]; with page 1 removed, as [getAllDataUntil] uses
    them, it is [2..N].  This holds for every [N], the groups being empty
    when [N <= 0]. *)
Theorem page_groups_partition (N : Z) :
  fst (createAlternatePagesGroups N) ++ reverse (snd (createAlternatePagesGroups N))
  = ascending 1 N
  /\ fst (searchGroups N) ++ reverse (snd (searchGroups N)) = ascending 2 N.
Proof.
  split; [|apply searchGroups_cover].
  rewrite createAlternatePagesGroups_formula. cbn [fst snd].
  unfold descending. rewrite reverse_involutive. unfold ascending.
  destruct (half_bounds N) as [Hpos Hneg].
  destruct (Z.le_gt_cases N 0) as [HN | HN].
  - by rewrite !seqZ_nil by lia.
  - replace (N - 1 + 1) with ((N / 2) + (N - N / 2)) by lia.
    rewrite (seqZ_app 1 (N / 2) (N - N / 2)) by lia. f_equal; f_equal; lia.
Qed.

End GroupsCover.

(** ** The search: what it returns and what it asks for *)

Section PromiseAllInverse.

Context {A : Type}.

Lemma all_resolved (requests : list (Promise A)) :
  (forall i e, requests !! i <> Some (Rejected e)) ->
  exists vs, requests = Resolved <$> vs.
Proof.
  induction requests as [|r requests IH]; intros Hall.
  - by exists [].
  - destruct r as [v | e]; [|by destruct (Hall 0%nat e)].
    destruct IH as [vs ->].
    { intros i e. apply (Hall (S i) e). }
    by exists (v :: vs).
Qed.

(** [Promise.all] resolves only when every request did, and then with their
    values in the order of the requests. *)
Lemma promiseAll_resolved_inv sched (requests : list (Promise A)) (results : list A) :
  promiseAll sched requests = Resolved results ->
  requests = Resolved <$> results.
Proof.
  intros Hall.
  destruct (all_resolved requests) as [vs ->].
  - intros i e Hi.
    destruct (promiseAll_rejected sched requests i e Hi) as [e' He']. congruence.
  - rewrite promiseAll_resolved in Hall. congruence.
Qed.

End PromiseAllInverse.

Section Interleaving.

Context {B : Type}.

Lemma bind_after_fmap {A C : Type} (g : A -> C) (f : C -> list B) (l : list A) :
  (g <$> l) ≫= f = l ≫= (fun x => f (g x)).
Proof.
  induction l as [|x l IH]; [done|].
  rewrite fmap_cons, !bind_cons. by rewrite IH.
Qed.

Lemma bind_no_lookup (m start : nat) :
  seq start m ≫= (fun i => option_list (@nil B !! i)) = [].
Proof.
  revert start. induction m as [|m IH]; intros start; [done|].
  cbn [seq]. by rewrite bind_cons, IH, lookup_nil.
Qed.

(** Reading a list index by index gives the list back. *)
Lemma bind_lookups (l : list B) (m : nat) :
  (length l <= m)%nat ->
  seq 0 m ≫= (fun i => option_list (l !! i)) = l.
Proof.
  revert m. induction l as [|x l IH]; intros m Hm.
  - apply bind_no_lookup.
  - destruct m as [|m]; [cbn in Hm; lia|].
    cbn [seq]. rewrite bind_cons, <- fmap_S_seq, bind_after_fmap.
    cbn [lookup list_lookup option_list app]. f_equal.
    apply IH. cbn in Hm. lia.
Qed.

Lemma bind_app_Permutation {A : Type} (f g : A -> list B) (l : list A) :
  Permutation (l ≫= (fun i => f i ++ g i)) ((l ≫= f) ++ (l ≫= g)).
Proof.
  induction l as [|x l IH]; [done|].
  rewrite !bind_cons, IH.
  rewrite <- !app_assoc. apply Permutation_app_head.
  rewrite !app_assoc. apply Permutation_app_tail, Permutation_app_comm.
Qed.

End Interleaving.

Section RoundsCover.

Local Open Scope Z_scope.

(** The rounds ask for every page of the two groups once. *)
Lemma rounds_cover (groupA groupB : list Z) :
  Permutation (seq 0 (maxLen (groupA, groupB)) ≫= roundPages groupA groupB)
    (groupA ++ groupB).
Proof.
  rewrite (list_bind_ext _ (fun i => option_list (groupA !! i)
                                     ++ option_list (groupB !! i)) _ _
             (roundPages_lookup groupA groupB) eq_refl).
  rewrite bind_app_Permutation.
  unfold maxLen. cbn [fst snd].
  by rewrite !bind_lookups by lia.
Qed.

Lemma roundPages_two (groupA groupB : list Z) (i : nat) :
  (length (roundPages groupA groupB i) <= 2)%nat.
Proof.
  rewrite roundPages_lookup.
  by destruct (groupA !! i), (groupB !! i); cbn; lia.
Qed.

(** The rounds of [getAllDataUntil] ask for the pages [2..N], each once. *)
Lemma search_rounds_cover (N : Z) :
  Permutation
    (seq 0 (maxLen (searchGroups N))
     ≫= roundPages (fst (searchGroups N)) (snd (searchGroups N)))
    (ascending 2 N).
Proof.
  rewrite <- searchGroups_cover.
  destruct (searchGroups N) as [groupA groupB]. cbn [fst snd].
  by rewrite rounds_cover, reverse_Permutation.
Qed.

End RoundsCover.

Section SearchFacts.

Context {T : Type}.

Implicit Types (getData : GetDataFunc T) (until : list T -> bool).
Implicit Types (groupA groupB : list Z) (w : World T).

Local Open Scope Z_scope.

Lemma pageMatches_true until (items : list T) :
  pageMatches until items = true -> items <> [] /\ until items = true.
Proof.
  unfold pageMatches. intros [Hlen Huntil]%andb_prop. split; [|done].
  by destruct items.
Qed.

(** The [k]-th result of a round is the page of the [k]-th request. *)
Lemma round_result_page getData q (pages : list Z)
  (results : list (list T * Response)) (k : nat) (p : Z) :
  requestsOf getData q pages = Resolved <$> results ->
  pages !! k = Some p ->
  exists r, results !! k = Some r /\ getData p q = Resolved r.
Proof.
  intros Heq Hp. apply (f_equal (fun l => l !! k)) in Heq.
  unfold requestsOf in Heq. rewrite !list_lookup_fmap, Hp in Heq.
  destruct (results !! k) as [r|]; cbn in Heq; [|done].
  exists r. split; [done | congruence].
Qed.

Lemma round_result_items getData q (pages : list Z)
  (results : list (list T * Response)) (k : nat) :
  requestsOf getData q pages = Resolved <$> results ->
  roundItems results k <> [] ->
  exists p r, pages !! k = Some p
              /\ getData p q = Resolved (roundItems results k, r).
Proof.
  intros Heq Hne. unfold roundItems in *.
  destruct (results !! k) as [[items r]|] eqn:Hr; [|done]. cbn [fst] in *.
  apply (f_equal (fun l => l !! k)) in Heq.
  unfold requestsOf in Heq. rewrite !list_lookup_fmap, Hr in Heq.
  destruct (pages !! k) as [p|]; cbn in Heq; [|done].
  exists p, r. split; [done | congruence].
Qed.

(** What the rounds return: a fetched page that matches, or nothing after
    every page of every round was fetched and none matched. *)
Lemma untilRounds_spec getData q until groupA groupB scheds (rounds : list nat) w :
  match fst (untilRounds getData q until groupA groupB scheds rounds w) with
  | Raise _ => True
  | Exit _ => False
  | Return items =>
      (pageMatches until items = true
       /\ exists i p r,
           i ∈ rounds /\ p ∈ roundPages groupA groupB i
           /\ getData p q = Resolved (items, r)
           /\ (p, q) ∈ fetchLog
                 (snd (untilRounds getData q until groupA groupB scheds rounds w)))
      \/ (items = []
          /\ fetchLog (snd (untilRounds getData q until groupA groupB scheds rounds w))
             = fetchLog w ++ callsOf q (rounds ≫= roundPages groupA groupB)
          /\ forall i p items' r,
              i ∈ rounds -> p ∈ roundPages groupA groupB i ->
              getData p q = Resolved (items', r) ->
              pageMatches until items' = false)
  end.
Proof.
  revert w. induction rounds as [|i rounds IH]; intros w.
  - cbn. right. split; [done|]. split; [by rewrite app_nil_r|].
    by intros i p items' r ?%elem_of_nil.
  - cbn [untilRounds]. unfold bind. rewrite untilRound_unfold. cbv zeta.
    destruct (promiseAll (scheds i) _) as [results | e] eqn:Hall; [|done].
    apply promiseAll_resolved_inv in Hall as Hreq.
    rewrite roundCheck_run. cbv zeta.
    destruct (pageMatches until (roundItems results 0)) eqn:Ha;
      [|destruct (pageMatches until (roundItems results 1)) eqn:Hb].
    + cbn [fst snd]. left. split; [done|].
      apply pageMatches_true in Ha as [Hne _].
      destruct (round_result_items getData q _ results 0 Hreq Hne) as (p & r & Hp & Hg).
      exists i, p, r. split; [apply list_elem_of_here|].
      split; [by eapply list_elem_of_lookup_2|]. split; [done|].
      cbn [logUntil logFetches fetchLog]. apply elem_of_app. right.
      apply list_elem_of_fmap. exists p. split; [done|].
      by eapply list_elem_of_lookup_2.
    + cbn [fst snd]. left. split; [done|].
      apply pageMatches_true in Hb as [Hne _].
      destruct (round_result_items getData q _ results 1 Hreq Hne) as (p & r & Hp & Hg).
      exists i, p, r. split; [apply list_elem_of_here|].
      split; [by eapply list_elem_of_lookup_2|]. split; [done|].
      cbn [logUntil logFetches fetchLog]. apply elem_of_app. right.
      apply list_elem_of_fmap. exists p. split; [done|].
      by eapply list_elem_of_lookup_2.
    + specialize (IH (logUntil (logFetches w (callsOf q (roundPages groupA groupB i)))
                        (inspected (roundItems results 0)
                         ++ inspected (roundItems results 1)))).
      destruct (untilRounds _ _ _ _ _ _ _ _) as [[items | e | c] w3];
        cbn [fst snd] in *; [|done|done].
      destruct IH as [(Hm & i' & p & r & Hi' & Hp & Hg & Hlog)
                     | (-> & Hlog & Hnone)].
      * left. split; [done|]. exists i', p, r.
        split; [by apply list_elem_of_further|]. done.
      * right. split; [done|]. split.
        { rewrite Hlog. cbn [logUntil logFetches fetchLog].
          unfold callsOf. by rewrite bind_cons, fmap_app, app_assoc. }
        intros i0 p items' r [-> | Hin]%elem_of_cons Hp Hg; [|by eapply Hnone].
        apply list_elem_of_lookup in Hp as [k Hk].
        pose proof (lookup_lt_Some _ _ _ Hk) as Hlt.
        pose proof (roundPages_two groupA groupB i) as Htwo.
        destruct (round_result_page getData q _ results k p Hreq Hk) as (r' & Hr' & Hg').
        assert (Hitems : roundItems results k = items').
        { unfold roundItems. rewrite Hr'. rewrite Hg in Hg'.
          by injection Hg' as <-. }
        assert (Hcases : (k = 0 \/ k = 1)%nat) by lia.
        destruct Hcases as [-> | ->]; congruence.
Qed.

(** When every page of the rounds can be fetched, the rounds return. *)
Lemma untilRounds_returns getData q until groupA groupB scheds (rounds : list nat) w :
  (forall i p, i ∈ rounds -> p ∈ roundPages groupA groupB i ->
               exists r, getData p q = Resolved r) ->
  exists items,
    fst (untilRounds getData q until groupA groupB scheds rounds w) = Return items.
Proof.
  revert w. induction rounds as [|i rounds IH]; intros w Hpages.
  - by exists [].
  - cbn [untilRounds]. unfold bind. rewrite untilRound_unfold. cbv zeta.
    destruct (requests_all_resolved getData q (roundPages groupA groupB i))
      as (responses & ->).
    { intros p Hp. apply (Hpages i p); [apply list_elem_of_here | done]. }
    rewrite promiseAll_resolved, roundCheck_run. cbv zeta.
    destruct (pageMatches until _); [by eexists|].
    destruct (pageMatches until _); [by eexists|].
    apply IH. intros j p Hj. apply Hpages. by apply list_elem_of_further.
Qed.

(** The calls of the rounds are those of the first rounds, up to the one
    that ends the search. *)
Lemma untilRounds_log_prefix getData q until groupA groupB scheds (rounds : list nat) w :
  exists k : nat,
    fetchLog (snd (untilRounds getData q until groupA groupB scheds rounds w))
    = fetchLog w ++ callsOf q (take k rounds ≫= roundPages groupA groupB).
Proof.
  revert w. induction rounds as [|i rounds IH]; intros w.
  - exists 0%nat. cbn. by rewrite app_nil_r.
  - cbn [untilRounds]. unfold bind. rewrite untilRound_unfold. cbv zeta.
    assert (Hone : fetchLog w ++ callsOf q (roundPages groupA groupB i)
                   = fetchLog w ++ callsOf q (take 1 (i :: rounds)
                                               ≫= roundPages groupA groupB)).
    { cbn [take]. by rewrite bind_cons, app_nil_r. }
    destruct (promiseAll (scheds i) _) as [results | e]; [|by exists 1%nat].
    rewrite roundCheck_run. cbv zeta.
    destruct (pageMatches until _); [by exists 1%nat|].
    destruct (pageMatches until _); [by exists 1%nat|].
    destruct (IH (logUntil (logFetches w (callsOf q (roundPages groupA groupB i)))
                    (inspected (roundItems results 0)
                     ++ inspected (roundItems results 1)))) as [k Hk].
    exists (S k). rewrite Hk. cbn [logUntil logFetches fetchLog take].
    unfold callsOf. by rewrite bind_cons, fmap_app, app_assoc.
Qed.

Lemma length_bind_take {A B : Type} (f : A -> list B) (l : list A) (k : nat) :
  (length (take k l ≫= f) <= length (l ≫= f))%nat.
Proof.
  rewrite <- (take_drop k l) at 2. rewrite bind_app, length_app. lia.
Qed.

(** The pages of the rounds of a search over [N] pages are among [2..N]. *)
Lemma search_round_page (N : Z) (i : nat) (p : Z) :
  i ∈ seq 0 (maxLen (searchGroups N)) ->
  p ∈ roundPages (fst (searchGroups N)) (snd (searchGroups N)) i ->
  2 <= p <= N.
Proof.
  intros Hi Hp.
  assert (Hin : p ∈ ascending 2 N).
  { rewrite <- search_rounds_cover. apply list_elem_of_bind. eauto. }
  apply elem_of_seqZ in Hin. lia.
Qed.

(** X6. When the predicate fails on the seed page and the seed response has
    no Link header, or a header that reports at most one page,
    [getAllDataUntil] returns the empty sequence after the single call. *)
Theorem getAllDataUntil_single_page getData page qtyPerPage until scheds w
  (items : list T) response linkHeader :
  let q := Utils.clamp qtyPerPage 1 100 in
  getData (startPage page) q = Resolved (items, response) ->
  until items = false ->
  toLinkHeader (inl response) = Ok linkHeader ->
  untilPagesLeft linkHeader <= 1 ->
  getAllDataUntil getData page qtyPerPage until scheds w
  = (Return [], logUntil (logFetches w [(startPage page, q)]) [items]).
Proof.
  intros q Hseed Huntil Hlh Hone.
  rewrite getAllDataUntil_unfold. unfold getAllDataUntil_cases. fold q.
  by rewrite Hseed, Huntil, Hlh, searchGroups_none.
Qed.

(** X7. A non-empty sequence returned by [getAllDataUntil] is a page that
    the callback delivered in this run and on which the predicate holds. *)
Theorem getAllDataUntil_returns_matching_page getData page qtyPerPage until scheds
  (items : list T) :
  let q := Utils.clamp qtyPerPage 1 100 in
  let run := getAllDataUntil getData page qtyPerPage until scheds emptyWorld in
  fst run = Return items ->
  items <> [] ->
  until items = true
  /\ exists p r, (p, q) ∈ fetchLog (snd run) /\ getData p q = Resolved (items, r).
Proof.
  intros q run. unfold run.
  rewrite getAllDataUntil_unfold. unfold getAllDataUntil_cases. fold q.
  destruct (getData (startPage page) q) as [[dataItems response] | e] eqn:Hseed;
    [|done].
  destruct (until dataItems) eqn:Hu.
  { cbn. intros [= <-] _. split; [done|].
    exists (startPage page), response. split; [apply list_elem_of_here | done]. }
  destruct (toLinkHeader (inl response)) as [linkHeader | e]; [|done].
  set (groups := searchGroups (untilPagesLeft linkHeader)).
  set (w2 := logUntil (logFetches emptyWorld [(startPage page, q)]) [dataItems]).
  pose proof (untilRounds_spec getData q until (fst groups) (snd groups) scheds
                (seq 0 (maxLen groups)) w2) as Hspec.
  destruct (untilRounds _ _ _ _ _ _ _ _) as [[items' | e | c] w3];
    cbn [fst snd] in *; [|done|done].
  intros [= <-] Hne.
  destruct Hspec as [(Hm & i & p & r & _ & _ & Hg & Hlog) | (-> & _)]; [|done].
  apply pageMatches_true in Hm as [_ Hm]. split; [done|]. by exists p, r.
Qed.

(** X8. For a predicate that fails on the empty page: when the pages can be
    fetched and the predicate holds on the seed page or on one of the pages
    [2..N], [getAllDataUntil] returns a page on which the predicate
    holds. *)
Theorem getAllDataUntil_finds_matching_page getData page qtyPerPage until scheds
  (seedItems : list T) response linkHeader (k : Z) (itemsK : list T) rK :
  let q := Utils.clamp qtyPerPage 1 100 in
  let run := getAllDataUntil getData page qtyPerPage until scheds emptyWorld in
  getData (startPage page) q = Resolved (seedItems, response) ->
  toLinkHeader (inl response) = Ok linkHeader ->
  (forall i, 2 <= i <= untilPagesLeft linkHeader ->
             exists r, getData i q = Resolved r) ->
  until [] = false ->
  k = startPage page \/ 2 <= k <= untilPagesLeft linkHeader ->
  getData k q = Resolved (itemsK, rK) ->
  until itemsK = true ->
  exists items, fst run = Return items /\ until items = true.
Proof.
  intros q run Hseed Hlh Hpages Hempty Hk Hgk Huk. unfold run.
  rewrite getAllDataUntil_unfold. unfold getAllDataUntil_cases. fold q.
  rewrite Hseed, Hlh.
  destruct (until seedItems) eqn:Hu; [by exists seedItems|].
  destruct Hk as [-> | Hk]; [congruence|].
  set (N := untilPagesLeft linkHeader) in *.
  set (w2 := logUntil (logFetches emptyWorld [(startPage page, q)]) [seedItems]).
  pose proof (untilRounds_spec getData q until (fst (searchGroups N))
                (snd (searchGroups N)) scheds (seq 0 (maxLen (searchGroups N))) w2)
    as Hspec.
  destruct (untilRounds_returns getData q until (fst (searchGroups N))
              (snd (searchGroups N)) scheds (seq 0 (maxLen (searchGroups N))) w2)
    as [items Hret].
  { intros i p Hi Hp. apply Hpages. by eapply search_round_page. }
  destruct (untilRounds _ _ _ _ _ _ _ _) as [[items' | e | c] w3];
    cbn [fst snd] in *; [|done|done].
  exists items'. split; [done|].
  destruct Hspec as [(Hm & _) | (-> & _ & Hnone)].
  - by apply pageMatches_true in Hm as [_ Hm].
  - assert (Hin : k ∈ ascending 2 N) by (apply elem_of_seqZ; lia).
    rewrite <- search_rounds_cover in Hin.
    apply list_elem_of_bind in Hin as (i & Hp & Hi).
    pose proof (Hnone i k itemsK rK Hi Hp Hgk) as Hno.
    unfold pageMatches in Hno. rewrite Huk, andb_true_r in Hno.
    destruct itemsK; [congruence | done].
Qed.

(** X9. When the pages can be fetched and the predicate matches none of
    them, [getAllDataUntil] returns the empty sequence after asking for the
    seed page and then for each of the pages [2..N] exactly once. *)
Theorem getAllDataUntil_exhaustive getData page qtyPerPage until scheds
  (seedItems : list T) response linkHeader :
  let q := Utils.clamp qtyPerPage 1 100 in
  let run := getAllDataUntil getData page qtyPerPage until scheds emptyWorld in
  getData (startPage page) q = Resolved (seedItems, response) ->
  toLinkHeader (inl response) = Ok linkHeader ->
  (forall i, 2 <= i <= untilPagesLeft linkHeader ->
             exists r, getData i q = Resolved r) ->
  until seedItems = false ->
  (forall i items r, 2 <= i <= untilPagesLeft linkHeader ->
                     getData i q = Resolved (items, r) ->
                     pageMatches until items = false) ->
  fst run = Return []
  /\ exists pages,
      fetchLog (snd run) = (startPage page, q) :: callsOf q pages
      /\ Permutation pages (ascending 2 (untilPagesLeft linkHeader)).
Proof.
  intros q run Hseed Hlh Hpages Hu Hnomatch. unfold run.
  rewrite getAllDataUntil_unfold. unfold getAllDataUntil_cases. fold q.
  rewrite Hseed, Hlh, Hu.
  set (N := untilPagesLeft linkHeader) in *.
  set (w2 := logUntil (logFetches emptyWorld [(startPage page, q)]) [seedItems]).
  pose proof (untilRounds_spec getData q until (fst (searchGroups N))
                (snd (searchGroups N)) scheds (seq 0 (maxLen (searchGroups N))) w2)
    as Hspec.
  destruct (untilRounds_returns getData q until (fst (searchGroups N))
              (snd (searchGroups N)) scheds (seq 0 (maxLen (searchGroups N))) w2)
    as [items Hret].
  { intros i p Hi Hp. apply Hpages. by eapply search_round_page. }
  destruct (untilRounds _ _ _ _ _ _ _ _) as [[items' | e | c] w3];
    cbn [fst snd] in *; [|done|done].
  destruct Hspec as [(Hm & i & p & r & Hi & Hp & Hg & _) | (-> & Hlog & _)].
  - rewrite (Hnomatch p items' r) in Hm; [done | | done].
    by eapply search_round_page.
  - split; [done|]. eexists. split; [exact Hlog|]. apply search_rounds_cover.
Qed.

(** X10. Whatever the predicate and whatever the outcome of the later
    fetches, [getAllDataUntil] calls the callback at most [max(1, N)] times,
    [N] being the number of pages that the seed response reports. *)
Theorem getAllDataUntil_call_budget getData page qtyPerPage until scheds
  (seedItems : list T) response linkHeader :
  let q := Utils.clamp qtyPerPage 1 100 in
  let run := getAllDataUntil getData page qtyPerPage until scheds emptyWorld in
  getData (startPage page) q = Resolved (seedItems, response) ->
  toLinkHeader (inl response) = Ok linkHeader ->
  (length (fetchLog (snd run)) <= Z.to_nat (Z.max 1 (untilPagesLeft linkHeader)))%nat.
Proof.
  intros q run Hseed Hlh. unfold run.
  rewrite getAllDataUntil_unfold. unfold getAllDataUntil_cases. fold q.
  rewrite Hseed, Hlh.
  destruct (until seedItems); [cbn; lia|].
  set (N := untilPagesLeft linkHeader) in *.
  set (w2 := logUntil (logFetches emptyWorld [(startPage page, q)]) [seedItems]).
  destruct (untilRounds_log_prefix getData q until (fst (searchGroups N))
              (snd (searchGroups N)) scheds (seq 0 (maxLen (searchGroups N))) w2)
    as [k Hk].
  assert (Hlen : (length (fetchLog w2
                          ++ callsOf q (take k (seq 0 (maxLen (searchGroups N)))
                                        ≫= roundPages (fst (searchGroups N))
                                             (snd (searchGroups N))))
                  <= Z.to_nat (Z.max 1 N))%nat).
  { rewrite length_app. unfold callsOf. rewrite length_fmap.
    pose proof (length_bind_take
                  (roundPages (fst (searchGroups N)) (snd (searchGroups N)))
                  (seq 0 (maxLen (searchGroups N))) k) as Hle.
    pose proof (Permutation_length (search_rounds_cover N)) as Hperm.
    unfold ascending in Hperm. rewrite length_seqZ in Hperm.
    cbn [w2 logUntil logFetches fetchLog emptyWorld app length]. lia. }
  by destruct (untilRounds _ _ _ _ _ _ _ _) as [[items | e | c] w3];
    cbn [fst snd logError fetchLog] in *; rewrite Hk.
Qed.

End SearchFacts.

Section SearchSamples.

Local Open Scope Z_scope.

Lemma getAllData_single_page_witness :
  getAllData onePage 1 100 [] emptyWorld
  = (Return [1], logFetches emptyWorld [(1, 100)]).
Proof.
  apply (getAllData_single_page onePage 1 100 [] emptyWorld [1] plainResponse None).
  - reflexivity.
  - reflexivity.
  - cbn. lia.
Defined.

Lemma getAllData_issues_every_request_witness :
  fetchLog (snd (getAllData thirdPageFails 1 100 [] emptyWorld))
  = (1, 100) :: callsOf 100 (ascending 2 5).
Proof.
  apply (getAllData_issues_every_request thirdPageFails 1 100 [] [1]
           (responseOf "5") (Some lastIsFive)).
  - reflexivity.
  - vm_compute. reflexivity.
Defined.

Lemma malformed_header_is_terminal_witness :
  getAllData brokenHeader 1 100 [] emptyWorld
  = (Exit 1, logError (logFetches emptyWorld [(1, 100)]) typeErrorTrim)
  /\ getAllDataUntil brokenHeader 1 100 (startsWith 1) inOrder emptyWorld
     = (Return [1], logUntil (logFetches emptyWorld [(1, 100)]) [[1]]).
Proof.
  apply (malformed_header_is_terminal brokenHeader 1 100 (startsWith 1) []
           inOrder emptyWorld [1] {| headers := [("Link", urlOnlyHeader)] |}
           typeErrorTrim).
  - reflexivity.
  - reflexivity.
Defined.

Lemma getAllDataUntil_single_page_witness :
  getAllDataUntil onePage 1 100 never inOrder emptyWorld
  = (Return [], logUntil (logFetches emptyWorld [(1, 100)]) [[1]]).
Proof.
  apply (getAllDataUntil_single_page onePage 1 100 never inOrder emptyWorld [1]
           plainResponse None).
  - reflexivity.
  - reflexivity.
  - reflexivity.
  - cbn. lia.
Defined.

Lemma getAllDataUntil_returns_matching_page_witness :
  startsWith 5 [5; 50] = true
  /\ exists p r,
      (p, 100) ∈ fetchLog
        (snd (getAllDataUntil fivePages 1 100 (startsWith 5) inOrder emptyWorld))
      /\ fivePages p 100 = Resolved ([5; 50], r).
Proof.
  apply (getAllDataUntil_returns_matching_page fivePages 1 100 (startsWith 5)
           inOrder [5; 50]).
  - reflexivity.
  - discriminate.
Defined.

Lemma getAllDataUntil_finds_matching_page_witness :
  exists items,
    fst (getAllDataUntil fivePages 1 100 (startsWith 4) inOrder emptyWorld)
    = Return items
    /\ startsWith 4 items = true.
Proof.
  apply (getAllDataUntil_finds_matching_page fivePages 1 100 (startsWith 4)
           inOrder [1; 10] (responseOf "5") (Some lastIsFive) 4 [4; 40]
           (responseOf "5")).
  - reflexivity.
  - vm_compute. reflexivity.
  - intros i _. eexists. reflexivity.
  - reflexivity.
  - right. cbn. lia.
  - reflexivity.
  - reflexivity.
Defined.

Lemma getAllDataUntil_exhaustive_witness :
  fst (getAllDataUntil fivePages 1 100 never inOrder emptyWorld) = Return []
  /\ exists pages,
      fetchLog (snd (getAllDataUntil fivePages 1 100 never inOrder emptyWorld))
      = (1, 100) :: callsOf 100 pages
      /\ Permutation pages (ascending 2 5).
Proof.
  apply (getAllDataUntil_exhaustive fivePages 1 100 never inOrder [1; 10]
           (responseOf "5") (Some lastIsFive)).
  - reflexivity.
  - vm_compute. reflexivity.
  - intros i _. eexists. reflexivity.
  - reflexivity.
  - intros i items r _ _. unfold pageMatches, never. apply andb_false_r.
Defined.

Lemma getAllDataUntil_call_budget_witness :
  (length (fetchLog
             (snd (getAllDataUntil thirdPageFails 1 100 never inOrder emptyWorld)))
   <= Z.to_nat (Z.max 1 5))%nat.
Proof.
  apply (getAllDataUntil_call_budget thirdPageFails 1 100 never inOrder [1]
           (responseOf "5") (Some lastIsFive)).
  - reflexivity.
  - vm_compute. reflexivity.
Defined.

End SearchSamples.

(** * Further properties of the Link header parser *)

Section StringFacts.

Import JsString.

Lemma append_cons (c : ascii) (s t : string) :
  String c s +:+ t = String c (s +:+ t).
Proof. done. Qed.

Lemma append_assoc (s t u : string) : (s +:+ t) +:+ u = s +:+ t +:+ u.
Proof.
  induction s as [|c s IH]; [done|]. by rewrite !append_cons, IH.
Qed.

Lemma length_append (s t : string) :
  String.length (s +:+ t) = (String.length s + String.length t)%nat.
Proof.
  induction s as [|c s IH]; [done|]. rewrite append_cons. cbn. by rewrite IH.
Qed.

Lemma prefix_empty (s : string) : String.prefix EmptyString s = true.
Proof. by destruct s. Qed.

(** Whether [p] starts [s +:+ t] is settled within [s] when [s] is long
    enough. *)
Lemma prefix_app_short (p s t : string) :
  (String.length p <= String.length s)%nat ->
  String.prefix p (s +:+ t) = String.prefix p s.
Proof.
  revert s. induction p as [|a p IH]; intros s Hlen.
  - by rewrite !prefix_empty.
  - destruct s as [|b s]; [cbn in Hlen; lia|].
    rewrite append_cons. cbn [String.prefix].
    destruct (ascii_dec a b); [|done]. apply IH. cbn in Hlen. lia.
Qed.

Lemma includes_cons_false (sub : string) (c : ascii) (s : string) :
  includes sub (String c s) = false ->
  String.prefix sub (String c s) = false /\ includes sub s = false.
Proof.
  cbn [includes]. by destruct (String.prefix sub (String c s)).
Qed.

Lemma takeDigits_app (d rest : string) :
  allDigits d = true -> startsWithDigit rest = false ->
  takeDigits (d +:+ rest) = d.
Proof.
  intros Hd Hrest. induction d as [|c d IH].
  - change (EmptyString +:+ rest) with rest.
    destruct rest as [|c rest]; [done|].
    cbn [takeDigits startsWithDigit] in *. by rewrite Hrest.
  - cbn [allDigits] in Hd. apply andb_prop in Hd as [Hc Hd].
    rewrite append_cons. cbn [takeDigits]. by rewrite Hc, IH.
Qed.

(** A token at the very start of the text is the first match. *)
Lemma token_here (d rest : string) :
  isEmpty d = false -> allDigits d = true -> startsWithDigit rest = false ->
  pageNumRegexFirst ("page=" +:+ d +:+ rest) = Some ("page=" +:+ d).
Proof.
  intros Hne Hd Hrest.
  change ("page=" +:+ d +:+ rest)
    with (String "p" (String "a" (String "g" (String "e"
            (String "=" (d +:+ rest)))))).
  cbn [pageNumRegexFirst String.prefix dropChars].
  repeat (destruct (ascii_dec _ _) as [_ | Hneq]; [|by destruct Hneq]).
  rewrite prefix_empty. by rewrite takeDigits_app, Hne.
Qed.

(** Text that holds no [page=] up to the token does not hide an earlier
    match. *)
Lemma no_earlier_token (pre tail : string) :
  includes "page=" (pre +:+ "page") = false ->
  pageNumRegexFirst (pre +:+ "page=" +:+ tail)
  = pageNumRegexFirst ("page=" +:+ tail).
Proof.
  induction pre as [|c pre IH]; [done|]. intros Hinc.
  rewrite append_cons in Hinc. apply includes_cons_false in Hinc as [Hpre Hinc].
  rewrite append_cons. cbn [pageNumRegexFirst].
  assert (Hhere : String.prefix "page=" (String c (pre +:+ "page=" +:+ tail)) = false).
  { etrans; [|exact Hpre].
    change (pre +:+ "page=" +:+ tail) with (pre +:+ "page" +:+ "=" +:+ tail).
    rewrite <- (append_assoc pre "page"), <- append_cons.
    apply prefix_app_short.
    cbn [String.length]. rewrite length_append. cbn. lia. }
  rewrite Hhere. by apply IH.
Qed.

Lemma digitsValue_nonneg (acc : Z) (s : string) :
  (0 <= acc)%Z -> (0 <= digitsValue acc s)%Z.
Proof.
  revert acc. induction s as [|c s IH]; intros acc Hacc; [done|].
  cbn [digitsValue]. destruct (isDigit c); [|done]. apply IH. lia.
Qed.

Lemma getPageNumber_nonneg (url : string) : (0 <= getPageNumber url)%Z.
Proof.
  unfold getPageNumber.
  destruct (pageNumRegexFirst (trim url)) as [m|]; [|done].
  destruct (Utils.splitBy m "="%char !! 1%nat) as [digits|]; [|done].
  unfold parseInt. destruct digits as [|c digits]; [done|].
  destruct (isDigit c); [|done]. by apply digitsValue_nonneg.
Qed.

(** X11. [getPageNumber] reads the first [page=<digits>] token of the URL,
    wherever it stands: when no [page=] occurs before it, the page number is
    the value of its digits, also when the token is the tail of another
    parameter such as [per_page=100].  The digits are taken to denote a
    number of at most 2^53, the range in which [parseInt] is exact. *)
Theorem getPageNumber_first_token (pre d rest : string) :
  includes "page=" (pre +:+ "page") = false ->
  isEmpty d = false ->
  allDigits d = true ->
  (digitsValue 0 d <= 2 ^ 53)%Z ->
  startsWithDigit rest = false ->
  trim (pre +:+ "page=" +:+ d +:+ rest) = pre +:+ "page=" +:+ d +:+ rest ->
  getPageNumber (pre +:+ "page=" +:+ d +:+ rest) = digitsValue 0 d.
Proof.
  intros Hpre Hne Hd _ Hrest Htrim.
  destruct (getPageNumber_match (pre +:+ "page=" +:+ d +:+ rest) ("page=" +:+ d))
    as (digits & Hm & _ & Hparse).
  { by rewrite Htrim, no_earlier_token, token_here. }
  apply String.app_inj in Hm as <-.
  unfold parseInt in Hparse. destruct d as [|c d]; [done|].
  cbn in Hd. apply andb_prop in Hd as [Hc _]. rewrite Hc in Hparse.
  by injection Hparse as <-.
Qed.

Lemma getPageNumber_first_token_witness :
  getPageNumber (sizeFirstUrl +:+ "page=" +:+ "100" +:+ "&page=3>") = 100%Z.
Proof.
  apply (getPageNumber_first_token sizeFirstUrl "100" "&page=3>");
    first [reflexivity | by vm_compute].
Defined.

Lemma length_trimStart (s : string) :
  (String.length (trimStart s) <= String.length s)%nat.
Proof.
  induction s as [|c s IH]; [done|]. cbn [trimStart].
  destruct (isWhiteSpace c); cbn; lia.
Qed.

(** A string that [trimStart] leaves alone is empty or starts with a
    character that is not a blank. *)
Lemma trimStart_fixed_head (c : ascii) (s : string) :
  trimStart (String c s) = String c s -> isWhiteSpace c = false.
Proof.
  cbn [trimStart]. destruct (isWhiteSpace c); [|done]. intros Heq.
  pose proof (length_trimStart s) as Hlen. rewrite Heq in Hlen. cbn in Hlen. lia.
Qed.

Lemma trimStart_idem (s : string) : trimStart (trimStart s) = trimStart s.
Proof.
  induction s as [|c s IH]; [done|]. cbn [trimStart].
  destruct (isWhiteSpace c) eqn:Hc; [done|]. cbn [trimStart]. by rewrite Hc.
Qed.

Lemma trimEnd_idem (s : string) : trimEnd (trimEnd s) = trimEnd s.
Proof.
  induction s as [|c s IH]; [done|]. cbn [trimEnd].
  destruct (isWhiteSpace c && isEmpty (trimEnd s))%bool eqn:Hc; [done|].
  cbn [trimEnd]. by rewrite IH, Hc.
Qed.

Lemma trimStart_trimEnd (s : string) :
  trimStart s = s -> trimStart (trimEnd s) = trimEnd s.
Proof.
  destruct s as [|c s]; [done|]. intros Hc%trimStart_fixed_head.
  cbn [trimEnd]. rewrite Hc. cbn [andb trimStart]. by rewrite Hc.
Qed.

(** Trimming twice is trimming once. *)
Lemma trim_idem (s : string) : trim (trim s) = trim s.
Proof.
  unfold trim. rewrite trimStart_trimEnd by apply trimStart_idem.
  apply trimEnd_idem.
Qed.

Lemma trimStart_app (s t : string) :
  trimStart s = s -> trimStart t = t -> trimStart (s +:+ t) = s +:+ t.
Proof.
  destruct s as [|c s]; [done|]. intros Hc%trimStart_fixed_head _.
  rewrite append_cons. cbn [trimStart]. by rewrite Hc.
Qed.

Lemma trimEnd_app (s t : string) :
  isEmpty (trimEnd t) = false -> trimEnd (s +:+ t) = s +:+ trimEnd t.
Proof.
  intros Ht. induction s as [|c s IH]; [done|].
  rewrite !append_cons. cbn [trimEnd]. rewrite IH.
  replace (isEmpty (s +:+ trimEnd t)) with false; [by rewrite andb_false_r|].
  destruct s; [by rewrite <- Ht | done].
Qed.

Lemma split_nonempty (sep : ascii) (s : string) : split sep s <> [].
Proof.
  destruct s as [|c s]; [done|]. cbn [split].
  destruct (Ascii.eqb c sep); [done|]. by destruct (split sep s).
Qed.

(** Splitting distributes over a separator. *)
Lemma split_app_sep (sep : ascii) (a b : string) :
  split sep (a +:+ String sep b) = split sep a ++ split sep b.
Proof.
  induction a as [|c a IH].
  - change (EmptyString +:+ String sep b) with (String sep b).
    cbn [split]. by rewrite Ascii.eqb_refl.
  - rewrite append_cons. cbn [split]. rewrite IH.
    destruct (Ascii.eqb c sep); [done|].
    pose proof (split_nonempty sep a) as Hne.
    by destruct (split sep a).
Qed.

Lemma includes_char_cons (sep c : ascii) (s : string) :
  includes (String sep EmptyString) (String c s) = false ->
  Ascii.eqb c sep = false /\ includes (String sep EmptyString) s = false.
Proof.
  intros [Hp Hs]%includes_cons_false. split; [|done].
  cbn [String.prefix] in Hp. rewrite prefix_empty in Hp.
  destruct (ascii_dec sep c) as [-> | Hne]; [done|].
  apply Ascii.eqb_neq. congruence.
Qed.

Lemma split_no_sep (sep : ascii) (s : string) :
  includes (String sep EmptyString) s = false -> split sep s = [s].
Proof.
  induction s as [|c s IH]; [done|].
  intros [Hc Hs]%includes_char_cons. cbn [split]. by rewrite Hc, IH.
Qed.

Lemma includes_char_app (sep : ascii) (a b : string) :
  includes (String sep EmptyString) a = false ->
  includes (String sep EmptyString) b = false ->
  includes (String sep EmptyString) (a +:+ b) = false.
Proof.
  intros Ha Hb. induction a as [|c a IH]; [done|].
  apply includes_char_cons in Ha as [Hc Ha].
  rewrite append_cons. cbn [includes String.prefix]. rewrite prefix_empty.
  destruct (ascii_dec sep c) as [-> | _]; [by rewrite Ascii.eqb_refl in Hc|].
  by apply IH.
Qed.

Lemma parseSections_app (info : ILinkHeader) (l1 l2 : list string) :
  parseSections info (l1 ++ l2)
  = match parseSections info l1 with
    | Ok info' => parseSections info' l2
    | Throw e => Throw e
    end.
Proof.
  revert info. induction l1 as [|x l1 IH]; intros info; [done|].
  cbn [parseSections app]. by destruct (parseSection info x).
Qed.

(** What [parseSection] does to the record: one entry more, trimmed, and
    page numbers that stay non-negative. *)
Lemma parseSection_keeps (info info' : ILinkHeader) (section : string) :
  parseSection info section = Ok info' ->
  (exists entry,
      pageData info' = pageData info ++ [entry]
      /\ trim (pageUrl entry) = pageUrl entry
      /\ trim (metadata entry) = metadata entry)
  /\ ((0 <= prevPage info /\ 0 <= nextPage info /\ 0 <= totalPages info)%Z ->
      (0 <= prevPage info' /\ 0 <= nextPage info' /\ 0 <= totalPages info')%Z).
Proof.
  unfold parseSection.
  destruct (_ !! 0%nat) as [s0|]; [|done].
  destruct (_ !! 1%nat) as [s1|]; [|done].
  pose proof (getPageNumber_nonneg (trim s0)) as Hnum.
  destruct (isPrev _); [|destruct (isNext _); [|destruct (isLast _)]];
    intros [= <-]; cbn [pageData prevPage nextPage totalPages];
    (split; [eexists; split; [done|]; cbn [pageUrl metadata];
             split; apply trim_idem | lia]).
Qed.

Lemma parseSections_keeps (info info' : ILinkHeader) (sections : list string) :
  parseSections info sections = Ok info' ->
  (exists entries,
      pageData info' = pageData info ++ entries
      /\ length entries = length sections
      /\ Forall (fun entry => trim (pageUrl entry) = pageUrl entry
                              /\ trim (metadata entry) = metadata entry) entries)
  /\ ((0 <= prevPage info /\ 0 <= nextPage info /\ 0 <= totalPages info)%Z ->
      (0 <= prevPage info' /\ 0 <= nextPage info' /\ 0 <= totalPages info')%Z).
Proof.
  revert info. induction sections as [|section sections IH]; intros info.
  - intros [= <-]. split; [|done]. exists []. by rewrite app_nil_r.
  - cbn [parseSections].
    destruct (parseSection info section) as [info1|e] eqn:H1; [|done].
    apply parseSection_keeps in H1 as [(entry & Hdata & Htrim) Hnum1].
    intros [(entries & Hdata' & Hlen & Hall) Hnum2]%IH. split; [|tauto].
    exists (entry :: entries). rewrite Hdata', Hdata, <- app_assoc.
    split; [done|]. split; [cbn; by rewrite Hlen|]. by constructor.
Qed.

(** X12. A header string that parses leaves one entry in [pageData] for each
    of its comma-separated sections, whatever the relation of the section,
    and the URL and the metadata of every entry carry no surrounding
    blanks. *)
Theorem toLinkHeader_keeps_every_section (header : string) (lh : ILinkHeader) :
  toLinkHeader (inr header) = Ok (Some lh) ->
  length (pageData lh) = length (Utils.splitByComma header)
  /\ Forall (fun entry => trim (pageUrl entry) = pageUrl entry
                          /\ trim (metadata entry) = metadata entry)
       (pageData lh).
Proof.
  unfold toLinkHeader.
  destruct (Utils.isNullOrEmptyOrUndefined header); [done|].
  destruct (parseSections _ _) as [info|e] eqn:Hparse; [|done].
  intros [= <-].
  apply parseSections_keeps in Hparse as [(entries & Hdata & Hlen & Hall) _].
  cbn [pageData app] in Hdata. rewrite Hdata.
  split; [by rewrite Hlen, length_map | done].
Qed.

(** X13. The page numbers of a parsed Link header are never negative. *)
Theorem toLinkHeader_numbers_nonneg (responseOrHeaderString : Response + string)
  (lh : ILinkHeader) :
  toLinkHeader responseOrHeaderString = Ok (Some lh) ->
  (0 <= prevPage lh /\ 0 <= nextPage lh /\ 0 <= totalPages lh)%Z.
Proof.
  unfold toLinkHeader.
  destruct (match responseOrHeaderString with inl _ => _ | inr _ => _ end); [done|].
  destruct (parseSections _ _) as [info|e] eqn:Hparse; [|done].
  intros [= <-].
  apply parseSections_keeps in Hparse as [_ Hnum]. apply Hnum. cbn. lia.
Qed.

(** X14. Sections are taken in order and a later one overwrites: appending
    to a header that parses a section with a last relation sets
    [totalPages] to the page number of that section, whatever it was before,
    keeps [prevPage] and [nextPage], and adds the section to [pageData]. *)
Theorem later_last_section_wins (header url : string) (lh0 : ILinkHeader) :
  toLinkHeader (inr header) = Ok (Some lh0) ->
  includes "," url = false ->
  includes ";" url = false ->
  trimStart url = url ->
  trimEnd url = url ->
  toLinkHeader (inr (header +:+ "," +:+ url +:+ lastSuffix))
  = Ok (Some {| prevPage := prevPage lh0;
                nextPage := nextPage lh0;
                totalPages := getPageNumber url;
                pageData := pageData lh0
                            ++ [{| pageUrl := url; metadata := relLast |}] |}).
Proof.
  intros Hparse Hcomma Hsemi Hstart Hend.
  assert (Htrim : trim url = url) by (unfold trim; by rewrite Hstart).
  unfold toLinkHeader in *.
  destruct header as [|c0 header]; [done|].
  rewrite append_cons.
  cbn [Utils.isNullOrEmptyOrUndefined isEmpty] in *.
  rewrite <- append_cons.
  unfold Utils.splitByComma, Utils.splitBy in *.
  change ("," +:+ url +:+ lastSuffix) with (String "," (url +:+ lastSuffix)).
  rewrite split_app_sep, map_app, parseSections_app.
  destruct (parseSections _ (map trim (split "," (String c0 header))))
    as [info|e]; [|done].
  injection Hparse as ->.
  rewrite (split_no_sep "," (url +:+ lastSuffix))
    by (by apply includes_char_app).
  cbn [map parseSections].
  assert (Hsection : trim (url +:+ lastSuffix) = url +:+ lastSuffix).
  { unfold trim. rewrite trimStart_app by done. by rewrite trimEnd_app. }
  rewrite Hsection. unfold parseSection, Utils.splitBy.
  change lastSuffix with (String ";" (" " +:+ relLast)).
  rewrite split_app_sep, (split_no_sep ";" url) by done.
  change (split ";" (" " +:+ relLast)) with [" " +:+ relLast].
  cbn [app map lookup list_lookup].
  change (trim (trim (" " +:+ relLast))) with relLast.
  rewrite !Htrim. done.
Qed.

Lemma toLinkHeader_keeps_every_section_witness :
  length (pageData lastIsFive) = length (Utils.splitByComma (lastHeader "5"))
  /\ Forall (fun entry => trim (pageUrl entry) = pageUrl entry
                          /\ trim (metadata entry) = metadata entry)
       (pageData lastIsFive).
Proof.
  apply (toLinkHeader_keeps_every_section (lastHeader "5") lastIsFive).
  vm_compute. reflexivity.
Defined.

Lemma toLinkHeader_numbers_nonneg_witness :
  (0 <= prevPage lastIsFive /\ 0 <= nextPage lastIsFive
   /\ 0 <= totalPages lastIsFive)%Z.
Proof.
  apply (toLinkHeader_numbers_nonneg (inl (responseOf "5")) lastIsFive).
  vm_compute. reflexivity.
Defined.

Lemma later_last_section_wins_witness :
  toLinkHeader
    (inr (lastHeader "5" +:+ "," +:+ "<https://api.example.com/x?page=9>"
          +:+ lastSuffix))
  = Ok (Some {| prevPage := 0;
                nextPage := 0;
                totalPages := getPageNumber "<https://api.example.com/x?page=9>";
                pageData := pageData lastIsFive
                            ++ [{| pageUrl := "<https://api.example.com/x?page=9>";
                                   metadata := relLast |}] |}).
Proof.
  apply (later_last_section_wins (lastHeader "5")
           "<https://api.example.com/x?page=9>" lastIsFive).
  - vm_compute. reflexivity.
  - reflexivity.
  - reflexivity.
  - reflexivity.
  - reflexivity.
Defined.

End StringFacts.


(** * The variable service *)

Section ServiceFacts.

Import GitHubVariableService.

Implicit Types (this : Service) (s : ServiceState).
Implicit Types (orgVars repoVars : list GitHubVarModel) (n : string).

Lemma find_app_list {A : Type} (p : A -> bool) (l1 l2 : list A) :
  List.find p (l1 ++ l2)
  = match List.find p l1 with Some x => Some x | None => List.find p l2 end.
Proof.
  induction l1 as [|x l1 IH]; [done|]. cbn. by destruct (p x).
Qed.

Lemma find_filter_kept {A : Type} (p keep : A -> bool) (l : list A) :
  (forall x, p x = true -> keep x = true) ->
  List.find p (List.filter keep l) = List.find p l.
Proof.
  intros Hkeep. induction l as [|x l IH]; [done|]. cbn.
  destruct (p x) eqn:Hp.
  - rewrite (Hkeep x Hp). cbn. by rewrite Hp.
  - destruct (keep x); [cbn; by rewrite Hp | done].
Qed.

Lemma find_filter_dropped {A : Type} (p keep : A -> bool) (l : list A) :
  (forall x, p x = true -> keep x = false) ->
  List.find p (List.filter keep l) = None.
Proof.
  intros Hdrop. induction l as [|x l IH]; [done|]. cbn.
  destruct (keep x) eqn:Hk; [|done]. cbn.
  destruct (p x) eqn:Hp; [|done]. rewrite (Hdrop x Hp) in Hk. done.
Qed.

Lemma find_existsb {A : Type} (p : A -> bool) (l : list A) :
  existsb p l = match List.find p l with Some _ => true | None => false end.
Proof.
  induction l as [|x l IH]; [done|]. cbn. by destruct (p x).
Qed.

(** In the merged list the repository comes first. *)
Lemma find_merged orgVars repoVars n :
  List.find (fun v => String.eqb (name v) n) (mergedVars orgVars repoVars)
  = match List.find (fun v => String.eqb (name v) n) repoVars with
    | Some v => Some v
    | None => List.find (fun v => String.eqb (name v) n) orgVars
    end.
Proof.
  unfold mergedVars. rewrite find_app_list.
  destruct (List.find _ repoVars) as [v|] eqn:Hrepo.
  - rewrite find_filter_dropped; [done|].
    intros o Ho%String.eqb_eq. apply negb_false_iff, existsb_exists.
    apply find_some in Hrepo as [Hin Hv%String.eqb_eq].
    exists v. split; [done|]. apply String.eqb_eq. congruence.
  - rewrite find_filter_kept; [by destruct (List.find _ orgVars)|].
    intros o Ho%String.eqb_eq. apply negb_true_iff.
    apply not_true_is_false. intros (r & Hin & Hr%String.eqb_eq)%existsb_exists.
    pose proof (find_none _ _ Hrepo r Hin) as Hnone. cbn in Hnone.
    apply String.eqb_neq in Hnone. congruence.
Qed.

Lemma find_merged_defines orgVars repoVars n :
  defines (orgVars ++ repoVars) n
  = match List.find (fun v => String.eqb (name v) n) (mergedVars orgVars repoVars) with
    | Some _ => true
    | None => false
    end.
Proof.
  unfold defines. rewrite existsb_app, !find_existsb, find_merged.
  by destruct (List.find _ repoVars), (List.find _ orgVars).
Qed.

Lemma mergedVars_nil orgVars repoVars :
  mergedVars orgVars repoVars = [] <-> orgVars ++ repoVars = [].
Proof.
  unfold mergedVars. split.
  - intros [Horg ->]%app_eq_nil. rewrite app_nil_r.
    rewrite List.filter_true in Horg. by rewrite Horg. 
  - intros [-> ->]%app_eq_nil. done.
Qed.

(** A lookup with an empty cache calls the two clients and caches. *)
Lemma getVar_cold this s orgVars repoVars n :
  cachedVars s = [] ->
  orgClient_getVariables this (orgName this) = Resolved orgVars ->
  repoClient_getVariables this (repoName this) = Resolved repoVars ->
  getVar this n s
  = (Resolved (List.find (fun v => String.eqb (name v) n) (mergedVars orgVars repoVars)),
     {| cachedVars := mergedVars orgVars repoVars;
        clientCalls := clientCalls s
                       ++ [OrgVariables (orgName this); RepoVariables (repoName this)] |}).
Proof.
  intros Hcache Horg Hrepo.
  unfold getVar, awaitThen, readCached, callOrgClient, callRepoClient, pushCached,
    resolve.
  rewrite Hcache, Horg, Hrepo. cbn. rewrite Hcache. unfold mergedVars.
  cbn [app]. by rewrite <- (app_assoc (clientCalls s)).
Qed.

(** A lookup with a cache that holds a variable calls no client. *)
Lemma getVar_warm this s n :
  cachedVars s <> [] ->
  getVar this n s
  = (Resolved (List.find (fun v => String.eqb (name v) n) (cachedVars s)), s).
Proof.
  intros Hcache. unfold getVar, awaitThen, readCached, resolve.
  destruct (cachedVars s) as [|v vars] eqn:Hc; [done|]. cbn. by rewrite Hc.
Qed.

(** Whatever the cache holds of the merged list, a lookup finds what the
    merged list holds, and leaves the cache empty or merged. *)
Lemma getVar_any this s orgVars repoVars n :
  orgClient_getVariables this (orgName this) = Resolved orgVars ->
  repoClient_getVariables this (repoName this) = Resolved repoVars ->
  cachedVars s = [] \/ cachedVars s = mergedVars orgVars repoVars ->
  fst (getVar this n s)
  = Resolved (List.find (fun v => String.eqb (name v) n) (mergedVars orgVars repoVars))
  /\ cachedVars (snd (getVar this n s)) = mergedVars orgVars repoVars.
Proof.
  intros Horg Hrepo Hcache.
  destruct (cachedVars s) as [|v vars] eqn:Hc.
  - by rewrite (getVar_cold this s orgVars repoVars).
  - destruct Hcache as [? | Hcache]; [done|].
    rewrite getVar_warm by congruence. cbn [fst snd]. by rewrite Hc, Hcache.
Qed.

Lemma collectMissing_spec this orgVars repoVars (names acc : list string) s :
  orgClient_getVariables this (orgName this) = Resolved orgVars ->
  repoClient_getVariables this (repoName this) = Resolved repoVars ->
  cachedVars s = [] \/ cachedVars s = mergedVars orgVars repoVars ->
  fst (collectMissing this names acc s)
  = Resolved (acc ++ List.filter (fun n => negb (defines (orgVars ++ repoVars) n)) names).
Proof.
  intros Horg Hrepo. revert acc s.
  induction names as [|n names IH]; intros acc s Hcache.
  - cbn. by rewrite app_nil_r.
  - cbn [collectMissing List.filter]. unfold awaitThen at 1.
    destruct (getVar_any this s orgVars repoVars n Horg Hrepo Hcache) as [Hfst Hsnd].
    rewrite find_merged_defines.
    destruct (getVar this n s) as [r s']. cbn [fst snd] in *. subst r.
    destruct (List.find _ (mergedVars orgVars repoVars)); cbn [negb].
    + apply IH. by right.
    + rewrite IH by (by right). by rewrite <- app_assoc.
Qed.

(** X15. A variable of the repository hides the variable of the
    organization that bears the same name, and a variable that only the
    organization defines is found there: [getValue] resolves with the
    trimmed value of the first repository variable of that name, or else of
    the first organization variable of that name. *)
Theorem getValue_repo_hides_org this s orgVars repoVars n (b : bool) :
  cachedVars s = [] ->
  orgClient_getVariables this (orgName this) = Resolved orgVars ->
  repoClient_getVariables this (repoName this) = Resolved repoVars ->
  (forall v, List.find (fun v => String.eqb (name v) n) repoVars = Some v ->
             fst (getValue this n b s) = Resolved (JsString.trim (value v)))
  /\ (forall v, List.find (fun v => String.eqb (name v) n) repoVars = None ->
                List.find (fun v => String.eqb (name v) n) orgVars = Some v ->
                fst (getValue this n b s) = Resolved (JsString.trim (value v))).
Proof.
  intros Hcache Horg Hrepo.
  unfold getValue, awaitThen.
  rewrite (getVar_cold this s orgVars repoVars) by done. rewrite find_merged.
  split.
  - intros v ->. done.
  - intros v -> ->. done.
Qed.

(** X16. When neither the organization nor the repository defines the
    name, [getValue] rejects with the message that names the variable, or,
    with [throwErrorWhenNotFound] off, resolves with the empty string. *)
Theorem getValue_missing this s orgVars repoVars n :
  cachedVars s = [] ->
  orgClient_getVariables this (orgName this) = Resolved orgVars ->
  repoClient_getVariables this (repoName this) = Resolved repoVars ->
  defines (orgVars ++ repoVars) n = false ->
  fst (getValue this n false s) = Resolved EmptyString
  /\ fst (getValue this n true s)
     = Rejected ("The variable '" +:+ n +:+ "' was not found.").
Proof.
  intros Hcache Horg Hrepo Hnone.
  unfold getValue, awaitThen.
  rewrite (getVar_cold this s orgVars repoVars) by done.
  rewrite find_merged_defines in Hnone.
  by destruct (List.find _ (mergedVars orgVars repoVars)).
Qed.

(** X17. [allVarsExist] lists the names that neither the organization nor
    the repository defines, in the order in which they were given, and its
    flag is true exactly when every name is defined. *)
Theorem allVarsExist_lists_missing this s orgVars repoVars (names : list string) :
  cachedVars s = [] ->
  orgClient_getVariables this (orgName this) = Resolved orgVars ->
  repoClient_getVariables this (repoName this) = Resolved repoVars ->
  fst (allVarsExist this names s)
  = Resolved (forallb (defines (orgVars ++ repoVars)) names,
              List.filter (fun n => negb (defines (orgVars ++ repoVars) n)) names).
Proof.
  intros Hcache Horg Hrepo. unfold allVarsExist, awaitThen.
  pose proof (collectMissing_spec this orgVars repoVars names [] s Horg Hrepo
                (or_introl Hcache)) as Hspec.
  destruct (collectMissing this names [] s) as [r s']. cbn [fst] in Hspec. subst r.
  cbn [app resolve fst]. do 2 f_equal.
  induction names as [|n names IH]; [done|]. cbn [List.filter forallb].
  destruct (defines (orgVars ++ repoVars) n); cbn; [apply IH | done].
Qed.

(** X18. The cache: once a lookup has stored a variable, a later lookup
    calls no client and answers from the cache, with the first variable of
    that name among those stored, or [undefined]; when neither the
    organization nor the repository has any variable, the cache stays
    empty, the later lookup calls both clients again and answers
    [undefined]. *)
Theorem getVar_cache this orgVars repoVars (n1 n2 : string) :
  orgClient_getVariables this (orgName this) = Resolved orgVars ->
  repoClient_getVariables this (repoName this) = Resolved repoVars ->
  cachedVars (snd (getVar this n1 newService)) = mergedVars orgVars repoVars
  /\ getVar this n2 (snd (getVar this n1 newService))
     = (Resolved (List.find (fun v => String.eqb (name v) n2)
                    (cachedVars (snd (getVar this n1 newService)))),
        {| cachedVars := mergedVars orgVars repoVars;
           clientCalls :=
             match orgVars ++ repoVars with
             | _ :: _ => [OrgVariables (orgName this); RepoVariables (repoName this)]
             | [] => [OrgVariables (orgName this); RepoVariables (repoName this);
                      OrgVariables (orgName this); RepoVariables (repoName this)]
             end |}).
Proof.
  intros Horg Hrepo.
  rewrite (getVar_cold this newService orgVars repoVars) by done.
  cbn [snd clientCalls cachedVars newService app]. split; [done|].
  destruct (orgVars ++ repoVars) as [|v vars] eqn:Hvars.
  - apply mergedVars_nil in Hvars as Hmerged.
    rewrite (getVar_cold this _ orgVars repoVars); [|by rewrite Hmerged|done..].
    done.
  - rewrite getVar_warm; [done|].
    cbn [cachedVars]. rewrite mergedVars_nil. congruence.
Qed.

(** X19. When the client of the organization fails, [getValue] rejects with
    the error of the client, also with [throwErrorWhenNotFound] off; the
    client of the repository is not called and nothing is cached. *)
Theorem getValue_org_failure this s n (b : bool) (e : string) :
  cachedVars s = [] ->
  orgClient_getVariables this (orgName this) = Rejected e ->
  getValue this n b s
  = (Rejected e,
     {| cachedVars := [];
        clientCalls := clientCalls s ++ [OrgVariables (orgName this)] |}).
Proof.
  intros Hcache Horg.
  unfold getValue, getVar, awaitThen, readCached, callOrgClient.
  rewrite Hcache, Horg. cbn. by rewrite Hcache.
Qed.

Lemma getValue_repo_hides_org_witness :
  fst (getValue (serviceOf sampleOrgVars sampleRepoVars) "TWITTER_BROADCAST_ENABLED"
         true newService)
  = Resolved "true"
  /\ fst (getValue (serviceOf sampleOrgVars sampleRepoVars) "DISCORD_INVITE_CODE"
            true newService)
     = Resolved "org-code".
Proof.
  split.
  - apply (proj1 (getValue_repo_hides_org (serviceOf sampleOrgVars sampleRepoVars)
                    newService sampleOrgVars sampleRepoVars
                    "TWITTER_BROADCAST_ENABLED" true eq_refl eq_refl eq_refl)
             {| name := "TWITTER_BROADCAST_ENABLED"; value := " true " |}).
    reflexivity.
  - apply (proj2 (getValue_repo_hides_org (serviceOf sampleOrgVars sampleRepoVars)
                    newService sampleOrgVars sampleRepoVars
                    "DISCORD_INVITE_CODE" true eq_refl eq_refl eq_refl)
             {| name := "DISCORD_INVITE_CODE"; value := " org-code " |});
      reflexivity.
Defined.

Lemma getValue_missing_witness :
  fst (getValue (serviceOf sampleOrgVars sampleRepoVars) "NOPE" false newService)
  = Resolved EmptyString
  /\ fst (getValue (serviceOf sampleOrgVars sampleRepoVars) "NOPE" true newService)
     = Rejected ("The variable '" +:+ "NOPE" +:+ "' was not found.").
Proof.
  apply (getValue_missing (serviceOf sampleOrgVars sampleRepoVars) newService
           sampleOrgVars sampleRepoVars "NOPE"); reflexivity.
Defined.

Lemma allVarsExist_lists_missing_witness :
  fst (allVarsExist (serviceOf sampleOrgVars sampleRepoVars)
         ["NOPE"; "DISCORD_INVITE_CODE"; "ALSO_MISSING"] newService)
  = Resolved (forallb (defines (sampleOrgVars ++ sampleRepoVars))
                ["NOPE"; "DISCORD_INVITE_CODE"; "ALSO_MISSING"],
              List.filter (fun n => negb (defines (sampleOrgVars ++ sampleRepoVars) n))
                ["NOPE"; "DISCORD_INVITE_CODE"; "ALSO_MISSING"]).
Proof.
  apply (allVarsExist_lists_missing (serviceOf sampleOrgVars sampleRepoVars)
           newService sampleOrgVars sampleRepoVars); reflexivity.
Defined.

Lemma getVar_cache_witness :
  getVar (serviceOf sampleOrgVars sampleRepoVars) "TWITTER_BROADCAST_ENABLED"
    (snd (getVar (serviceOf sampleOrgVars sampleRepoVars) "A" newService))
  = (Resolved (Some {| name := "TWITTER_BROADCAST_ENABLED"; value := " true " |}),
     {| cachedVars := mergedVars sampleOrgVars sampleRepoVars;
        clientCalls := [OrgVariables "KinsonDigital"; RepoVariables "Infrastructure"] |})
  /\ getVar (serviceOf [] []) "B" (snd (getVar (serviceOf [] []) "A" newService))
     = (Resolved None,
        {| cachedVars := [];
           clientCalls :=
             [OrgVariables "KinsonDigital"; RepoVariables "Infrastructure";
              OrgVariables "KinsonDigital"; RepoVariables "Infrastructure"] |}).
Proof.
  split.
  - rewrite (proj2 (getVar_cache (serviceOf sampleOrgVars sampleRepoVars)
                      sampleOrgVars sampleRepoVars "A" "TWITTER_BROADCAST_ENABLED"
                      eq_refl eq_refl)).
    reflexivity.
  - rewrite (proj2 (getVar_cache (serviceOf [] []) [] [] "A" "B" eq_refl eq_refl)).
    reflexivity.
Defined.

Lemma getValue_org_failure_witness :
  getValue orgDown "ANY" false newService
  = (Rejected "401",
     {| cachedVars := []; clientCalls := [] ++ [OrgVariables (orgName orgDown)] |}).
Proof.
  apply (getValue_org_failure orgDown newService "ANY" false "401"); reflexivity.
Defined.

End ServiceFacts.

Section SearchOutcome.

Context {T : Type}.

Implicit Types (getData : GetDataFunc T) (until : list T -> bool).
Implicit Types (groupA groupB : list Z) (w : World T).

Local Open Scope Z_scope.

(** The rounds print nothing. *)
Lemma untilRounds_errorLog getData q until groupA groupB scheds (rounds : list nat) w :
  errorLog (snd (untilRounds getData q until groupA groupB scheds rounds w))
  = errorLog w.
Proof.
  revert w. induction rounds as [|i rounds IH]; intros w; [done|].
  cbn [untilRounds]. unfold bind. rewrite untilRound_unfold. cbv zeta.
  destruct (promiseAll (scheds i) _) as [results | e]; [|done].
  rewrite roundCheck_run. cbv zeta.
  destruct (pageMatches until _); [done|].
  destruct (pageMatches until _); [done|].
  by rewrite IH.
Qed.

(** The search when every page can be fetched: it returns, prints nothing,
    and what it returns is a fetched page on which the predicate holds, or
    the empty sequence when no page matches. *)
Lemma getAllDataUntil_outcome getData page qtyPerPage until scheds w
  (seedItems : list T) response linkHeader :
  let q := Utils.clamp qtyPerPage 1 100 in
  let N := untilPagesLeft linkHeader in
  let run := getAllDataUntil getData page qtyPerPage until scheds w in
  getData (startPage page) q = Resolved (seedItems, response) ->
  toLinkHeader (inl response) = Ok linkHeader ->
  (forall i, 2 <= i <= N -> exists r, getData i q = Resolved r) ->
  exists items,
    fst run = Return items
    /\ errorLog (snd run) = errorLog w
    /\ ((until items = true
         /\ exists p r, (p = startPage page \/ 2 <= p <= N)
                        /\ getData p q = Resolved (items, r))
        \/ (items = []
            /\ until seedItems = false
            /\ forall i items' r, 2 <= i <= N ->
                                  getData i q = Resolved (items', r) ->
                                  pageMatches until items' = false)).
Proof.
  intros q N run Hseed Hlh Hpages. unfold run.
  rewrite getAllDataUntil_unfold. unfold getAllDataUntil_cases. fold q.
  rewrite Hseed, Hlh. fold N.
  destruct (until seedItems) eqn:Hu.
  { exists seedItems. split; [done|]. split; [done|]. left. split; [done|].
    exists (startPage page), response. by split; [left|]. }
  set (w2 := logUntil (logFetches w [(startPage page, q)]) [seedItems]).
  pose proof (untilRounds_spec getData q until (fst (searchGroups N))
                (snd (searchGroups N)) scheds (seq 0 (maxLen (searchGroups N))) w2)
    as Hspec.
  pose proof (untilRounds_errorLog getData q until (fst (searchGroups N))
                (snd (searchGroups N)) scheds (seq 0 (maxLen (searchGroups N))) w2)
    as Herr.
  destruct (untilRounds_returns getData q until (fst (searchGroups N))
              (snd (searchGroups N)) scheds (seq 0 (maxLen (searchGroups N))) w2)
    as [items Hret].
  { intros i p Hi Hp. apply Hpages. by eapply search_round_page. }
  destruct (untilRounds _ _ _ _ _ _ _ _) as [[items' | e | c] w3];
    cbn [fst snd] in *; [|done|done].
  exists items'. split; [done|]. split; [done|].
  destruct Hspec as [(Hm & i & p & r & Hi & Hp & Hg & _) | (-> & _ & Hnone)].
  - left. apply pageMatches_true in Hm as [_ Hm]. split; [done|].
    exists p, r. split; [right; by eapply search_round_page | done].
  - right. split; [done|]. split; [done|].
    intros i items' r Hi Hg.
    assert (Hin : i ∈ ascending 2 N) by (apply elem_of_seqZ; lia).
    rewrite <- search_rounds_cover in Hin.
    apply list_elem_of_bind in Hin as (j & Hp & Hj).
    by eapply Hnone.
Qed.

End SearchOutcome.

Section MilestoneFacts.

Import MilestoneClient.

Variable Guard_isNullOrEmptyOrUndefined :
  string -> string -> string -> M IMilestoneModel unit.
Variable getMilestones : string -> GetDataFunc IMilestoneModel.

Implicit Types (w : World IMilestoneModel) (m : IMilestoneModel).

Local Open Scope Z_scope.

Lemma find_titled (name : string) (items : list IMilestoneModel) :
  match List.find (titled name) items with
  | Some m => m ∈ items /\ JsString.trim (title m) = name
  | None => forall m, m ∈ items -> JsString.trim (title m) <> name
  end.
Proof.
  induction items as [|m items IH]; cbn [List.find].
  - by intros m ?%elem_of_nil.
  - unfold titled at 1. destruct (String.eqb_spec (JsString.trim (title m)) name) as [He|He].
    + split; [apply list_elem_of_here | done].
    + destruct (List.find (titled name) items) as [m'|].
      * destruct IH. split; [by apply list_elem_of_further | done].
      * intros m' [-> | Hin]%elem_of_cons; [done | by apply IH].
Qed.

Lemma existsb_titled (name : string) (items : list IMilestoneModel) :
  existsb (titled name) items = true
  <-> exists m, m ∈ items /\ JsString.trim (title m) = name.
Proof.
  rewrite existsb_exists. split; intros (m & Hin & Hm); exists m.
  - split; [by apply list_elem_of_In|]. by apply String.eqb_eq.
  - split; [by apply list_elem_of_In|]. by apply String.eqb_eq.
Qed.

(** What the search of both methods finds, when the pages can be fetched. *)
Lemma searchMilestones_outcome repoName (name : string) scheds w
  (seedItems : list IMilestoneModel) response linkHeader :
  let N := untilPagesLeft linkHeader in
  let run := searchMilestones getMilestones repoName name scheds w in
  getMilestones repoName 1 100 = Resolved (seedItems, response) ->
  toLinkHeader (inl response) = Ok linkHeader ->
  (forall i, 2 <= i <= N -> exists r, getMilestones repoName i 100 = Resolved r) ->
  exists items,
    fst run = Return items
    /\ errorLog (snd run) = errorLog w
    /\ ((exists m k r, List.find (titled name) items = Some m
                       /\ (k = 1 \/ 2 <= k <= N)
                       /\ getMilestones repoName k 100 = Resolved (items, r))
        \/ (List.find (titled name) items = None
            /\ forall k items' r m,
                k = 1 \/ 2 <= k <= N ->
                getMilestones repoName k 100 = Resolved (items', r) ->
                m ∈ items' -> JsString.trim (title m) <> name)).
Proof.
  intros N run Hseed Hlh Hpages. unfold run, searchMilestones.
  destruct (getAllDataUntil_outcome
              (fun page qtyPerPage => getMilestones repoName page qtyPerPage)
              1 100 (fun data => existsb (titled name) data) scheds w
              seedItems response linkHeader Hseed Hlh Hpages)
    as (items & Hret & Herr & Hcases).
  exists items. split; [done|]. split; [done|].
  destruct Hcases as [(Hu & p & r & Hp & Hg) | (-> & Hu & Hnone)].
  - left. apply existsb_titled in Hu as (m0 & Hin & Hm0).
    pose proof (find_titled name items) as Hfind.
    destruct (List.find (titled name) items) as [m|]; [|by destruct (Hfind m0)].
    by exists m, p, r.
  - right. split; [done|].
    intros k items' r m [-> | Hk] Hg Hin Hm.
    + change (getMilestones repoName 1 100 = Resolved (items', r)) in Hg.
      rewrite Hseed in Hg. injection Hg as <- _.
      assert (existsb (titled name) seedItems = true) as Hyes
        by (apply existsb_titled; eauto).
      congruence.
    + specialize (Hnone k items' r Hk Hg). unfold pageMatches in Hnone.
      assert (existsb (titled name) items' = true) as Hyes
        by (apply existsb_titled; eauto).
      rewrite Hyes, andb_true_r in Hnone. by destruct items'.
Qed.

(** X20. [milestoneExists], the two guards passing and the pages being
    fetched, answers true exactly when a milestone of page 1 or of one of
    the pages [2..N] has the trimmed name as its trimmed title. *)
Theorem milestoneExists_correct repoName milestoneName scheds w
  (seedItems : list IMilestoneModel) response linkHeader :
  let N := untilPagesLeft linkHeader in
  let run := milestoneExists Guard_isNullOrEmptyOrUndefined getMilestones
               repoName milestoneName scheds w in
  Guard_isNullOrEmptyOrUndefined repoName "milestoneExists" "repoName" w
  = (Return tt, w) ->
  Guard_isNullOrEmptyOrUndefined milestoneName "milestoneExists" "milestoneName" w
  = (Return tt, w) ->
  getMilestones repoName 1 100 = Resolved (seedItems, response) ->
  toLinkHeader (inl response) = Ok linkHeader ->
  (forall i, 2 <= i <= N -> exists r, getMilestones repoName i 100 = Resolved r) ->
  exists b : bool,
    fst run = Return b
    /\ (b = true
        <-> exists k items r m,
             (k = 1 \/ 2 <= k <= N)
             /\ getMilestones repoName k 100 = Resolved (items, r)
             /\ m ∈ items
             /\ JsString.trim (title m) = JsString.trim milestoneName).
Proof.
  intros N run Hg1 Hg2 Hseed Hlh Hpages. unfold run, milestoneExists.
  unfold bind at 1. rewrite Hg1. unfold bind at 1. rewrite Hg2.
  unfold bind at 1.
  destruct (searchMilestones_outcome repoName (JsString.trim milestoneName) scheds w
              seedItems response linkHeader Hseed Hlh Hpages)
    as (items & Hret & _ & Hcases).
  destruct (searchMilestones _ _ _ _ _) as [[items0 | e | c] w3];
    cbn [fst snd] in *; [|done|done].
  injection Hret as ->. unfold ret. cbn [fst]. eexists. split; [done|].
  destruct Hcases as [(m & k & r & Hf & Hk & Hg) | (Hf & Hnone)]; rewrite Hf.
  - split; [|done]. intros _. exists k, items, r, m.
    pose proof (find_titled (JsString.trim milestoneName) items) as Hfind.
    rewrite Hf in Hfind. by destruct Hfind.
  - split; [done|]. intros (k & items' & r & m & Hk & Hg & Hin & Hm).
    by destruct (Hnone k items' r m).
Qed.

(** X21. [getMilestoneByName], the two guards passing and the pages being
    fetched: when a milestone of page 1 or of one of the pages [2..N] has
    the trimmed name as its trimmed title, such a milestone is returned,
    taken from one of these pages, and nothing is printed. *)
Theorem getMilestoneByName_found repoName milestoneName scheds w
  (seedItems : list IMilestoneModel) response linkHeader
  (k : Z) (itemsK : list IMilestoneModel) rK (mK : IMilestoneModel) :
  let N := untilPagesLeft linkHeader in
  let run := getMilestoneByName Guard_isNullOrEmptyOrUndefined getMilestones
               repoName milestoneName scheds w in
  Guard_isNullOrEmptyOrUndefined repoName "getMilestoneByName" "repoName" w
  = (Return tt, w) ->
  Guard_isNullOrEmptyOrUndefined milestoneName "getMilestoneByName" "milestoneName" w
  = (Return tt, w) ->
  getMilestones repoName 1 100 = Resolved (seedItems, response) ->
  toLinkHeader (inl response) = Ok linkHeader ->
  (forall i, 2 <= i <= N -> exists r, getMilestones repoName i 100 = Resolved r) ->
  k = 1 \/ 2 <= k <= N ->
  getMilestones repoName k 100 = Resolved (itemsK, rK) ->
  mK ∈ itemsK ->
  JsString.trim (title mK) = JsString.trim milestoneName ->
  exists m p items r,
    fst run = Return m
    /\ errorLog (snd run) = errorLog w
    /\ JsString.trim (title m) = JsString.trim milestoneName
    /\ (p = 1 \/ 2 <= p <= N)
    /\ getMilestones repoName p 100 = Resolved (items, r)
    /\ m ∈ items.
Proof.
  intros N run Hg1 Hg2 Hseed Hlh Hpages Hk HgK Hin HmK.
  unfold run, getMilestoneByName. cbv zeta.
  unfold bind. rewrite Hg1, Hg2.
  destruct (searchMilestones_outcome repoName (JsString.trim milestoneName) scheds w
              seedItems response linkHeader Hseed Hlh Hpages)
    as (items & Hret & Herr & Hcases).
  destruct (searchMilestones _ _ _ _ _) as [[items0 | e | c] w3];
    cbn [fst snd] in *; [|done|done].
  injection Hret as ->.
  destruct Hcases as [(m & p & r & Hf & Hp & Hg) | (Hf & Hnone)].
  - rewrite Hf. unfold ret. cbn [fst snd]. exists m, p, items, r.
    pose proof (find_titled (JsString.trim milestoneName) items) as Hfind.
    rewrite Hf in Hfind. destruct Hfind as [Hin' Hm]. repeat split; done.
  - by destruct (Hnone k itemsK rK mK).
Qed.

(** X22. [getMilestoneByName], the two guards passing and the pages being
    fetched: when no milestone of page 1 or of the pages [2..N] has the
    trimmed name as its trimmed title, the run prints that the milestone
    could not be found and exits with code 1. *)
Theorem getMilestoneByName_missing repoName milestoneName scheds w
  (seedItems : list IMilestoneModel) response linkHeader :
  let N := untilPagesLeft linkHeader in
  let run := getMilestoneByName Guard_isNullOrEmptyOrUndefined getMilestones
               repoName milestoneName scheds w in
  Guard_isNullOrEmptyOrUndefined repoName "getMilestoneByName" "repoName" w
  = (Return tt, w) ->
  Guard_isNullOrEmptyOrUndefined milestoneName "getMilestoneByName" "milestoneName" w
  = (Return tt, w) ->
  getMilestones repoName 1 100 = Resolved (seedItems, response) ->
  toLinkHeader (inl response) = Ok linkHeader ->
  (forall i, 2 <= i <= N -> exists r, getMilestones repoName i 100 = Resolved r) ->
  (forall k items r m,
      k = 1 \/ 2 <= k <= N ->
      getMilestones repoName k 100 = Resolved (items, r) ->
      m ∈ items -> JsString.trim (title m) <> JsString.trim milestoneName) ->
  fst run = Exit 1
  /\ errorLog (snd run)
     = errorLog w
       ++ ["The milestone '" +:+ JsString.trim milestoneName
           +:+ "' could not be found."].
Proof.
  intros N run Hg1 Hg2 Hseed Hlh Hpages Hnone.
  unfold run, getMilestoneByName. cbv zeta.
  unfold bind. rewrite Hg1, Hg2.
  destruct (searchMilestones_outcome repoName (JsString.trim milestoneName) scheds w
              seedItems response linkHeader Hseed Hlh Hpages)
    as (items & Hret & Herr & Hcases).
  destruct (searchMilestones _ _ _ _ _) as [[items0 | e | c] w3];
    cbn [fst snd] in *; [|done|done].
  injection Hret as ->.
  destruct Hcases as [(m & p & r & Hf & Hp & Hg) | (Hf & _)].
  - pose proof (find_titled (JsString.trim milestoneName) items) as Hfind.
    rewrite Hf in Hfind. destruct Hfind as [Hin Hm].
    by destruct (Hnone p items r m).
  - rewrite Hf. unfold printAsGitHubError, DenoExit. cbn [fst snd errorLog].
    by rewrite Herr.
Qed.

End MilestoneFacts.

Section MilestoneSamples.

Import MilestoneClient.

Local Open Scope Z_scope.

Lemma milestoneExists_correct_witness :
  exists b : bool,
    fst (milestoneExists noGuard milestonePages "Velaptor" "v1.2.3 " inOrder emptyWorld)
    = Return b
    /\ (b = true
        <-> exists k items r m,
             (k = 1 \/ 2 <= k <= 5)
             /\ milestonePages "Velaptor" k 100 = Resolved (items, r)
             /\ m ∈ items
             /\ JsString.trim (title m) = JsString.trim "v1.2.3 ").
Proof.
  apply (milestoneExists_correct noGuard milestonePages "Velaptor" "v1.2.3 "
           inOrder emptyWorld
           [{| title := "v1.0.0"; number := 1 |}; {| title := "v0.9.0"; number := 101 |}]
           (responseOf "5") (Some lastIsFive)).
  - reflexivity.
  - reflexivity.
  - reflexivity.
  - vm_compute. reflexivity.
  - intros i _. eexists. reflexivity.
Defined.

Lemma getMilestoneByName_found_witness :
  exists m p items r,
    fst (getMilestoneByName noGuard milestonePages "Velaptor" "v1.2.3 " inOrder
           emptyWorld)
    = Return m
    /\ errorLog (snd (getMilestoneByName noGuard milestonePages "Velaptor" "v1.2.3 "
                        inOrder emptyWorld))
       = errorLog (emptyWorld : World IMilestoneModel)
    /\ JsString.trim (title m) = JsString.trim "v1.2.3 "
    /\ (p = 1 \/ 2 <= p <= 5)
    /\ milestonePages "Velaptor" p 100 = Resolved (items, r)
    /\ m ∈ items.
Proof.
  apply (getMilestoneByName_found noGuard milestonePages "Velaptor" "v1.2.3 "
           inOrder emptyWorld
           [{| title := "v1.0.0"; number := 1 |}; {| title := "v0.9.0"; number := 101 |}]
           (responseOf "5") (Some lastIsFive) 3
           [{| title := "v1.0.0"; number := 3 |}; {| title := " v1.2.3 "; number := 103 |}]
           (responseOf "5") {| title := " v1.2.3 "; number := 103 |}).
  - reflexivity.
  - reflexivity.
  - reflexivity.
  - vm_compute. reflexivity.
  - intros i _. eexists. reflexivity.
  - right. cbn. lia.
  - reflexivity.
  - apply list_elem_of_further, list_elem_of_here.
  - reflexivity.
Defined.

Lemma getMilestoneByName_missing_witness :
  fst (getMilestoneByName noGuard milestonePages "Velaptor" "v2.0.0" inOrder emptyWorld)
  = Exit 1
  /\ errorLog (snd (getMilestoneByName noGuard milestonePages "Velaptor" "v2.0.0"
                      inOrder emptyWorld))
     = errorLog (emptyWorld : World IMilestoneModel)
       ++ ["The milestone '" +:+ JsString.trim "v2.0.0" +:+ "' could not be found."].
Proof.
  apply (getMilestoneByName_missing noGuard milestonePages "Velaptor" "v2.0.0"
           inOrder emptyWorld
           [{| title := "v1.0.0"; number := 1 |}; {| title := "v0.9.0"; number := 101 |}]
           (responseOf "5") (Some lastIsFive)).
  - reflexivity.
  - reflexivity.
  - reflexivity.
  - vm_compute. reflexivity.
  - intros i _. eexists. reflexivity.
  - intros k items r m _ Hg Hin. unfold milestonePages in Hg.
    injection Hg as <- _.
    apply elem_of_cons in Hin as [-> | Hin]; [by vm_compute|].
    apply elem_of_cons in Hin as [-> | Hin]; [|by apply elem_of_nil in Hin].
    cbn [title]. by destruct (k =? 3); vm_compute.
Defined.

End MilestoneSamples.

Section BranchFacts.

Import GitClient.

Variable this : Client.
Variable Guard_isNullOrEmptyOrUndefined : string -> string -> string -> G unit.

Implicit Types (untilPredicate : option (GitBranchModel -> bool)).
Implicit Types (p : GitBranchModel -> bool) (net : Net).
Implicit Types (init rest : list RawRefsGetBranchModel) (last : RawRefsGetBranchModel).

Lemma upToFirst_app {A : Type} (p : A -> bool) (a b : list A) :
  upToFirst p (a ++ b)
  = if existsb p a then upToFirst p a else a ++ upToFirst p b.
Proof.
  induction a as [|x a IH]; [done|]. cbn. destruct (p x); [done|].
  rewrite IH. by destruct (existsb p a).
Qed.

Lemma upToFirst_split {A : Type} (p : A -> bool) (before after : list A) (b : A) :
  Forall (fun x => p x = false) before -> p b = true ->
  upToFirst p (before ++ b :: after) = before ++ [b].
Proof.
  intros Hbefore Hb. induction Hbefore as [|x before Hx _ IH]; cbn.
  - by rewrite Hb.
  - by rewrite Hx, IH.
Qed.

Lemma upToFirst_never {A : Type} (l : list A) : upToFirst (fun _ => false) l = l.
Proof. induction l as [|x l IH]; [done|]. cbn. by rewrite IH. Qed.

Lemma upToFirst_nil {A : Type} (p : A -> bool) (l : list A) :
  (length (upToFirst p l) <=? 0)%nat = match l with [] => true | _ => false end.
Proof. destruct l as [|x l]; [done|]. cbn. by destruct (p x). Qed.

Lemma upToFirst_find {A : Type} (p : A -> bool) (l : list A) :
  head (List.filter p (upToFirst p l)) = List.find p l.
Proof.
  induction l as [|x l IH]; [done|]. cbn. destruct (p x) eqn:Hx; cbn.
  - by rewrite Hx.
  - by rewrite Hx.
Qed.

Lemma upToFirst_existsb {A : Type} (p : A -> bool) (l : list A) :
  existsb p (upToFirst p l) = existsb p l.
Proof.
  induction l as [|x l IH]; [done|]. cbn. destruct (p x) eqn:Hx; cbn.
  - by rewrite Hx.
  - by rewrite Hx.
Qed.

(** The [for] loop appends the branches up to the first at which the
    predicate stops, and stops when there is one. *)
Lemma pushBranches_spec untilPredicate (branches result : list GitBranchModel) :
  pushBranches untilPredicate branches result
  = (result ++ upToFirst (stopsAt untilPredicate) branches,
     existsb (stopsAt untilPredicate) branches).
Proof.
  revert result. induction branches as [|branch branches IH]; intros result.
  - cbn. by rewrite app_nil_r.
  - cbn [pushBranches upToFirst existsb]. cbv zeta.
    assert (Hstop : match untilPredicate with
                    | Some predicate => predicate branch
                    | None => false
                    end = stopsAt untilPredicate branch) by by destruct untilPredicate.
    rewrite Hstop. destruct (stopsAt untilPredicate branch); [done|].
    rewrite IH. cbn. by rewrite <- app_assoc.
Qed.

Lemma branchesOf_cons (responseData : RawRefsGetBranchModel) pages :
  branchesOf (responseData :: pages)
  = (toBranch <$> nodes responseData) ++ branchesOf pages.
Proof. done. Qed.

Lemma upToFirst_none {A : Type} (p : A -> bool) (l : list A) :
  existsb p l = false -> upToFirst p l = l.
Proof.
  induction l as [|x l IH]; [done|]. cbn. destruct (p x); [done|].
  intros H. by rewrite IH.
Qed.

Lemma whileHasNextPage_done untilPredicate pageInfo' (result : list GitBranchModel)
  (toCome : list RawRefsGetBranchModel) (queries : list Query) :
  hasNextPage pageInfo' = false ->
  whileHasNextPage this untilPredicate pageInfo' result toCome queries
  = Some (result, toCome, queries).
Proof. intros Hlast. destruct toCome; cbn; by rewrite Hlast. Qed.

(** The loop over a listing: answers that announce a next page, then one
    that does not. *)
Lemma whileHasNextPage_listing untilPredicate init last rest pageInfo'
  (result : list GitBranchModel) (queries : list Query) :
  hasNextPage pageInfo' = true ->
  Forall (fun responseData => hasNextPage (pageInfo responseData) = true) init ->
  hasNextPage (pageInfo last) = false ->
  exists toCome queries',
    whileHasNextPage this untilPredicate pageInfo' result (init ++ last :: rest) queries
    = Some (result ++ upToFirst (stopsAt untilPredicate) (branchesOf (init ++ [last])),
            toCome, queries')
    /\ (existsb (stopsAt untilPredicate) (branchesOf (init ++ [last])) = false ->
        toCome = rest
        /\ length queries' = (length queries + length init + 1)%nat).
Proof.
  intros Hnext Hinit Hlast. revert pageInfo' result queries Hnext.
  induction Hinit as [|responseData init Hmore _ IH]; intros pageInfo' result queries Hnext.
  - cbn [app whileHasNextPage]. rewrite Hnext. cbv zeta.
    rewrite pushBranches_spec.
    rewrite branchesOf_cons. change (branchesOf []) with (@nil GitBranchModel).
    rewrite app_nil_r.
    destruct (existsb _ _) eqn:Hstop.
    + eexists _, _. split; [done | done].
    + rewrite (whileHasNextPage_done _ _ _ _ _ Hlast). eexists _, _. split; [done|].
      intros _. split; [done|]. rewrite length_app. cbn. lia.
  - cbn [app whileHasNextPage]. rewrite Hnext. cbv zeta.
    rewrite pushBranches_spec. rewrite branchesOf_cons, upToFirst_app, existsb_app.
    destruct (existsb _ (toBranch <$> nodes responseData)) eqn:Hstop.
    + eexists _, _. split; [done | done].
    + edestruct (IH (pageInfo responseData)
                   (result ++ upToFirst (stopsAt untilPredicate)
                                 (toBranch <$> nodes responseData)))
        as (toCome & queries' & Hrun & Hrest); [done|].
      rewrite Hrun. exists toCome, queries'. split.
      * by rewrite (upToFirst_none _ _ Hstop), <- app_assoc.
      * cbn [orb]. intros Hnone. destruct (Hrest Hnone) as [-> Hlen].
        split; [done|]. rewrite Hlen, length_app. cbn. lia.
Qed.

(** X23. Without a predicate, over answers that announce a next page
    followed by one that does not, [getBranches] returns the branches of all
    these answers in order, after one query for each of them; answers that
    would come later are not asked for. *)
Theorem getBranches_lists_every_page init last rest net :
  answers net = init ++ last :: rest ->
  Forall (fun responseData => hasNextPage (pageInfo responseData) = true) init ->
  hasNextPage (pageInfo last) = false ->
  exists queries,
    getBranches this None net
    = Some (Return (branchesOf (init ++ [last])),
            {| answers := rest; sent := queries; printed := printed net |})
    /\ length queries = (length (sent net) + length init + 1)%nat.
Proof.
  intros Hnet Hinit Hlast. unfold getBranches. rewrite Hnet.
  destruct (whileHasNextPage_listing None init last rest noPageYet [] (sent net)
              eq_refl Hinit Hlast) as (toCome & queries & Hrun & Hrest).
  rewrite Hrun. cbn [stopsAt app] in *. rewrite upToFirst_never.
  destruct Hrest as [-> Hlen].
  { generalize (branchesOf (init ++ [last])). intros l. by induction l. }
  by exists queries.
Qed.

(** X24. With a predicate, [getBranches] returns the branches of the listing
    up to and including the first on which the predicate holds, and prints
    nothing. *)
Theorem getBranches_stops_at_first_match p init last rest net
  (before after : list GitBranchModel) (b : GitBranchModel) :
  answers net = init ++ last :: rest ->
  Forall (fun responseData => hasNextPage (pageInfo responseData) = true) init ->
  hasNextPage (pageInfo last) = false ->
  branchesOf (init ++ [last]) = before ++ b :: after ->
  Forall (fun x => p x = false) before ->
  p b = true ->
  exists net',
    getBranches this (Some p) net = Some (Return (before ++ [b]), net')
    /\ printed net' = printed net.
Proof.
  intros Hnet Hinit Hlast Hall Hbefore Hb. unfold getBranches. rewrite Hnet.
  destruct (whileHasNextPage_listing (Some p) init last rest noPageYet [] (sent net)
              eq_refl Hinit Hlast) as (toCome & queries & Hrun & _).
  rewrite Hrun. cbn [stopsAt app]. rewrite Hall, (upToFirst_split p _ _ _ Hbefore Hb).
  by eexists.
Qed.

(** The search of [getBranch] and [branchExists] over a listing. *)
Lemma getBranches_named (name' : string) init last rest net :
  answers net = init ++ last :: rest ->
  Forall (fun responseData => hasNextPage (pageInfo responseData) = true) init ->
  hasNextPage (pageInfo last) = false ->
  exists net',
    getBranches this (Some (fun branch => String.eqb (name branch) name')) net
    = Some (Return (upToFirst (named name') (branchesOf (init ++ [last]))), net')
    /\ printed net' = printed net.
Proof.
  intros Hnet Hinit Hlast. unfold getBranches. rewrite Hnet.
  destruct (whileHasNextPage_listing
              (Some (fun branch => String.eqb (name branch) name'))
              init last rest noPageYet [] (sent net) eq_refl Hinit Hlast)
    as (toCome & queries & Hrun & _).
  rewrite Hrun. by eexists.
Qed.

(** X25. [getBranch], the guard passing, over a listing: the first branch of
    that name is returned when there is one; when the repository has no
    branch at all the run prints that the branch does not exist and exits
    with code 1; when it has branches but none of that name, [undefined] is
    returned and nothing is printed. *)
Theorem getBranch_cases (name' : string) init last rest net :
  Guard_isNullOrEmptyOrUndefined name' "getBranch" "name" net
  = Some (Return tt, net) ->
  answers net = init ++ last :: rest ->
  Forall (fun responseData => hasNextPage (pageInfo responseData) = true) init ->
  hasNextPage (pageInfo last) = false ->
  exists out net',
    getBranch this Guard_isNullOrEmptyOrUndefined name' net = Some (out, net')
    /\ match List.find (named name') (branchesOf (init ++ [last])) with
       | Some b => out = Return (Some b) /\ printed net' = printed net
       | None =>
           match branchesOf (init ++ [last]) with
           | [] =>
               out = Exit 1
               /\ printed net'
                  = printed net ++ ["The branch '" +:+ name' +:+ "' does not exist."]
           | _ :: _ => out = Return None /\ printed net' = printed net
           end
       end.
Proof.
  intros Hguard Hnet Hinit Hlast. unfold getBranch, gbind. rewrite Hguard.
  destruct (getBranches_named name' init last rest net Hnet Hinit Hlast)
    as (net' & -> & Hprinted).
  rewrite upToFirst_nil. fold (named name'). rewrite upToFirst_find.
  destruct (branchesOf (init ++ [last])) as [|b0 all] eqn:Hall.
  - cbn. eexists _, _. split; [done|]. cbn. by rewrite Hprinted.
  - unfold gret. eexists _, _. split; [done|].
    by destruct (List.find (named name') (b0 :: all)).
Qed.

(** X26. [branchExists], the guard passing, over a listing: the answer is
    whether some branch of the listing has that name. *)
Theorem branchExists_correct (name' : string) init last rest net :
  Guard_isNullOrEmptyOrUndefined name' "branchExists" "name" net
  = Some (Return tt, net) ->
  answers net = init ++ last :: rest ->
  Forall (fun responseData => hasNextPage (pageInfo responseData) = true) init ->
  hasNextPage (pageInfo last) = false ->
  exists net',
    branchExists this Guard_isNullOrEmptyOrUndefined name' net
    = Some (Return (existsb (named name') (branchesOf (init ++ [last]))), net')
    /\ printed net' = printed net.
Proof.
  intros Hguard Hnet Hinit Hlast. unfold branchExists, gbind. rewrite Hguard.
  destruct (getBranches_named name' init last rest net Hnet Hinit Hlast)
    as (net' & -> & Hprinted).
  fold (named name'). rewrite upToFirst_existsb. by exists net'.
Qed.

(** X27. When the first answer holds no branch and announces a next page,
    the second query of [getBranches] is the first query again: the cursor
    of the first answer is not sent. *)
Theorem getBranches_empty_first_page untilPredicate
  (first second : RawRefsGetBranchModel) rest net :
  answers net = first :: second :: rest ->
  nodes first = [] ->
  hasNextPage (pageInfo first) = true ->
  hasNextPage (pageInfo second) = false ->
  exists result,
    getBranches this untilPredicate net
    = Some (Return result,
            {| answers := rest;
               sent := sent net
                       ++ [createGetBranchesQuery (repoOwner this) (repoName this)
                             None None;
                           createGetBranchesQuery (repoOwner this) (repoName this)
                             None None];
               printed := printed net |}).
Proof.
  intros Hnet Hnodes Hfirst Hsecond. unfold getBranches. rewrite Hnet.
  cbn [whileHasNextPage noPageYet hasNextPage]. cbv zeta.
  rewrite pushBranches_spec, Hnodes. cbn [fmap list_fmap upToFirst existsb app].
  rewrite Hfirst. cbn [length Nat.leb]. rewrite pushBranches_spec.
  destruct (existsb _ _).
  - eexists. by rewrite <- app_assoc.
  - rewrite (whileHasNextPage_done _ _ _ _ _ Hsecond). eexists.
    by rewrite <- app_assoc.
Qed.

End BranchFacts.

Section BranchSamples.

Import GitClient.

Lemma getBranches_lists_every_page_witness :
  exists queries,
    getBranches velaptor None
      (endpoint [answerOf ["main"; "preview"] true "c1"; answerOf ["release"] false "c2"])
    = Some (Return (branchesOf ([answerOf ["main"; "preview"] true "c1"]
                                ++ [answerOf ["release"] false "c2"])),
            {| answers := []; sent := queries; printed := [] |})
    /\ length queries = (0 + 1 + 1)%nat.
Proof.
  apply (getBranches_lists_every_page velaptor
           [answerOf ["main"; "preview"] true "c1"] (answerOf ["release"] false "c2") []
           (endpoint [answerOf ["main"; "preview"] true "c1";
                      answerOf ["release"] false "c2"])).
  - reflexivity.
  - repeat constructor.
  - reflexivity.
Defined.

Lemma getBranches_stops_at_first_match_witness :
  exists net',
    getBranches velaptor (Some (named "preview"))
      (endpoint [answerOf ["main"; "preview"] true "c1"; answerOf ["release"] false "c2"])
    = Some (Return ([toBranch (rawBranch "main")] ++ [toBranch (rawBranch "preview")]),
            net')
    /\ printed net' = [].
Proof.
  apply (getBranches_stops_at_first_match velaptor (named "preview")
           [answerOf ["main"; "preview"] true "c1"] (answerOf ["release"] false "c2") []
           (endpoint [answerOf ["main"; "preview"] true "c1";
                      answerOf ["release"] false "c2"])
           [toBranch (rawBranch "main")] [toBranch (rawBranch "release")]
           (toBranch (rawBranch "preview"))).
  - reflexivity.
  - repeat constructor.
  - reflexivity.
  - reflexivity.
  - repeat constructor.
  - reflexivity.
Defined.

Lemma getBranch_cases_witness :
  exists out net',
    getBranch velaptor noGuard "develop"
      (endpoint [answerOf ["main"; "preview"] true "c1"; answerOf ["release"] false "c2"])
    = Some (out, net')
    /\ out = Return None /\ printed net' = [].
Proof.
  apply (getBranch_cases velaptor noGuard "develop"
           [answerOf ["main"; "preview"] true "c1"] (answerOf ["release"] false "c2") []
           (endpoint [answerOf ["main"; "preview"] true "c1";
                      answerOf ["release"] false "c2"])).
  - reflexivity.
  - reflexivity.
  - repeat constructor.
  - reflexivity.
Defined.

Lemma branchExists_correct_witness :
  exists net',
    branchExists velaptor noGuard "release"
      (endpoint [answerOf ["main"; "preview"] true "c1"; answerOf ["release"] false "c2"])
    = Some (Return true, net')
    /\ printed net' = [].
Proof.
  apply (branchExists_correct velaptor noGuard "release"
           [answerOf ["main"; "preview"] true "c1"] (answerOf ["release"] false "c2") []
           (endpoint [answerOf ["main"; "preview"] true "c1";
                      answerOf ["release"] false "c2"])).
  - reflexivity.
  - reflexivity.
  - repeat constructor.
  - reflexivity.
Defined.

Lemma getBranches_empty_first_page_witness :
  exists result,
    getBranches velaptor None
      (endpoint [answerOf [] true "c1"; answerOf ["main"] false "c2"])
    = Some (Return result,
            {| answers := [];
               sent := [createGetBranchesQuery "KinsonDigital" "Velaptor" None None;
                        createGetBranchesQuery "KinsonDigital" "Velaptor" None None];
               printed := [] |}).
Proof.
  apply (getBranches_empty_first_page velaptor None
           (answerOf [] true "c1") (answerOf ["main"] false "c2") []
           (endpoint [answerOf [] true "c1"; answerOf ["main"] false "c2"])).
  - reflexivity.
  - reflexivity.
  - reflexivity.
  - reflexivity.
Defined.

End BranchSamples.
